(** * WildInfo: the client-side orchestration engine

    A shallow embedding of the App component's handlers (search, voice
    capture, video generation, comparison summary) and of the Gemini
    service functions they call, with the properties of the
    specification stated over it.

    Conventions of the embedding:
    - every [useState] cell and every [useRef] of [App] is a field of
      [AppState]; a [setX v] call is the record update [setX v st];
    - an [async] handler is cut at its [await]s: the synchronous prefix
      is one state transformer, the continuation another one that takes
      the outcome of the awaited call; the values a handler's closure
      captured at render time (its [useCallback] dependencies) are an
      explicit argument;
    - a rejected promise or a thrown exception is the [Err] branch of
      [result];
    - the remote providers and host capabilities are an environment
      record of outcomes ([World]); the calls the video handler makes to
      them are logged as [Event]s;
    - strings are [string] (sequences of 8-bit characters); the case
      mapping and the white space of [toLowerCase] and [trim] are
      those of the ASCII range;
    - JavaScript numbers are integers ([Z]): the numbers the handlers
      inspect are status codes and list lengths. *)

From Stdlib Require Import String Ascii List ZArith Bool Lia DecimalString.
Import ListNotations.

Local Open Scope string_scope.
Local Open Scope Z_scope.

Set Implicit Arguments.
Set Warnings "-register-all".

(** ** JavaScript string primitives *)

Module JS.

(** [c.toLowerCase()] on one character. *)
Definition lowerChar (c : ascii) : ascii :=
  let n := nat_of_ascii c in
  if (Nat.leb 65 n && Nat.leb n 90)%bool then ascii_of_nat (n + 32) else c.

(** [s.toLowerCase()] *)
Fixpoint toLowerCase (s : string) : string :=
  match s with
  | EmptyString => EmptyString
  | String c s' => String (lowerChar c) (toLowerCase s')
  end.

(** [s.startsWith(t)] *)
Fixpoint startsWith (s t : string) : bool :=
  match t, s with
  | EmptyString, _ => true
  | String _ _, EmptyString => false
  | String b t', String a s' => (Ascii.eqb a b && startsWith s' t')%bool
  end.

(** [s.includes(t)] *)
Fixpoint includes (s t : string) : bool :=
  (startsWith s t ||
   match s with
   | EmptyString => false
   | String _ s' => includes s' t
   end)%bool.

(** White space stripped by [trim]: TAB, LF, VT, FF, CR and SPACE. *)
Definition isWhiteSpace (c : ascii) : bool :=
  let n := nat_of_ascii c in
  ((Nat.leb 9 n && Nat.leb n 13) || Nat.eqb n 32)%bool.

Fixpoint trimStart (s : string) : string :=
  match s with
  | EmptyString => EmptyString
  | String c s' => if isWhiteSpace c then trimStart s' else s
  end.

Fixpoint trimEnd (s : string) : string :=
  match s with
  | EmptyString => EmptyString
  | String c s' =>
      match trimEnd s' with
      | EmptyString => if isWhiteSpace c then EmptyString else String c EmptyString
      | r => String c r
      end
  end.

(** [s.trim()] *)
Definition trim (s : string) : string := trimEnd (trimStart s).

(** Truthiness of a string: only the empty string is falsy. *)
Definition truthyString (s : string) : bool :=
  match s with EmptyString => false | _ => true end.

(** Truthiness of a value that may be [null]/[undefined]. *)
Definition truthyOpt (o : option string) : bool :=
  match o with Some s => truthyString s | None => false end.

(** [String(n)] for an integer. *)
Definition numberToString (n : Z) : string :=
  NilZero.string_of_int (Z.to_int n).

(** [xs.some(p)] *)
Definition some {A} (p : A -> bool) (xs : list A) : bool := existsb p xs.

End JS.

(** ** Outcomes of awaited calls *)

(** A thrown value: an [Error] instance with its message, or any other
    value, whose [message] property may or may not be a string. *)
Inductive thrown : Type :=
| ErrorObj (message : string)
| NonError (message : option string).

Inductive result (A : Type) : Type :=
| Ok (a : A)
| Err (e : thrown).
Arguments Ok {A} a.
Arguments Err {A} e.

(** [typeof err.message === 'string'], with the message when it holds. *)
Definition messageOf (e : thrown) : option string :=
  match e with
  | ErrorObj m => Some m
  | NonError m => m
  end.

(** [err instanceof Error] *)
Definition instanceofError (e : thrown) : bool :=
  match e with ErrorObj _ => true | NonError _ => false end.

Notation "st |> f" := (f st) (at level 45, left associativity, only parsing).

(** ** The entity model (types.ts) *)

Record AnimalStats : Type := {
  speed : Z;
  strength : Z;
  intelligence : Z;
  stealth : Z;
  defense : Z;
  endurance : Z;
  adaptability : Z;
  lifespan : Z;
  reach : Z
}.

Record Colors : Type := {
  primary : string;
  secondary : string
}.

Record AnimalData : Type := {
  name : string;
  scientificName : string;
  classification : string;
  phylum : string;
  class : string;
  conservationStatus : string;
  summary : string;
  habitat : string;
  diet : string;
  funFacts : list string;
  stats : AnimalStats;
  colors : Colors;
  imageUrl : option string;
  videoUrl : option string;
  distribution : list string
}.

(** [animalProfile.stats.reach = v] *)
Definition setReach (v : Z) (a : AnimalData) : AnimalData :=
  let s := stats a in
  {| name := name a; scientificName := scientificName a;
     classification := classification a; phylum := phylum a; class := class a;
     conservationStatus := conservationStatus a; summary := summary a;
     habitat := habitat a; diet := diet a; funFacts := funFacts a;
     stats := {| speed := speed s; strength := strength s;
                 intelligence := intelligence s; stealth := stealth s;
                 defense := defense s; endurance := endurance s;
                 adaptability := adaptability s; lifespan := lifespan s;
                 reach := v |};
     colors := colors a; imageUrl := imageUrl a; videoUrl := videoUrl a;
     distribution := distribution a |}.

(** [{ ...animalProfile, imageUrl }] *)
Definition withImageUrl (u : option string) (a : AnimalData) : AnimalData :=
  {| name := name a; scientificName := scientificName a;
     classification := classification a; phylum := phylum a; class := class a;
     conservationStatus := conservationStatus a; summary := summary a;
     habitat := habitat a; diet := diet a; funFacts := funFacts a;
     stats := stats a; colors := colors a; imageUrl := u;
     videoUrl := videoUrl a; distribution := distribution a |}.

(** ** Values of type [any]: what [JSON.parse] returns *)

Inductive json : Type :=
| JNull
| JBool (b : bool)
| JNum (n : Z)
| JStr (s : string)
| JArr (items : list json)
| JObj (fields : list (string * json)).

(** A JavaScript value read from parsed JSON: [None] is [undefined]. *)
Definition jsval : Type := option json.

(** The interface [{ comparisonSummary: string; winner: string }].  A
    value of it is a [JSON.parse] result under a cast that nothing checks
    at run time. *)
Definition AiComparisonSummaryResponse : Type := json.

Module Any.

(** Own property [k] of an object built by [JSON.parse]: when the text
    repeats a key, the last occurrence is the one kept. *)
Definition lookup (k : string) (fields : list (string * json)) : jsval :=
  fold_left (fun acc kv => if String.eqb (fst kv) k then Some (snd kv) else acc)
            fields None.

(** [v.k] for a key that is not a built-in property ([error], [code],
    [message]).  [None] is the [TypeError] of reading a property of
    [null]; primitives and arrays have no such property. *)
Definition getProp (v : json) (k : string) : option jsval :=
  match v with
  | JNull => None
  | JObj fields => Some (lookup k fields)
  | _ => Some None
  end.

(** Truthiness. *)
Definition truthy (v : jsval) : bool :=
  match v with
  | None => false
  | Some JNull => false
  | Some (JBool b) => b
  | Some (JNum n) => negb (Z.eqb n 0)
  | Some (JStr s) => JS.truthyString s
  | Some (JArr _) => true
  | Some (JObj _) => true
  end.

(** [xs.join(sep)] on already converted elements. *)
Fixpoint join (sep : string) (xs : list string) : string :=
  match xs with
  | [] => ""
  | [x] => x
  | x :: rest => x ++ sep ++ join sep rest
  end.

(** The string a template literal substitutes for a value.  An array
    converts as [join(",")], with [null] elements as empty strings. *)
Fixpoint toStr (v : json) : string :=
  match v with
  | JNull => "null"
  | JBool true => "true"
  | JBool false => "false"
  | JNum n => JS.numberToString n
  | JStr s => s
  | JArr items =>
      join "," (map (fun x => match x with JNull => "" | _ => toStr x end) items)
  | JObj _ => "[object Object]"
  end.

Definition toString (v : jsval) : string :=
  match v with
  | None => "undefined"
  | Some j => toStr j
  end.

(** [v === n] for a number literal [n]. *)
Definition strictEqNum (v : jsval) (n : Z) : bool :=
  match v with
  | Some (JNum m) => Z.eqb m n
  | _ => false
  end.

End Any.

(** ** The world outside the engine *)

(** One part of an image reply: [part.inlineData?.data] and
    [part.inlineData.mimeType]. *)
Record InlineData : Type := {
  data : option string;
  mimeType : option string
}.

Record Part : Type := {
  inlineData : option InlineData
}.

(** A video operation: its [done] flag and
    [operation.response?.generatedVideos?.[0]?.video?.uri]. *)
Record Operation : Type := {
  done : bool;
  uri : option string
}.

(** The reply of [fetch]: [ok], [statusText], and the object URL that
    [URL.createObjectURL(await response.blob())] yields. *)
Record Response : Type := {
  ok : bool;
  statusText : string;
  objectURL : string
}.

(** The providers and host capabilities, as the outcomes of the calls
    the services make.  A [parse*] field is [JSON.parse] followed by the
    cast the source applies; the declared type is trusted there. *)
Record World : Type := {
  (** [process.env.API_KEY] *)
  API_KEY : option string;
  (** [JSON.parse(s)] at type [any]; [None] when it throws. *)
  JSON_parse : string -> option json;
  (** entity-data provider: [textResponse.text] for a subject name *)
  generateProfile : string -> result (option string);
  (** [JSON.parse(text) as AnimalData] *)
  parseAnimalData : string -> result AnimalData;
  (** image provider: [imageResponse.candidates?.[0]?.content?.parts || []] *)
  generateImage : string -> result (list Part);
  (** video provider: [ai.models.generateVideos] for a prompt *)
  generateVideos : string -> result Operation;
  (** video provider: the reply of the [k]-th [getVideosOperation] call;
      [Ok None] is a null reply *)
  getVideosOperation : nat -> result (option Operation);
  (** [fetch(url)] *)
  fetch : string -> result Response;
  (** [window.aistudio.hasSelectedApiKey], when the host provides it *)
  hasSelectedApiKey : option (result bool);
  (** [window.aistudio.openSelectKey], when the host provides it *)
  openSelectKey : option (result unit);
  (** comparison provider: [response.text] for two subjects *)
  generateSummary : AnimalData -> AnimalData -> result (option string)
}.

(** Calls that reach a provider or a host capability. *)
Inductive Event : Type :=
| EvHasSelectedApiKey
| EvOpenSelectKey
| EvGenerateVideos (prompt : string)
| EvGetVideosOperation (k : nat)
| EvFetch (url : string).

(** ** services/geminiService *)

Module GeminiService.

(** List of Latin scientific names to exclude *)
Definition invertebrateLatinTerms : list string :=
  [ "arthropoda"; "insecta"; "arachnida"; "crustacea"; "myriapoda";
    "mollusca"; "annelida"; "cnidaria"; "echinodermata"; "porifera";
    "platyhelminthes"; "nematoda" ].

(** List of common English keywords to exclude to be safe *)
Definition invertebrateCommonKeywords : list string :=
  [ "insect"; "arthropod"; "arachnid"; "crustacean"; "myriapod";
    "mollusc"; "mollusk"; "annelid"; "worm"; "cnidarian"; "jellyfish";
    "echinoderm"; "starfish"; "sponge"; "nematode"; "bug"; "centipede";
    "millipede" ].

Definition isLatinExcluded (a : AnimalData) : bool :=
  let lowerPhylum := JS.toLowerCase (phylum a) in
  let lowerClass := JS.toLowerCase (class a) in
  JS.some (fun term =>
             JS.includes lowerPhylum term || JS.includes lowerClass term)%bool
          invertebrateLatinTerms.

Definition isKeywordExcluded (a : AnimalData) : bool :=
  let lowerPhylum := JS.toLowerCase (phylum a) in
  let lowerClass := JS.toLowerCase (class a) in
  let lowerClassification := JS.toLowerCase (classification a) in
  JS.some (fun keyword =>
             JS.includes lowerPhylum keyword ||
             JS.includes lowerClass keyword ||
             JS.includes lowerClassification keyword)%bool
          invertebrateCommonKeywords.

Definition focusPhrase : string := "WildInfo focuses on larger animals.".

(** The message of the error thrown for an excluded subject. *)
Definition rejectionMessage (animalName : string) : string :=
  focusPhrase
  ++ " We currently do not provide detailed information for small invertebrates like '"
  ++ animalName ++ "'. Please search for a different type of animal.".

(** The loop over the image parts: the first part that has both
    [inlineData.data] and [inlineData.mimeType] gives the data URL. *)
Fixpoint firstInlineImage (parts : list Part) : option string :=
  match parts with
  | [] => None
  | part :: rest =>
      match inlineData part with
      | Some d =>
          match data d, mimeType d with
          | Some bytes, Some mime =>
              if (JS.truthyString bytes && JS.truthyString mime)%bool
              then Some ("data:" ++ mime ++ ";base64," ++ bytes)
              else firstInlineImage rest
          | _, _ => firstInlineImage rest
          end
      | None => firstInlineImage rest
      end
  end.

Section Services.

Variable w : World.

(** [fetchAnimalData(animalName)] *)
Definition fetchAnimalData (animalName : string) : result AnimalData :=
  match generateProfile w animalName with
  | Err e => Err e
  | Ok text =>
      if negb (JS.truthyOpt text)
      then Err (ErrorObj "No textual data returned from Gemini")
      else
        match parseAnimalData w (match text with Some t => t | None => "" end) with
        | Err e => Err e
        | Ok parsed =>
            (* Calculate 'reach' from distribution length *)
            let animalProfile :=
              setReach (Z.of_nat (length (distribution parsed))) parsed in
            if (isLatinExcluded animalProfile || isKeywordExcluded animalProfile)%bool
            then Err (ErrorObj (rejectionMessage animalName))
            else
              let imageUrl :=
                match generateImage w animalName with
                | Ok parts => firstInlineImage parts
                | Err _ => None
                end in
              Ok (withImageUrl imageUrl animalProfile)
        end
  end.

Definition videoPrompt (animalName : string) : string :=
  "A high-quality video of a " ++ animalName
  ++ " in its natural habitat, showing its typical behavior.".

(** The poll loop [while (!operation.done)].  [k] counts the polls
    made so far; [None] is a loop that has not ended within [fuel]
    iterations. *)
Fixpoint pollLoop (fuel k : nat) (operation : Operation)
  : option (result Operation * list Event) :=
  if done operation then Some (Ok operation, [])
  else
    match fuel with
    | O => None
    | S fuel' =>
        match getVideosOperation w k with
        | Err e => Some (Err e, [EvGetVideosOperation k])
        | Ok reply =>
            let next := match reply with
                        | None => operation
                        | Some operationResponse => operationResponse
                        end in
            match pollLoop fuel' (S k) next with
            | Some (r, evs) => Some (r, EvGetVideosOperation k :: evs)
            | None => None
            end
        end
    end.

(** What follows the poll loop: the download link, the key check,
    the fetch of the bytes. *)
Definition materialize (operation : Operation) : result string * list Event :=
  if negb (JS.truthyOpt (uri operation))
  then (Err (ErrorObj "No video download link found."), [])
  else
    let downloadLink := match uri operation with Some u => u | None => "" end in
    if negb (JS.truthyOpt (API_KEY w))
    then (Err (ErrorObj "API Key is missing when attempting to fetch video."), [])
    else
      let key := match API_KEY w with Some k => k | None => "" end in
      let url := downloadLink ++ "&key=" ++ key in
      match fetch w url with
      | Err e => (Err e, [EvFetch url])
      | Ok response =>
          if negb (ok response)
          then (Err (ErrorObj ("Failed to fetch video: " ++ statusText response)),
                [EvFetch url])
          else (Ok (objectURL response), [EvFetch url])
      end.

(** [generateAnimalVideo(animalName)] *)
Definition generateAnimalVideo (fuel : nat) (animalName : string)
  : option (result string * list Event) :=
  let prompt := videoPrompt animalName in
  match generateVideos w prompt with
  | Err e => Some (Err e, [EvGenerateVideos prompt])
  | Ok operation =>
      match pollLoop fuel 0 operation with
      | None => None
      | Some (Err e, evs) => Some (Err e, EvGenerateVideos prompt :: evs)
      | Some (Ok final, evs) =>
          let (r, evs') := materialize final in
          Some (r, (EvGenerateVideos prompt :: evs ++ evs')%list)
      end
  end.

(** [generateComparisonSummary(animal1, animal2)] *)
Definition generateComparisonSummary (animal1 animal2 : AnimalData)
  : result AiComparisonSummaryResponse :=
  match generateSummary w animal1 animal2 with
  | Err e => Err e
  | Ok text =>
      if negb (JS.truthyOpt text)
      then Err (ErrorObj "No comparison summary returned from Gemini.")
      else
        match JSON_parse w (match text with Some t => t | None => "" end) with
        | Some parsed => Ok parsed
        | None =>
            Err (ErrorObj
              "Failed to parse comparison summary from AI. Please try again.")
        end
  end.

End Services.

End GeminiService.

(** ** The App component *)

Module App.

Inductive Mode : Type := explore | compare.

(** The [useState] cells of [App], and the ref [latestVoiceSearchText]. *)
Record AppState : Type := {
  primaryAnimal : option AnimalData;
  comparisonAnimal : option AnimalData;
  isLoading : bool;
  error : option string;
  mode : Mode;
  showChatbot : bool;
  videoUrl : option string;
  isVideoLoading : bool;
  videoError : option string;
  showVideoApiKeyPrompt : bool;
  isVoiceListening : bool;
  voiceSearchText : string;
  voiceSearchError : option string;
  latestVoiceSearchText : string;
  comparisonSummaryData : option AiComparisonSummaryResponse;
  isComparisonSummaryLoading : bool;
  comparisonSummaryError : option string
}.

(** The state of the first render. *)
Definition initialState : AppState :=
  {| primaryAnimal := None;
     comparisonAnimal := None;
     isLoading := false;
     error := None;
     mode := explore;
     showChatbot := false;
     videoUrl := None;
     isVideoLoading := false;
     videoError := None;
     showVideoApiKeyPrompt := false;
     isVoiceListening := false;
     voiceSearchText := EmptyString;
     voiceSearchError := None;
     latestVoiceSearchText := EmptyString;
     comparisonSummaryData := None;
     isComparisonSummaryLoading := false;
     comparisonSummaryError := None |}.

(** The setters: each writes one cell. *)
Definition setPrimaryAnimal (v : option AnimalData) (st : AppState) : AppState :=
  {| primaryAnimal := v;
     comparisonAnimal := comparisonAnimal st;
     isLoading := isLoading st;
     error := error st;
     mode := mode st;
     showChatbot := showChatbot st;
     videoUrl := videoUrl st;
     isVideoLoading := isVideoLoading st;
     videoError := videoError st;
     showVideoApiKeyPrompt := showVideoApiKeyPrompt st;
     isVoiceListening := isVoiceListening st;
     voiceSearchText := voiceSearchText st;
     voiceSearchError := voiceSearchError st;
     latestVoiceSearchText := latestVoiceSearchText st;
     comparisonSummaryData := comparisonSummaryData st;
     isComparisonSummaryLoading := isComparisonSummaryLoading st;
     comparisonSummaryError := comparisonSummaryError st |}.

Definition setComparisonAnimal (v : option AnimalData) (st : AppState) : AppState :=
  {| primaryAnimal := primaryAnimal st;
     comparisonAnimal := v;
     isLoading := isLoading st;
     error := error st;
     mode := mode st;
     showChatbot := showChatbot st;
     videoUrl := videoUrl st;
     isVideoLoading := isVideoLoading st;
     videoError := videoError st;
     showVideoApiKeyPrompt := showVideoApiKeyPrompt st;
     isVoiceListening := isVoiceListening st;
     voiceSearchText := voiceSearchText st;
     voiceSearchError := voiceSearchError st;
     latestVoiceSearchText := latestVoiceSearchText st;
     comparisonSummaryData := comparisonSummaryData st;
     isComparisonSummaryLoading := isComparisonSummaryLoading st;
     comparisonSummaryError := comparisonSummaryError st |}.

Definition setIsLoading (v : bool) (st : AppState) : AppState :=
  {| primaryAnimal := primaryAnimal st;
     comparisonAnimal := comparisonAnimal st;
     isLoading := v;
     error := error st;
     mode := mode st;
     showChatbot := showChatbot st;
     videoUrl := videoUrl st;
     isVideoLoading := isVideoLoading st;
     videoError := videoError st;
     showVideoApiKeyPrompt := showVideoApiKeyPrompt st;
     isVoiceListening := isVoiceListening st;
     voiceSearchText := voiceSearchText st;
     voiceSearchError := voiceSearchError st;
     latestVoiceSearchText := latestVoiceSearchText st;
     comparisonSummaryData := comparisonSummaryData st;
     isComparisonSummaryLoading := isComparisonSummaryLoading st;
     comparisonSummaryError := comparisonSummaryError st |}.

Definition setError (v : option string) (st : AppState) : AppState :=
  {| primaryAnimal := primaryAnimal st;
     comparisonAnimal := comparisonAnimal st;
     isLoading := isLoading st;
     error := v;
     mode := mode st;
     showChatbot := showChatbot st;
     videoUrl := videoUrl st;
     isVideoLoading := isVideoLoading st;
     videoError := videoError st;
     showVideoApiKeyPrompt := showVideoApiKeyPrompt st;
     isVoiceListening := isVoiceListening st;
     voiceSearchText := voiceSearchText st;
     voiceSearchError := voiceSearchError st;
     latestVoiceSearchText := latestVoiceSearchText st;
     comparisonSummaryData := comparisonSummaryData st;
     isComparisonSummaryLoading := isComparisonSummaryLoading st;
     comparisonSummaryError := comparisonSummaryError st |}.

Definition setMode (v : Mode) (st : AppState) : AppState :=
  {| primaryAnimal := primaryAnimal st;
     comparisonAnimal := comparisonAnimal st;
     isLoading := isLoading st;
     error := error st;
     mode := v;
     showChatbot := showChatbot st;
     videoUrl := videoUrl st;
     isVideoLoading := isVideoLoading st;
     videoError := videoError st;
     showVideoApiKeyPrompt := showVideoApiKeyPrompt st;
     isVoiceListening := isVoiceListening st;
     voiceSearchText := voiceSearchText st;
     voiceSearchError := voiceSearchError st;
     latestVoiceSearchText := latestVoiceSearchText st;
     comparisonSummaryData := comparisonSummaryData st;
     isComparisonSummaryLoading := isComparisonSummaryLoading st;
     comparisonSummaryError := comparisonSummaryError st |}.

Definition setShowChatbot (v : bool) (st : AppState) : AppState :=
  {| primaryAnimal := primaryAnimal st;
     comparisonAnimal := comparisonAnimal st;
     isLoading := isLoading st;
     error := error st;
     mode := mode st;
     showChatbot := v;
     videoUrl := videoUrl st;
     isVideoLoading := isVideoLoading st;
     videoError := videoError st;
     showVideoApiKeyPrompt := showVideoApiKeyPrompt st;
     isVoiceListening := isVoiceListening st;
     voiceSearchText := voiceSearchText st;
     voiceSearchError := voiceSearchError st;
     latestVoiceSearchText := latestVoiceSearchText st;
     comparisonSummaryData := comparisonSummaryData st;
     isComparisonSummaryLoading := isComparisonSummaryLoading st;
     comparisonSummaryError := comparisonSummaryError st |}.

Definition setVideoUrl (v : option string) (st : AppState) : AppState :=
  {| primaryAnimal := primaryAnimal st;
     comparisonAnimal := comparisonAnimal st;
     isLoading := isLoading st;
     error := error st;
     mode := mode st;
     showChatbot := showChatbot st;
     videoUrl := v;
     isVideoLoading := isVideoLoading st;
     videoError := videoError st;
     showVideoApiKeyPrompt := showVideoApiKeyPrompt st;
     isVoiceListening := isVoiceListening st;
     voiceSearchText := voiceSearchText st;
     voiceSearchError := voiceSearchError st;
     latestVoiceSearchText := latestVoiceSearchText st;
     comparisonSummaryData := comparisonSummaryData st;
     isComparisonSummaryLoading := isComparisonSummaryLoading st;
     comparisonSummaryError := comparisonSummaryError st |}.

Definition setIsVideoLoading (v : bool) (st : AppState) : AppState :=
  {| primaryAnimal := primaryAnimal st;
     comparisonAnimal := comparisonAnimal st;
     isLoading := isLoading st;
     error := error st;
     mode := mode st;
     showChatbot := showChatbot st;
     videoUrl := videoUrl st;
     isVideoLoading := v;
     videoError := videoError st;
     showVideoApiKeyPrompt := showVideoApiKeyPrompt st;
     isVoiceListening := isVoiceListening st;
     voiceSearchText := voiceSearchText st;
     voiceSearchError := voiceSearchError st;
     latestVoiceSearchText := latestVoiceSearchText st;
     comparisonSummaryData := comparisonSummaryData st;
     isComparisonSummaryLoading := isComparisonSummaryLoading st;
     comparisonSummaryError := comparisonSummaryError st |}.

Definition setVideoError (v : option string) (st : AppState) : AppState :=
  {| primaryAnimal := primaryAnimal st;
     comparisonAnimal := comparisonAnimal st;
     isLoading := isLoading st;
     error := error st;
     mode := mode st;
     showChatbot := showChatbot st;
     videoUrl := videoUrl st;
     isVideoLoading := isVideoLoading st;
     videoError := v;
     showVideoApiKeyPrompt := showVideoApiKeyPrompt st;
     isVoiceListening := isVoiceListening st;
     voiceSearchText := voiceSearchText st;
     voiceSearchError := voiceSearchError st;
     latestVoiceSearchText := latestVoiceSearchText st;
     comparisonSummaryData := comparisonSummaryData st;
     isComparisonSummaryLoading := isComparisonSummaryLoading st;
     comparisonSummaryError := comparisonSummaryError st |}.

Definition setShowVideoApiKeyPrompt (v : bool) (st : AppState) : AppState :=
  {| primaryAnimal := primaryAnimal st;
     comparisonAnimal := comparisonAnimal st;
     isLoading := isLoading st;
     error := error st;
     mode := mode st;
     showChatbot := showChatbot st;
     videoUrl := videoUrl st;
     isVideoLoading := isVideoLoading st;
     videoError := videoError st;
     showVideoApiKeyPrompt := v;
     isVoiceListening := isVoiceListening st;
     voiceSearchText := voiceSearchText st;
     voiceSearchError := voiceSearchError st;
     latestVoiceSearchText := latestVoiceSearchText st;
     comparisonSummaryData := comparisonSummaryData st;
     isComparisonSummaryLoading := isComparisonSummaryLoading st;
     comparisonSummaryError := comparisonSummaryError st |}.

Definition setIsVoiceListening (v : bool) (st : AppState) : AppState :=
  {| primaryAnimal := primaryAnimal st;
     comparisonAnimal := comparisonAnimal st;
     isLoading := isLoading st;
     error := error st;
     mode := mode st;
     showChatbot := showChatbot st;
     videoUrl := videoUrl st;
     isVideoLoading := isVideoLoading st;
     videoError := videoError st;
     showVideoApiKeyPrompt := showVideoApiKeyPrompt st;
     isVoiceListening := v;
     voiceSearchText := voiceSearchText st;
     voiceSearchError := voiceSearchError st;
     latestVoiceSearchText := latestVoiceSearchText st;
     comparisonSummaryData := comparisonSummaryData st;
     isComparisonSummaryLoading := isComparisonSummaryLoading st;
     comparisonSummaryError := comparisonSummaryError st |}.

Definition setVoiceSearchText (v : string) (st : AppState) : AppState :=
  {| primaryAnimal := primaryAnimal st;
     comparisonAnimal := comparisonAnimal st;
     isLoading := isLoading st;
     error := error st;
     mode := mode st;
     showChatbot := showChatbot st;
     videoUrl := videoUrl st;
     isVideoLoading := isVideoLoading st;
     videoError := videoError st;
     showVideoApiKeyPrompt := showVideoApiKeyPrompt st;
     isVoiceListening := isVoiceListening st;
     voiceSearchText := v;
     voiceSearchError := voiceSearchError st;
     latestVoiceSearchText := latestVoiceSearchText st;
     comparisonSummaryData := comparisonSummaryData st;
     isComparisonSummaryLoading := isComparisonSummaryLoading st;
     comparisonSummaryError := comparisonSummaryError st |}.

Definition setVoiceSearchError (v : option string) (st : AppState) : AppState :=
  {| primaryAnimal := primaryAnimal st;
     comparisonAnimal := comparisonAnimal st;
     isLoading := isLoading st;
     error := error st;
     mode := mode st;
     showChatbot := showChatbot st;
     videoUrl := videoUrl st;
     isVideoLoading := isVideoLoading st;
     videoError := videoError st;
     showVideoApiKeyPrompt := showVideoApiKeyPrompt st;
     isVoiceListening := isVoiceListening st;
     voiceSearchText := voiceSearchText st;
     voiceSearchError := v;
     latestVoiceSearchText := latestVoiceSearchText st;
     comparisonSummaryData := comparisonSummaryData st;
     isComparisonSummaryLoading := isComparisonSummaryLoading st;
     comparisonSummaryError := comparisonSummaryError st |}.

Definition setLatestVoiceSearchText (v : string) (st : AppState) : AppState :=
  {| primaryAnimal := primaryAnimal st;
     comparisonAnimal := comparisonAnimal st;
     isLoading := isLoading st;
     error := error st;
     mode := mode st;
     showChatbot := showChatbot st;
     videoUrl := videoUrl st;
     isVideoLoading := isVideoLoading st;
     videoError := videoError st;
     showVideoApiKeyPrompt := showVideoApiKeyPrompt st;
     isVoiceListening := isVoiceListening st;
     voiceSearchText := voiceSearchText st;
     voiceSearchError := voiceSearchError st;
     latestVoiceSearchText := v;
     comparisonSummaryData := comparisonSummaryData st;
     isComparisonSummaryLoading := isComparisonSummaryLoading st;
     comparisonSummaryError := comparisonSummaryError st |}.

Definition setComparisonSummaryData (v : option AiComparisonSummaryResponse) (st : AppState) : AppState :=
  {| primaryAnimal := primaryAnimal st;
     comparisonAnimal := comparisonAnimal st;
     isLoading := isLoading st;
     error := error st;
     mode := mode st;
     showChatbot := showChatbot st;
     videoUrl := videoUrl st;
     isVideoLoading := isVideoLoading st;
     videoError := videoError st;
     showVideoApiKeyPrompt := showVideoApiKeyPrompt st;
     isVoiceListening := isVoiceListening st;
     voiceSearchText := voiceSearchText st;
     voiceSearchError := voiceSearchError st;
     latestVoiceSearchText := latestVoiceSearchText st;
     comparisonSummaryData := v;
     isComparisonSummaryLoading := isComparisonSummaryLoading st;
     comparisonSummaryError := comparisonSummaryError st |}.

Definition setIsComparisonSummaryLoading (v : bool) (st : AppState) : AppState :=
  {| primaryAnimal := primaryAnimal st;
     comparisonAnimal := comparisonAnimal st;
     isLoading := isLoading st;
     error := error st;
     mode := mode st;
     showChatbot := showChatbot st;
     videoUrl := videoUrl st;
     isVideoLoading := isVideoLoading st;
     videoError := videoError st;
     showVideoApiKeyPrompt := showVideoApiKeyPrompt st;
     isVoiceListening := isVoiceListening st;
     voiceSearchText := voiceSearchText st;
     voiceSearchError := voiceSearchError st;
     latestVoiceSearchText := latestVoiceSearchText st;
     comparisonSummaryData := comparisonSummaryData st;
     isComparisonSummaryLoading := v;
     comparisonSummaryError := comparisonSummaryError st |}.

Definition setComparisonSummaryError (v : option string) (st : AppState) : AppState :=
  {| primaryAnimal := primaryAnimal st;
     comparisonAnimal := comparisonAnimal st;
     isLoading := isLoading st;
     error := error st;
     mode := mode st;
     showChatbot := showChatbot st;
     videoUrl := videoUrl st;
     isVideoLoading := isVideoLoading st;
     videoError := videoError st;
     showVideoApiKeyPrompt := showVideoApiKeyPrompt st;
     isVoiceListening := isVoiceListening st;
     voiceSearchText := voiceSearchText st;
     voiceSearchError := voiceSearchError st;
     latestVoiceSearchText := latestVoiceSearchText st;
     comparisonSummaryData := comparisonSummaryData st;
     isComparisonSummaryLoading := isComparisonSummaryLoading st;
     comparisonSummaryError := v |}.

(** *** The lookup error classifier and [handleSearch] *)

Definition networkPhrase : string := "Rpc failed due to xhr error.".

Definition networkMessage : string :=
  "Network or API service issue. Please check your internet connection and try again later.".

Definition notFoundMessage : string :=
  "Could not find that animal or an error occurred. Try something common like 'Lion' or 'Peregrine Falcon'.".

(** The [catch] clause of [handleSearch]: the message stored by
    [setError]. *)
Definition searchErrorMessage (err : thrown) : string :=
  match messageOf err with
  | Some m =>
      if JS.includes m GeminiService.focusPhrase then m
      else if JS.includes m networkPhrase then networkMessage
      else notFoundMessage
  | None => notFoundMessage
  end.

(** [handleSearch] up to [await fetchAnimalData(term)]. *)
Definition handleSearch_begin (st : AppState) : AppState :=
  st |> setIsLoading true
     |> setError None
     |> setVideoUrl None
     |> setVideoError None
     |> setShowVideoApiKeyPrompt false
     |> setVoiceSearchError None.

(** [handleSearch] from the point the lookup has settled.  [snap] is the
    render whose [mode] and [primaryAnimal] the callback captured; [st]
    is the state the setters act on. *)
Definition handleSearch_resume (snap : AppState) (outcome : result AnimalData)
    (st : AppState) : AppState :=
  (match outcome with
   | Ok data =>
       match mode snap with
       | explore =>
           st |> setPrimaryAnimal (Some data)
              |> setComparisonAnimal None
       | compare =>
           match primaryAnimal snap with
           | None => st |> setPrimaryAnimal (Some data)
           | Some _ => st |> setComparisonAnimal (Some data)
           end
       end
   | Err err => st |> setError (Some (searchErrorMessage err))
   end)
  |> setIsLoading false.

Section Handlers.

Variable w : World.

(** [handleSearch(term)] run without another handler in between. *)
Definition handleSearch (snap : AppState) (term : string) (st : AppState)
  : AppState :=
  handleSearch_resume snap (GeminiService.fetchAnimalData w term)
                      (handleSearch_begin st).

(** [search(term)]: the callback of the current render, whose captured
    [mode] and [primaryAnimal] are those of the state. *)
Definition search (term : string) (st : AppState) : AppState :=
  handleSearch st term st.

(** *** The comparison summary effect *)

Definition summaryFailedMessage : string :=
  "Failed to generate comparison summary. Please try again.".

(** The summary effect's guard, with the two subjects when it holds. *)
Definition summaryEnabled (snap : AppState) : option (AnimalData * AnimalData) :=
  match mode snap, primaryAnimal snap, comparisonAnimal snap with
  | compare, Some p, Some c => Some (p, c)
  | _, _, _ => None
  end.

(** [fetchComparisonSummary] up to its [await], or all of it when the
    guard fails. *)
Definition fetchComparisonSummary_begin (snap : AppState) (st : AppState)
  : AppState :=
  match summaryEnabled snap with
  | Some _ =>
      st |> setIsComparisonSummaryLoading true
         |> setComparisonSummaryError None
  | None =>
      st |> setComparisonSummaryData None
         |> setIsComparisonSummaryLoading false
         |> setComparisonSummaryError None
  end.

(** [fetchComparisonSummary] once the request has settled. *)
Definition fetchComparisonSummary_resume
    (outcome : result AiComparisonSummaryResponse) (st : AppState) : AppState :=
  (match outcome with
   | Ok summary => st |> setComparisonSummaryData (Some summary)
   | Err _ => st |> setComparisonSummaryError (Some summaryFailedMessage)
   end)
  |> setIsComparisonSummaryLoading false.

(** One run of the effect for the render [snap]. *)
Definition fetchComparisonSummary (snap : AppState) (st : AppState) : AppState :=
  match summaryEnabled snap with
  | Some (p, c) =>
      fetchComparisonSummary_resume
        (GeminiService.generateComparisonSummary w p c)
        (fetchComparisonSummary_begin snap st)
  | None => fetchComparisonSummary_begin snap st
  end.

(** *** Voice capture *)

(** The effect [latestVoiceSearchText.current = voiceSearchText]. *)
Definition syncLatestVoiceSearchText (st : AppState) : AppState :=
  st |> setLatestVoiceSearchText (voiceSearchText st).

Definition onstart (st : AppState) : AppState :=
  st |> setIsVoiceListening true
     |> setVoiceSearchError None
     |> setVoiceSearchText "".

(** One entry of [event.results]: [results[i][0].transcript] and
    [results[i].isFinal]. *)
Record SpeechResult : Type := {
  transcript : string;
  isFinal : bool
}.

(** The loop of [onresult] from [event.resultIndex] on: the pair
    (interimTranscript, finalTranscript). *)
Fixpoint accumulate (results : list SpeechResult) (interim final : string)
  : string * string :=
  match results with
  | [] => (interim, final)
  | r :: rest =>
      if isFinal r then accumulate rest interim (final ++ transcript r)
      else accumulate rest (interim ++ transcript r) final
  end.

Definition onresult (resultIndex : nat) (results : list SpeechResult)
    (st : AppState) : AppState :=
  let (interimTranscript, finalTranscript) :=
    accumulate (skipn resultIndex results) "" "" in
  st |> setVoiceSearchText
          (if JS.truthyString finalTranscript then finalTranscript
           else interimTranscript).

(** [onend].  The second component lists the [handleSearch] calls made,
    by their argument; a call runs its synchronous prefix at once and
    leaves its continuation [handleSearch_resume] pending.  The callback
    called is the [handleSearch] of the render in which the recognizer
    was built, so that render is the [snap] of the continuation. *)
Definition onend (st : AppState) : AppState * list string :=
  let st1 := st |> setIsVoiceListening false in
  let spoken := JS.trim (latestVoiceSearchText st1) in
  let (st2, calls) :=
    if JS.truthyString spoken
    then (handleSearch_begin st1, [spoken])
    else (st1, []) in
  (st2 |> setVoiceSearchText "", calls).

Definition voiceErrorMessage (code : string) : string :=
  if String.eqb code "no-speech" then
    "No speech detected. Please ensure your microphone is working and speak clearly."
  else if String.eqb code "not-allowed" then
    "Microphone access denied. Please allow microphone access in your browser settings to use voice search."
  else if String.eqb code "network" then
    "Voice search failed due to a network error. Please check your internet connection."
  else if String.eqb code "service-not-allowed" then
    "Voice search service is unavailable. Please try again later or check your browser settings."
  else if String.eqb code "audio-capture" then
    "Failed to capture audio from your microphone. Please ensure it's connected and working."
  else if String.eqb code "aborted" then
    "Voice search was interrupted. Please try again."
  else if String.eqb code "bad-grammar" then
    "Could not process your speech due to an issue. Please try speaking more clearly."
  else if String.eqb code "language-not-supported" then
    "Voice search language not supported. Ensure your browser's language setting is compatible (e.g., English US)."
  else "An unexpected error occurred during voice search. Please try again.".

Definition onerror (code : string) (st : AppState) : AppState :=
  st |> setIsVoiceListening false
     |> setVoiceSearchError (Some (voiceErrorMessage code))
     |> setVoiceSearchText "".

(** *** Video generation *)

Definition unknownVideoError : string :=
  "Failed to generate video. An unknown error occurred.".

Definition billingRequiredMessage : string :=
  "A valid API key from a paid Google Cloud Project with billing enabled is required for video generation. Please select a key.".

Definition badRequestMessage (details : string) : string :=
  "Failed to generate video: Bad request. Please check your prompt. (Details: "
  ++ details ++ ")".

Definition permissionDeniedMessage (details : string) : string :=
  "Permission denied for video generation. Ensure the Veo API is enabled in your Google Cloud Project. (Details: "
  ++ details ++ ")".

Definition quotaExceededMessage : string :=
  "Video generation quota exceeded. Please try again later or check your Google Cloud billing.".

Definition serviceUnavailableMessage : string :=
  "Video generation service is temporarily unavailable. Please try again later.".

Definition apiErrorMessage (detail : string) : string :=
  "Video generation failed with API error: " ++ detail ++ ".".

Definition fallbackVideoMessage (raw : string) : string :=
  "Video generation failed: " ++ raw.

Definition pickerUnavailableMessage : string :=
  "API key selection tool is not available. Please ensure your environment is configured correctly.".

(** The [switch (apiError.code)] of the [catch] clause: the pair
    (errorMessage, showKeyPrompt). *)
Definition switchOnCode (code message : jsval) : string * bool :=
  if Any.strictEqNum code 404 then (billingRequiredMessage, true)
  else if Any.strictEqNum code 400 then (badRequestMessage (Any.toString message), false)
  else if Any.strictEqNum code 403 then
    (permissionDeniedMessage (Any.toString message), false)
  else if Any.strictEqNum code 429 then (quotaExceededMessage, false)
  else if (Any.strictEqNum code 500 || Any.strictEqNum code 503)%bool then
    (serviceUnavailableMessage, false)
  else
    (apiErrorMessage
       (if Any.truthy message then Any.toString message
        else "Code " ++ Any.toString code),
     false).

(** The [catch] clause of [handleGenerateVideo]: the pair
    (errorMessage, showKeyPrompt) it ends with. *)
Definition videoErrorOf (err : thrown) : string * bool :=
  match err with
  | ErrorObj message =>
      match JSON_parse w message with
      | Some errorObj =>
          match Any.getProp errorObj "error" with
          | Some apiError =>
              if Any.truthy apiError then
                match apiError with
                | Some e =>
                    match Any.getProp e "code", Any.getProp e "message" with
                    | Some code, Some msg => switchOnCode code msg
                    | _, _ => (fallbackVideoMessage message, false)
                    end
                | None => (fallbackVideoMessage message, false)
                end
              else (fallbackVideoMessage message, false)
          | None => (fallbackVideoMessage message, false)
          end
      | None => (fallbackVideoMessage message, false)
      end
  | NonError _ => (unknownVideoError, false)
  end.

(** How the [try] block of [handleGenerateVideo] ends. *)
Inductive TryExit : Type :=
| Returned            (* the [return] taken when no key picker exists *)
| Generated (url : string)
| Threw (err : thrown).

(** The [try] block, for the subject name the callback captured. *)
Definition tryGenerate (fuel : nat) (subject : string)
  : option (TryExit * list Event) :=
  let generate (evs : list Event) :=
    match GeminiService.generateAnimalVideo w fuel subject with
    | Some (Ok url, evs') => Some (Generated url, (evs ++ evs')%list)
    | Some (Err e, evs') => Some (Threw e, (evs ++ evs')%list)
    | None => None
    end in
  match hasSelectedApiKey w with
  | None => generate []
  | Some (Err e) => Some (Threw e, [EvHasSelectedApiKey])
  | Some (Ok true) => generate [EvHasSelectedApiKey]
  | Some (Ok false) =>
      match openSelectKey w with
      | Some (Ok _) => generate [EvHasSelectedApiKey; EvOpenSelectKey]
      | Some (Err e) => Some (Threw e, [EvHasSelectedApiKey; EvOpenSelectKey])
      | None => Some (Returned, [EvHasSelectedApiKey])
      end
  end.

(** [handleGenerateVideo] between its guard and its [try]. *)
Definition handleGenerateVideo_begin (st : AppState) : AppState :=
  st |> setIsVideoLoading true
     |> setVideoError None
     |> setVideoUrl None
     |> setShowVideoApiKeyPrompt false.

(** The writes of the [try], [catch] and [finally] blocks for each exit. *)
Definition handleGenerateVideo_finish (exit : TryExit) (st : AppState) : AppState :=
  (match exit with
   | Returned =>
       st |> setVideoError (Some pickerUnavailableMessage)
          |> setShowVideoApiKeyPrompt false
          |> setIsVideoLoading false
   | Generated url => st |> setVideoUrl (Some url)
   | Threw err =>
       let (errorMessage, showKeyPrompt) := videoErrorOf err in
       st |> setVideoError (Some errorMessage)
          |> setShowVideoApiKeyPrompt showKeyPrompt
   end)
  |> setIsVideoLoading false.

(** [handleGenerateVideo()], run without another handler in between.
    [snap] is the render whose [primaryAnimal] and [isVideoLoading] the
    callback captured.  The result is the state it leaves and the calls
    it made; [None] is a poll loop that has not ended within [fuel]
    iterations. *)
Definition handleGenerateVideo (snap : AppState) (fuel : nat) (st : AppState)
  : option (AppState * list Event) :=
  match primaryAnimal snap with
  | None => Some (st, [])
  | Some subject =>
      if isVideoLoading snap then Some (st, []) (* Prevent multiple clicks *)
      else
        match tryGenerate fuel (name subject) with
        | Some (exit, evs) =>
            Some (handleGenerateVideo_finish exit (handleGenerateVideo_begin st), evs)
        | None => None
        end
  end.

(** [generate()]: the callback of the current render. *)
Definition generate (fuel : nat) (st : AppState) : option (AppState * list Event) :=
  handleGenerateVideo st fuel st.

(** *** The remaining state changes *)

Definition reset (st : AppState) : AppState :=
  st |> setPrimaryAnimal None
     |> setComparisonAnimal None
     |> setMode explore
     |> setError None
     |> setVideoUrl None
     |> setIsVideoLoading false
     |> setVideoError None
     |> setShowVideoApiKeyPrompt false
     |> setIsVoiceListening false
     |> setVoiceSearchText ""
     |> setVoiceSearchError None
     |> setComparisonSummaryData None
     |> setIsComparisonSummaryLoading false
     |> setComparisonSummaryError None.

Definition toggleMode (snap : AppState) (st : AppState) : AppState :=
  let newMode := match mode snap with explore => compare | compare => explore end in
  let st1 := st |> setMode newMode in
  let st2 := match newMode with
             | explore => st1 |> setComparisonAnimal None
             | compare => st1
             end in
  st2 |> setVideoUrl None
      |> setIsVideoLoading false
      |> setVideoError None
      |> setShowVideoApiKeyPrompt false
      |> setComparisonSummaryData None
      |> setIsComparisonSummaryLoading false
      |> setComparisonSummaryError None.

End Handlers.

End App.

(** ** A reader for JSON texts

    An executable [JSON_parse] for the sample worlds below.  It reads
    the JSON grammar restricted to integer number literals and to the
    two-character escapes in strings; the properties of the handlers
    are stated for every [World], whatever its [JSON_parse]. *)

Module JsonText.

Definition quote : ascii := ascii_of_nat 34.
Definition backslash : ascii := ascii_of_nat 92.

(** The text of a JSON string literal without escapes. *)
Definition quoted (s : string) : string :=
  String quote (s ++ String quote EmptyString).

Definition isJsonSpace (c : ascii) : bool :=
  let n := nat_of_ascii c in
  (Nat.eqb n 32 || Nat.eqb n 9 || Nat.eqb n 10 || Nat.eqb n 13)%bool.

Fixpoint skipSpace (s : string) : string :=
  match s with
  | String c rest => if isJsonSpace c then skipSpace rest else s
  | EmptyString => EmptyString
  end.

Definition isDigit (c : ascii) : bool :=
  let n := nat_of_ascii c in (Nat.leb 48 n && Nat.leb n 57)%bool.

Definition digitValue (c : ascii) : Z := Z.of_nat (nat_of_ascii c - 48).

(** The digits at the head of [s], as a number, with what follows. *)
Fixpoint readDigits (s : string) (acc : Z) : Z * string :=
  match s with
  | String c rest =>
      if isDigit c then readDigits rest (10 * acc + digitValue c) else (acc, s)
  | EmptyString => (acc, s)
  end.

(** An integer literal: no leading zero, no fraction, no exponent. *)
Definition readNumber (s : string) : option (Z * string) :=
  let (negative, body) :=
    match s with
    | String "-" rest => (true, rest)
    | _ => (false, s)
    end in
  match body with
  | String c rest =>
      if isDigit c then
        let (n, after) := readDigits body 0 in
        let leadingZero := (Ascii.eqb c "0" &&
                            match rest with
                            | String d _ => isDigit d
                            | EmptyString => false
                            end)%bool in
        let continues :=
          match after with
          | String d _ => (Ascii.eqb d "." || Ascii.eqb d "e" || Ascii.eqb d "E")%bool
          | EmptyString => false
          end in
        if (leadingZero || continues)%bool then None
        else Some (if negative then - n else n, after)
      else None
  | EmptyString => None
  end.

Definition unescape (c : ascii) : option ascii :=
  if Ascii.eqb c quote then Some quote
  else if Ascii.eqb c backslash then Some backslash
  else if Ascii.eqb c "/" then Some "/"%char
  else if Ascii.eqb c "b" then Some (ascii_of_nat 8)
  else if Ascii.eqb c "f" then Some (ascii_of_nat 12)
  else if Ascii.eqb c "n" then Some (ascii_of_nat 10)
  else if Ascii.eqb c "r" then Some (ascii_of_nat 13)
  else if Ascii.eqb c "t" then Some (ascii_of_nat 9)
  else None.

(** The characters of a string literal after its opening quote. *)
Fixpoint readString (s : string) : option (string * string) :=
  match s with
  | EmptyString => None
  | String c rest =>
      if Ascii.eqb c quote then Some (EmptyString, rest)
      else if Ascii.eqb c backslash then
        match rest with
        | String e rest' =>
            match unescape e, readString rest' with
            | Some x, Some (body, after) => Some (String x body, after)
            | _, _ => None
            end
        | EmptyString => None
        end
      else if Nat.ltb (nat_of_ascii c) 32 then None
      else
        match readString rest with
        | Some (body, after) => Some (String c body, after)
        | None => None
        end
  end.

Definition readLiteral (word : string) (v : json) (s : string)
  : option (json * string) :=
  if JS.startsWith s word
  then Some (v, substring (String.length word)
                          (String.length s - String.length word) s)
  else None.

Fixpoint readValue (fuel : nat) (s : string) : option (json * string) :=
  match fuel with
  | O => None
  | S fuel' =>
      match skipSpace s with
      | EmptyString => None
      | String c rest as text =>
          if Ascii.eqb c quote then
            match readString rest with
            | Some (body, after) => Some (JStr body, after)
            | None => None
            end
          else if Ascii.eqb c "[" then
            match skipSpace rest with
            | String "]" after => Some (JArr [], after)
            | inner =>
                match readElements fuel' inner with
                | Some (items, after) => Some (JArr items, after)
                | None => None
                end
            end
          else if Ascii.eqb c "{" then
            match skipSpace rest with
            | String "}" after => Some (JObj [], after)
            | inner =>
                match readMembers fuel' inner with
                | Some (fields, after) => Some (JObj fields, after)
                | None => None
                end
            end
          else if Ascii.eqb c "n" then readLiteral "null" JNull text
          else if Ascii.eqb c "t" then readLiteral "true" (JBool true) text
          else if Ascii.eqb c "f" then readLiteral "false" (JBool false) text
          else
            match readNumber text with
            | Some (n, after) => Some (JNum n, after)
            | None => None
            end
      end
  end

with readElements (fuel : nat) (s : string) : option (list json * string) :=
  match fuel with
  | O => None
  | S fuel' =>
      match readValue fuel' s with
      | Some (v, after) =>
          match skipSpace after with
          | String "]" rest => Some ([v], rest)
          | String "," rest =>
              match readElements fuel' rest with
              | Some (vs, rest') => Some (v :: vs, rest')
              | None => None
              end
          | _ => None
          end
      | None => None
      end
  end

with readMembers (fuel : nat) (s : string)
  : option (list (string * json) * string) :=
  match fuel with
  | O => None
  | S fuel' =>
      match skipSpace s with
      | String c rest =>
          if Ascii.eqb c quote then
            match readString rest with
            | Some (key, after) =>
                match skipSpace after with
                | String ":" after' =>
                    match readValue fuel' after' with
                    | Some (v, after'') =>
                        match skipSpace after'' with
                        | String "}" rest' => Some ([(key, v)], rest')
                        | String "," rest' =>
                            match readMembers fuel' rest' with
                            | Some (kvs, rest'') => Some ((key, v) :: kvs, rest'')
                            | None => None
                            end
                        | _ => None
                        end
                    | None => None
                    end
                | _ => None
                end
            | None => None
            end
          else None
      | EmptyString => None
      end
  end.

(** A whole text: one value, then only white space. *)
Definition parse (s : string) : option json :=
  match readValue (2 * String.length s + 2) s with
  | Some (v, after) =>
      match skipSpace after with
      | EmptyString => Some v
      | _ => None
      end
  | None => None
  end.

End JsonText.

(** ** Sample subjects and worlds *)

Module Samples.

Definition someStats : AnimalStats :=
  {| speed := 80; strength := 90; intelligence := 70; stealth := 60;
     defense := 65; endurance := 55; adaptability := 50; lifespan := 40;
     reach := 99 |}.

Definition draft (nm cls ph cl : string) (dist : list string) : AnimalData :=
  {| name := nm; scientificName := nm; classification := cls; phylum := ph;
     class := cl; conservationStatus := "Least Concern"; summary := "";
     habitat := ""; diet := ""; funFacts := []; stats := someStats;
     colors := {| primary := "#c2a060"; secondary := "#5a3b1c" |};
     imageUrl := None; videoUrl := None; distribution := dist |}.

(** The reply for [lookup("Lion")]; the provider claims a reach of 99. *)
Definition lion : AnimalData :=
  draft "Lion" "Mammal" "Chordata" "Mammalia" ["Africa (~20000)"; "India (~650)"].

Definition tiger : AnimalData :=
  draft "Tiger" "Mammal" "Chordata" "Mammalia" ["India (~3,000)"].

(** A subject the provider knows no range for. *)
Definition dodo : AnimalData :=
  draft "Dodo" "Bird" "Chordata" "Aves" [].

Definition honeybee : AnimalData :=
  draft "Honeybee" "Insect" "Arthropoda" "Insecta" ["Europe"; "Asia"; "Africa"].

(** A draft whose only excluded term is the Latin name in its
    [classification]. *)
Definition crab : AnimalData :=
  draft "Crab" "Crustacea" "Ecdysozoa" "Malacostraca" ["Atlantic"; "Pacific"].

(** A draft as the lookup accepts it, without an image. *)
Definition accepted (a : AnimalData) : AnimalData :=
  withImageUrl None (setReach (Z.of_nat (length (distribution a))) a).

(** The sample provider answers a lookup with a text that is the
    subject's name, and reads that text back as the draft. *)
Definition sampleDrafts (text : string) : result AnimalData :=
  if String.eqb text "Lion" then Ok lion
  else if String.eqb text "Tiger" then Ok tiger
  else if String.eqb text "Dodo" then Ok dodo
  else if String.eqb text "Honeybee" then Ok honeybee
  else if String.eqb text "Crab" then Ok crab
  else Err (ErrorObj "Unexpected token in JSON at position 0").

Definition sampleSummary : AiComparisonSummaryResponse :=
  JObj [ ("comparisonSummary", JStr "The lion is social, the tiger solitary.");
         ("winner", JStr "Depends on context") ].

(** The text of [sampleSummary]. *)
Definition sampleSummaryText : string :=
  "{" ++ JsonText.quoted "comparisonSummary" ++ ":"
  ++ JsonText.quoted "The lion is social, the tiger solitary." ++ ","
  ++ JsonText.quoted "winner" ++ ":" ++ JsonText.quoted "Depends on context" ++ "}".

(** A job that is done at the third poll; the second poll is a null
    reply. *)
Definition samplePolls (k : nat) : result (option Operation) :=
  match k with
  | 0%nat => Ok (Some {| done := false; uri := None |})
  | 1%nat => Ok None
  | _ => Ok (Some {| done := true; uri := Some "https://videos.example/1?alt=media" |})
  end.

Definition world : World :=
  {| API_KEY := Some "key";
     JSON_parse := JsonText.parse;
     generateProfile := fun animalName => Ok (Some animalName);
     parseAnimalData := sampleDrafts;
     generateImage := fun _ => Ok [];
     generateVideos := fun _ => Ok {| done := false; uri := None |};
     getVideosOperation := samplePolls;
     fetch := fun _ => Ok {| ok := true; statusText := "OK"; objectURL := "blob:1" |};
     hasSelectedApiKey := Some (Ok true);
     openSelectKey := Some (Ok tt);
     generateSummary := fun _ _ => Ok (Some sampleSummaryText) |}.

(** The sample world with a video provider that rejects the submission
    with an [Error] of the given message. *)
Definition worldRejectingVideo (message : string) : World :=
  {| API_KEY := API_KEY world;
     JSON_parse := JSON_parse world;
     generateProfile := generateProfile world;
     parseAnimalData := parseAnimalData world;
     generateImage := generateImage world;
     generateVideos := fun _ => Err (ErrorObj message);
     getVideosOperation := getVideosOperation world;
     fetch := fetch world;
     hasSelectedApiKey := hasSelectedApiKey world;
     openSelectKey := openSelectKey world;
     generateSummary := generateSummary world |}.

(** The sample world with a comparison provider of the given reply. *)
Definition worldSummarizing (reply : string) : World :=
  {| API_KEY := API_KEY world;
     JSON_parse := JSON_parse world;
     generateProfile := generateProfile world;
     parseAnimalData := parseAnimalData world;
     generateImage := generateImage world;
     generateVideos := generateVideos world;
     getVideosOperation := getVideosOperation world;
     fetch := fetch world;
     hasSelectedApiKey := hasSelectedApiKey world;
     openSelectKey := openSelectKey world;
     generateSummary := fun _ _ => Ok (Some reply) |}.

(** A reply that does not parse. *)
Definition worldGarblingSummary : World := worldSummarizing "{ not json".

(** A reply that parses to an object of another shape: [{"foo":1}]. *)
Definition worldMisshapingSummary : World :=
  worldSummarizing ("{" ++ JsonText.quoted "foo" ++ ":1}").

(** The failure text [{"error":{"code":c,"message":"m"}}]. *)
Definition apiFailure (c m : string) : string :=
  "{" ++ JsonText.quoted "error" ++ ":{" ++ JsonText.quoted "code" ++ ":" ++ c
  ++ "," ++ JsonText.quoted "message" ++ ":" ++ JsonText.quoted m ++ "}}".

(** The failure text [{"error":{"code":418}}]: a code outside the table
    and no message. *)
Definition bareFailure : string :=
  "{" ++ JsonText.quoted "error" ++ ":{" ++ JsonText.quoted "code" ++ ":418}}".

(** Compare mode with both slots filled and a summary stored. *)
Definition comparing : App.AppState :=
  App.initialState
    |> App.setMode App.compare
    |> App.setPrimaryAnimal (Some (accepted lion))
    |> App.setComparisonAnimal (Some (accepted tiger))
    |> App.setComparisonSummaryData (Some sampleSummary).

(** Explore mode with a subject and a video job under way. *)
Definition generating : App.AppState :=
  App.initialState
    |> App.setPrimaryAnimal (Some (accepted lion))
    |> App.setIsVideoLoading true.

(** A capture session that has heard a name. *)
Definition heard : App.AppState :=
  App.initialState
    |> App.setIsVoiceListening true
    |> App.setVoiceSearchText "  Snow Leopard "
    |> App.syncLatestVoiceSearchText.

End Samples.

(** ** The vocabulary of the specification *)

Module Spec.

Import GeminiService.

(** [field] contains [term] as a substring, letter case aside. *)
Definition containsCI (field term : string) : Prop :=
  exists pre mid post,
    field = pre ++ mid ++ post /\ JS.toLowerCase mid = JS.toLowerCase term.

(** The fixed exclusion list, Latin and colloquial forms together. *)
Definition exclusionList : list string :=
  (invertebrateLatinTerms ++ invertebrateCommonKeywords)%list.

Definition taxonFields (d : AnimalData) : list string :=
  [phylum d; class d; classification d].

(** The provider answers the lookup of [animalName] with the draft [d]. *)
Definition answers (w : World) (animalName : string) (d : AnimalData) : Prop :=
  exists text,
    generateProfile w animalName = Ok (Some text) /\
    JS.truthyString text = true /\
    parseAnimalData w text = Ok d.

(** A lookup outcome that the search classifier reads as a subject
    outside the supported scope. *)
Definition domainRejected (r : result AnimalData) : Prop :=
  exists m, r = Err (ErrorObj m) /\ JS.includes m focusPhrase = true.

(** The exclusion rule with every listed term matched against all three
    fields. *)
Definition every_listed_term_rejects : Prop :=
  forall w animalName d term field,
    answers w animalName d ->
    In term exclusionList ->
    In field (taxonFields d) ->
    containsCI field term ->
    domainRejected (fetchAnimalData w animalName).

(** A failure text that parses to [{error: apiError}] where [apiError]
    has the numeric [code] and the [message] property [message]. *)
Definition structuredFailure (w : World) (raw : string) (code : Z)
    (message : jsval) : Prop :=
  exists errorObj apiError,
    JSON_parse w raw = Some errorObj /\
    Any.getProp errorObj "error" = Some (Some apiError) /\
    Any.getProp apiError "code" = Some (Some (JNum code)) /\
    Any.getProp apiError "message" = Some message.

Definition codeTable : list Z := [404; 400; 403; 429; 500; 503].

(** [out] embeds the raw message: the text of the failure, or the
    message the payload carries. *)
Definition embedsRawMessage (out raw : string) (message : jsval) : Prop :=
  JS.includes out raw = true \/
  exists m, message = Some m /\ JS.includes out (Any.toStr m) = true.

(** The video error table with a raw message embedded for every code
    outside it. *)
Definition other_codes_embed_raw_message : Prop :=
  forall w raw code message,
    structuredFailure w raw code message ->
    let out := App.videoErrorOf w (ErrorObj raw) in
    (code = 404 -> out = (App.billingRequiredMessage, true)) /\
    (code = 400 -> out = (App.badRequestMessage (Any.toString message), false)) /\
    (code = 403 -> out = (App.permissionDeniedMessage (Any.toString message), false)) /\
    (code = 429 -> out = (App.quotaExceededMessage, false)) /\
    (code = 500 \/ code = 503 -> out = (App.serviceUnavailableMessage, false)) /\
    (~ In code codeTable ->
     snd out = false /\ embedsRawMessage (fst out) raw message).

(** A failed summary request that leaves no summary value behind. *)
Definition failed_summary_clears_value : Prop :=
  forall w snap st p c e,
    App.summaryEnabled snap = Some (p, c) ->
    generateComparisonSummary w p c = Err e ->
    let st' := App.fetchComparisonSummary w snap st in
    App.comparisonSummaryError st' = Some App.summaryFailedMessage /\
    App.isComparisonSummaryLoading st' = false /\
    App.comparisonSummaryData st' = None.

(** [generate()] leaving the loading flag down on each of its exits. *)
Definition loading_cleared_on_every_exit : Prop :=
  forall w fuel st st' evs,
    App.generate w fuel st = Some (st', evs) ->
    App.isVideoLoading st' = false.

(** The [k]-th poll ends the poll loop: it fails, or it reports a job
    that is done. *)
Definition pollSettles (w : World) (k : nat) : Prop :=
  match getVideosOperation w k with
  | Err _ => True
  | Ok (Some operation) => done operation = true
  | Ok None => False
  end.

End Spec.

(** ** The App component, continued: the remaining handlers *)

Module Voice.

Import App.

(** [recognitionRef.current]: the recognizer, whose [onend] calls the
    [handleSearch] of the render [builtIn] in which [toggleVoiceSearch]
    created it. *)
Record Recognition : Type := {
  builtIn : AppState
}.

(** Calls made on the recognizer. *)
Inductive RecognitionCall : Type :=
| CallStart
| CallStop.

Definition unsupportedMessage : string :=
  "Voice search is not supported in your browser.".

Definition couldNotStartMessage : string :=
  "Could not start voice search. Please ensure no other app is using the microphone.".

(** [toggleVoiceSearch()].  [supported] is the feature test on [window],
    [startThrows] tells whether [start()] throws; [snap] is the render
    whose [isVoiceListening] and [handleSearch] the callback captured. *)
Definition toggleVoiceSearch (supported startThrows : bool)
    (snap : AppState) (ref : option Recognition) (st : AppState)
  : AppState * option Recognition * list RecognitionCall :=
  if negb supported
  then (st |> setVoiceSearchError (Some unsupportedMessage), ref, [])
  else
    let ref' := match ref with
                | None => Some {| builtIn := snap |}
                | Some r => Some r
                end in
    if isVoiceListening snap
    then (st, ref', [CallStop])
    else
      let st1 := st |> setVoiceSearchText ""       (* Clear previous text before starting *)
                    |> setVoiceSearchError None in  (* Clear previous errors *)
      if startThrows
      then (st1 |> setVoiceSearchError (Some couldNotStartMessage)
                |> setIsVoiceListening false,
            ref', [CallStart])
      else (st1, ref', [CallStart]).

(** A capture session's end together with the lookups of the searches it
    started, each settling with no other handler in between. *)
Definition voiceEndSearch (w : World) (r : Recognition) (st : AppState) : AppState :=
  let (st1, calls) := onend st in
  fold_left
    (fun s term =>
       handleSearch_resume (builtIn r) (GeminiService.fetchAnimalData w term) s)
    calls st1.

End Voice.

(** ** The search bar (components/SearchBar) *)

Module SearchBar.

(** [handleSubmit]: the [onSearch] calls made, and [term] afterwards. *)
Definition handleSubmit (term : string) : list string * string :=
  if JS.truthyString (JS.trim term) then ([term], "") else ([], term).

End SearchBar.

(** ** Sessions: the handlers as steps *)

Module Session.

Import App.

(** The names on the suggestion buttons. *)
Definition suggestedAnimals : list string :=
  ["Snow Leopard"; "Blue Whale"; "Komodo Dragon"; "Honey Badger"].

Definition removeComparison (st : AppState) : AppState :=
  st |> setComparisonAnimal None
     |> setComparisonSummaryData None
     |> setComparisonSummaryError None.

Definition hideVideo (st : AppState) : AppState :=
  st |> setVideoUrl None.

(** [setShowChatbot(prev => !prev)] *)
Definition toggleChatbot (st : AppState) : AppState :=
  st |> setShowChatbot (negb (showChatbot st)).

(** What can happen to the component: a user gesture, an effect, or an
    event of the recognizer.  Each runs to its end before the next, with
    the callbacks of the current render; the search a capture session
    starts is the one exception, it runs the callback its recognizer
    holds.  A gesture is allowed in every state, also where the render
    does not offer its control, so the sessions below include those a
    user can drive. *)
Inductive Action : Type :=
| Submit (term : string)
| Suggest (i : nat)
| ToggleMode
| Reset
| RemoveComparison
| HideVideo
| ToggleChatbot
| GenerateVideo (fuel : nat)
| SummaryEffect
| ToggleVoice (supported startThrows : bool)
| VoiceStart
| VoiceResult (resultIndex : nat) (results : list SpeechResult)
| VoiceSync
| VoiceEnd (r : Voice.Recognition)
| VoiceError (code : string).

Definition runSearches (w : World) (calls : list string) (st : AppState) : AppState :=
  fold_left (fun s term => search w term s) calls st.

(** One step; [None] when the action cannot take place or its poll loop
    has not ended within the fuel. *)
Definition step (w : World) (a : Action) (st : AppState) : option AppState :=
  match a with
  | Submit term => Some (runSearches w (fst (SearchBar.handleSubmit term)) st)
  | Suggest i =>
      match nth_error suggestedAnimals i with
      | Some animal => Some (search w animal st)
      | None => None
      end
  | ToggleMode => Some (toggleMode st st)
  | Reset => Some (reset st)
  | RemoveComparison => Some (removeComparison st)
  | HideVideo => Some (hideVideo st)
  | ToggleChatbot => Some (toggleChatbot st)
  | GenerateVideo fuel =>
      match generate w fuel st with
      | Some (st', _) => Some st'
      | None => None
      end
  | SummaryEffect => Some (fetchComparisonSummary w st st)
  | ToggleVoice supported startThrows =>
      Some (fst (fst (Voice.toggleVoiceSearch supported startThrows st None st)))
  | VoiceStart => Some (onstart st)
  | VoiceResult resultIndex results => Some (onresult resultIndex results st)
  | VoiceSync => Some (syncLatestVoiceSearchText st)
  | VoiceEnd r => Some (Voice.voiceEndSearch w r st)
  | VoiceError code => Some (onerror code st)
  end.

(** The states a session can be in. *)
Inductive Reachable (w : World) : AppState -> Prop :=
| ReachInitial : Reachable w initialState
| ReachStep (a : Action) (st st' : AppState) :
    Reachable w st -> step w a st = Some st' -> Reachable w st'.

(** The recognizer of a [VoiceEnd] holds the callback of a render with
    the present [mode] and [primaryAnimal]. *)
Definition current (a : Action) (st : AppState) : Prop :=
  match a with
  | VoiceEnd r =>
      mode (Voice.builtIn r) = mode st /\
      primaryAnimal (Voice.builtIn r) = primaryAnimal st
  | _ => True
  end.

(** The sessions in which every capture session ends on a recognizer
    that is [current]. *)
Inductive ReachableCurrent (w : World) : AppState -> Prop :=
| CurrentInitial : ReachableCurrent w initialState
| CurrentStep (a : Action) (st st' : AppState) :
    ReachableCurrent w st -> current a st -> step w a st = Some st' ->
    ReachableCurrent w st'.

(** A stored subject has its [reach] computed from its [distribution]. *)
Definition reachComputed (a : AnimalData) : Prop :=
  reach (stats a) = Z.of_nat (length (distribution a)).

Definition slotsWellFormed (st : AppState) : Prop :=
  (forall a, primaryAnimal st = Some a -> reachComputed a) /\
  (forall a, comparisonAnimal st = Some a -> reachComputed a).

(** In explore mode the comparison slot is empty, and a comparison
    subject has a primary subject beside it. *)
Definition slotsConsistent (st : AppState) : Prop :=
  (mode st = explore -> comparisonAnimal st = None) /\
  (comparisonAnimal st <> None -> primaryAnimal st <> None).

End Session.

(** ** The chat panel (components/Chatbot) *)

Module Chatbot.

Inductive Role : Type := user | model.

Definition Role_eqb (a b : Role) : bool :=
  match a, b with
  | user, user | model, model => true
  | _, _ => false
  end.

(** [ChatMessage] of types.ts *)
Record ChatMessage : Type := {
  id : string;
  role : Role;
  text : string
}.

(** The cells [messages], [inputMessage] and [isSending]. *)
Record ChatState : Type := {
  messages : list ChatMessage;
  inputMessage : string;
  isSending : bool
}.

Definition streamingId : string := "streaming-response".

Definition sendFailedText : string :=
  "Sorry, I encountered an error. Please try again.".

(** [Date.now().toString()] for a clock reading. *)
Definition stamp (now : Z) : string := JS.numberToString now.

(** What [for await (const chunk of streamResponse)] yields: the [text]
    of each chunk, and the error when the iteration throws after them. *)
Record Stream : Type := {
  chunks : list (option string);
  failure : option thrown
}.

(** [prev[prev.length - 1]] *)
Definition lastMessage (prev : list ChatMessage) : option ChatMessage :=
  List.last (map Some prev) None.

(** The updater run for a chunk, [fullResponseText] being [full]. *)
Definition showStreaming (full : string) (prev : list ChatMessage)
  : list ChatMessage :=
  let streaming :=
    match lastMessage prev with
    | Some m => (Role_eqb (role m) model && String.eqb (id m) streamingId)%bool
    | None => false
    end in
  if streaming
  then map (fun msg =>
              if String.eqb (id msg) streamingId
              then {| id := id msg; role := role msg; text := full |}
              else msg) prev
  else (prev ++ [{| id := streamingId; role := model; text := full |}])%list.

(** The loop over the chunks: [fullResponseText] and the messages. *)
Fixpoint consume (cs : list (option string)) (full : string)
    (msgs : list ChatMessage) : string * list ChatMessage :=
  match cs with
  | [] => (full, msgs)
  | c :: rest =>
      if JS.truthyOpt c
      then
        let full' := full ++ match c with Some t => t | None => "" end in
        consume rest full' (showStreaming full' msgs)
      else consume rest full msgs
  end.

(** The updater run after the stream. *)
Definition finalize (now : Z) (prev : list ChatMessage) : list ChatMessage :=
  map (fun msg =>
         if String.eqb (id msg) streamingId
         then {| id := stamp now; role := role msg; text := text msg |}
         else msg) prev.

(** [handleSendMessage], run with no other handler in between.  [snap]
    is the render whose [inputMessage] and [isSending] the callback
    captured; [sentAt], [doneAt] and [failedAt] are the clock readings of
    the three [Date.now()] calls; [reply] is the outcome of
    [sendMessageToChat(userMessage.text)].  The second component lists
    the texts sent to the chat provider. *)
Definition handleSendMessage (snap : ChatState) (sentAt doneAt failedAt : Z)
    (reply : result Stream) (st : ChatState) : ChatState * list string :=
  if (negb (JS.truthyString (JS.trim (inputMessage snap))) || isSending snap)%bool
  then (st, [])
  else
    let userMessage :=
      {| id := stamp sentAt; role := user; text := JS.trim (inputMessage snap) |} in
    let afterUser := (messages st ++ [userMessage])%list in
    let apology :=
      {| id := stamp failedAt; role := model; text := sendFailedText |} in
    let final :=
      match reply with
      | Err _ => (afterUser ++ [apology])%list
      | Ok stream =>
          let (_, streamed) := consume (chunks stream) "" afterUser in
          match failure stream with
          | None => finalize doneAt streamed
          | Some _ => (streamed ++ [apology])%list
          end
      end in
    ({| messages := final; inputMessage := ""; isSending := false |},
     [text userMessage]).

(** [send]: the callback of the current render. *)
Definition send (sentAt doneAt failedAt : Z) (reply : result Stream)
    (st : ChatState) : ChatState * list string :=
  handleSendMessage st sentAt doneAt failedAt reply st.

(** The texts of the truthy chunks, joined in order. *)
Fixpoint streamedText (cs : list (option string)) : string :=
  match cs with
  | [] => ""
  | c :: rest =>
      (if JS.truthyOpt c then match c with Some t => t | None => "" end else "")
      ++ streamedText rest
  end.

End Chatbot.

(** ** The detail card (components/DetailCard) *)

Module DetailCard.

(** The pattern of [formatDistributionItem] is, between the anchors for
    the start and the end of the item: a first group of any characters,
    one white space character, an opening parenthesis, a second group of
    any characters, a closing parenthesis.  "Any character" excludes the
    line terminators. *)

(** Line terminators, which the dot does not match. *)
Definition isLineTerminator (c : ascii) : bool :=
  let n := nat_of_ascii c in (Nat.eqb n 10 || Nat.eqb n 13)%bool.

(** The second group and the closing parenthesis, up to the end of
    [s]: the group. *)
Fixpoint closingGroup (s : string) : option string :=
  match s with
  | EmptyString => None
  | String c EmptyString => if Ascii.eqb c ")" then Some EmptyString else None
  | String c rest =>
      if isLineTerminator c then None
      else match closingGroup rest with
           | Some g => Some (String c g)
           | None => None
           end
  end.

(** The pattern from its white space character on, at the head of
    [s]: the second group. *)
Definition tailGroup (s : string) : option string :=
  match s with
  | String c (String "(" body) =>
      if JS.isWhiteSpace c then closingGroup body else None
  | _ => None
  end.

(** [item.match(pattern)]: the two groups.  The first group is greedy:
    a longer one is preferred to a shorter one. *)
Fixpoint matchItem (s : string) : option (string * string) :=
  let here :=
    match tailGroup s with
    | Some g2 => Some (EmptyString, g2)
    | None => None
    end in
  match s with
  | EmptyString => here
  | String c rest =>
      if isLineTerminator c then here
      else match matchItem rest with
           | Some (g1, g2) => Some (String c g1, g2)
           | None => here
           end
  end.

(** What [formatDistributionItem] renders: the two spans, or the item. *)
Inductive Formatted : Type :=
| Spans (region count : string)
| Plain (item : string).

Definition formatDistributionItem (item : string) : Formatted :=
  match matchItem item with
  | Some (region, count) => Spans region count
  | None => Plain item
  end.

Fixpoint noLineTerminator (s : string) : bool :=
  match s with
  | EmptyString => true
  | String c rest => (negb (isLineTerminator c) && noLineTerminator rest)%bool
  end.

Fixpoint hasChar (x : ascii) (s : string) : bool :=
  match s with
  | EmptyString => false
  | String c rest => (Ascii.eqb c x || hasChar x rest)%bool
  end.

End DetailCard.

(** ** The radar chart (components/RadarStats) *)

Module RadarStats.

(** One entry of [data]. *)
Record Row : Type := {
  subject : string;
  A : Z;
  B : Z;
  fullMark : Z;
  detailsA : option (list string);
  detailsB : option (list string)
}.

(** [animal2?.stats.x || 0] *)
Definition orZero (animal2 : option AnimalData) (x : AnimalStats -> Z) : Z :=
  match animal2 with
  | Some a => if Z.eqb (x (stats a)) 0 then 0 else x (stats a)
  | None => 0
  end.

Definition row (label : string) (x : AnimalStats -> Z)
    (animal1 : AnimalData) (animal2 : option AnimalData) : Row :=
  {| subject := label; A := x (stats animal1); B := orZero animal2 x;
     fullMark := 100; detailsA := None; detailsB := None |}.

Definition data (animal1 : AnimalData) (animal2 : option AnimalData) : list Row :=
  [ row "Speed" speed animal1 animal2;
    row "Strength" strength animal1 animal2;
    row "Intel" intelligence animal1 animal2;
    row "Stealth" stealth animal1 animal2;
    row "Defense" defense animal1 animal2;
    row "Endurance" endurance animal1 animal2;
    row "Adapt" adaptability animal1 animal2;
    row "Life" lifespan animal1 animal2;
    {| subject := "Reach";
       A := reach (stats animal1);
       B := orZero animal2 reach;
       fullMark := 10;
       detailsA := Some (distribution animal1);
       detailsB := match animal2 with
                   | Some a => Some (distribution a)
                   | None => None
                   end |} ].

End RadarStats.

(** ** More sample worlds *)

Module MoreSamples.

(** The sample world with an image provider of the given outcome. *)
Definition worldWithImage (image : result (list Part)) : World :=
  {| API_KEY := API_KEY Samples.world;
     JSON_parse := JSON_parse Samples.world;
     generateProfile := generateProfile Samples.world;
     parseAnimalData := parseAnimalData Samples.world;
     generateImage := fun _ => image;
     generateVideos := generateVideos Samples.world;
     getVideosOperation := getVideosOperation Samples.world;
     fetch := fetch Samples.world;
     hasSelectedApiKey := hasSelectedApiKey Samples.world;
     openSelectKey := openSelectKey Samples.world;
     generateSummary := generateSummary Samples.world |}.

(** Two parts, the second of which carries an image. *)
Definition imageParts : list Part :=
  [ {| inlineData := None |};
    {| inlineData := Some {| data := Some "iVBOR"; mimeType := Some "image/png" |} |} ].

(** The sample world with an entity-data provider of the given outcome. *)
Definition worldWithProfile (profile : result (option string)) : World :=
  {| API_KEY := API_KEY Samples.world;
     JSON_parse := JSON_parse Samples.world;
     generateProfile := fun _ => profile;
     parseAnimalData := parseAnimalData Samples.world;
     generateImage := generateImage Samples.world;
     generateVideos := generateVideos Samples.world;
     getVideosOperation := getVideosOperation Samples.world;
     fetch := fetch Samples.world;
     hasSelectedApiKey := hasSelectedApiKey Samples.world;
     openSelectKey := openSelectKey Samples.world;
     generateSummary := generateSummary Samples.world |}.

(** The sample world with the given host capabilities. *)
Definition worldWithHost (hasKey : option (result bool))
    (picker : option (result unit)) : World :=
  {| API_KEY := API_KEY Samples.world;
     JSON_parse := JSON_parse Samples.world;
     generateProfile := generateProfile Samples.world;
     parseAnimalData := parseAnimalData Samples.world;
     generateImage := generateImage Samples.world;
     generateVideos := generateVideos Samples.world;
     getVideosOperation := getVideosOperation Samples.world;
     fetch := fetch Samples.world;
     hasSelectedApiKey := hasKey;
     openSelectKey := picker;
     generateSummary := generateSummary Samples.world |}.

(** Explore mode with the lion looked up and nothing else going on. *)
Definition exploring : App.AppState :=
  App.initialState |> App.setPrimaryAnimal (Some (Samples.accepted Samples.lion)).

(** Compare mode with the lion and no challenger yet. *)
Definition awaitingChallenger : App.AppState :=
  exploring |> App.setMode App.compare.

(** The same, at the end of a capture session that heard "Tiger". *)
Definition heardChallenger : App.AppState :=
  awaitingChallenger |> App.setLatestVoiceSearchText "Tiger".

(** The recognizer built by the first render. *)
Definition firstRecognizer : Voice.Recognition :=
  {| Voice.builtIn := App.initialState |}.

End MoreSamples.

(** ** More vocabulary *)

Module SpecMore.

(** The polls numbered [k], [k+1], ..., [n] of them. *)
Definition polls (k n : nat) : list Event :=
  map EvGetVideosOperation (seq k n).

(** [x] is held in one of the two slots of [st]. *)
Definition stored (st : App.AppState) (x : AnimalData) : Prop :=
  App.primaryAnimal st = Some x \/ App.comparisonAnimal st = Some x.

(** The texts of a list, one after the other. *)
Fixpoint joinTexts (texts : list string) : string :=
  match texts with
  | [] => ""
  | t :: rest => t ++ joinTexts rest
  end.

(** The transcripts of the final, or of the interim, results. *)
Definition transcriptsOf (final : bool) (results : list App.SpeechResult) : string :=
  joinTexts (map App.transcript
                 (filter (fun r => Bool.eqb (App.isFinal r) final) results)).

(** [st'] with its four video cells taken from [st]. *)
Definition withVideoCellsOf (st st' : App.AppState) : App.AppState :=
  st' |> App.setVideoUrl (App.videoUrl st)
      |> App.setIsVideoLoading (App.isVideoLoading st)
      |> App.setVideoError (App.videoError st)
      |> App.setShowVideoApiKeyPrompt (App.showVideoApiKeyPrompt st).

(** [st'] with its three summary cells taken from [st]. *)
Definition withSummaryCellsOf (st st' : App.AppState) : App.AppState :=
  st' |> App.setComparisonSummaryData (App.comparisonSummaryData st)
      |> App.setIsComparisonSummaryLoading (App.isComparisonSummaryLoading st)
      |> App.setComparisonSummaryError (App.comparisonSummaryError st).

(** [st'] with the cells a search writes taken from [st]: the two
    slots, the loading flag, the fetch error, the video url, error and
    prompt, and the voice error. *)
Definition withSearchCellsOf (st st' : App.AppState) : App.AppState :=
  st' |> App.setPrimaryAnimal (App.primaryAnimal st)
      |> App.setComparisonAnimal (App.comparisonAnimal st)
      |> App.setIsLoading (App.isLoading st)
      |> App.setError (App.error st)
      |> App.setVideoUrl (App.videoUrl st)
      |> App.setVideoError (App.videoError st)
      |> App.setShowVideoApiKeyPrompt (App.showVideoApiKeyPrompt st)
      |> App.setVoiceSearchError (App.voiceSearchError st).

End SpecMore.

(** * Properties *)

(** ** Facts about the string primitives *)

Module StringFacts.

Import JS.

Lemma toLowerCase_app (a b : string) :
  toLowerCase (a ++ b) = toLowerCase a ++ toLowerCase b.
Proof.
  induction a as [|c a IH]; simpl; [reflexivity | now rewrite IH].
Qed.

Lemma toLowerCase_split (f a b : string) :
  toLowerCase f = a ++ b ->
  exists fa fb, f = fa ++ fb /\ toLowerCase fa = a /\ toLowerCase fb = b.
Proof.
  revert f; induction a as [|c a IH]; intros f H.
  - exists EmptyString, f; auto.
  - destruct f as [|x f]; simpl in H; [discriminate|].
    injection H as Hc Hrest.
    destruct (IH _ Hrest) as (fa & fb & -> & Ha & Hb).
    exists (String x fa), fb; simpl; rewrite Ha, Hc; auto.
Qed.

Lemma startsWith_app (t s : string) : startsWith (t ++ s) t = true.
Proof.
  induction t as [|c t IH]; simpl.
  - now destruct s.
  - now rewrite Ascii.eqb_refl, IH.
Qed.

Lemma startsWith_inv (s t : string) :
  startsWith s t = true -> exists post, s = t ++ post.
Proof.
  revert s; induction t as [|c t IH]; intros s H.
  - exists s; reflexivity.
  - destruct s as [|x s]; simpl in H; [discriminate|].
    apply andb_true_iff in H as [Hx Hs].
    apply Ascii.eqb_eq in Hx; subst x.
    destruct (IH _ Hs) as [post ->].
    exists post; reflexivity.
Qed.

Lemma includes_startsWith (s t : string) :
  startsWith s t = true -> includes s t = true.
Proof.
  intros H; destruct s; unfold includes; fold includes; rewrite H; reflexivity.
Qed.

Lemma includes_prefixed (t s : string) : includes (t ++ s) t = true.
Proof.
  apply includes_startsWith, startsWith_app.
Qed.

Lemma includes_app (pre t post : string) :
  includes (pre ++ t ++ post) t = true.
Proof.
  induction pre as [|c pre IH].
  - change (includes (t ++ post) t = true); apply includes_prefixed.
  - change (includes (String c (pre ++ t ++ post)) t = true).
    unfold includes; fold includes.
    rewrite IH; apply orb_true_r.
Qed.

Lemma includes_inv (s t : string) :
  includes s t = true -> exists pre post, s = pre ++ t ++ post.
Proof.
  induction s as [|c s IH]; unfold includes; fold includes; intros H.
  - rewrite orb_false_r in H.
    apply startsWith_inv in H as [post H].
    exists EmptyString, post; exact H.
  - apply orb_true_iff in H as [H | H].
    + apply startsWith_inv in H as [post H].
      exists EmptyString, post; exact H.
    + destruct (IH H) as (pre & post & ->).
      exists (String c pre), post; reflexivity.
Qed.

(** The test the filter runs is containment up to letter case, for a
    term that is already in lower case. *)
Lemma includes_lower_iff (field term : string) :
  toLowerCase term = term ->
  includes (toLowerCase field) term = true <-> Spec.containsCI field term.
Proof.
  intros Hterm; split.
  - intros H.
    apply includes_inv in H as (pre & post & H).
    apply toLowerCase_split in H as (fa & rest & -> & _ & H).
    apply toLowerCase_split in H as (mid & fb & -> & Hmid & _).
    exists fa, mid, fb; split; [reflexivity | now rewrite Hterm].
  - intros (pre & mid & post & -> & Hmid).
    rewrite !toLowerCase_app, Hmid, Hterm.
    apply includes_app.
Qed.

End StringFacts.

(** ** The lookup: [fetchAnimalData] *)

Module LookupProps.

Import GeminiService StringFacts.

Lemma listed_terms_lower (t : string) :
  In t Spec.exclusionList -> JS.toLowerCase t = t.
Proof.
  unfold Spec.exclusionList, invertebrateLatinTerms, invertebrateCommonKeywords.
  simpl; intros H.
  repeat (destruct H as [<- | H]; [reflexivity|]).
  contradiction.
Qed.

(** What the lookup does with a draft the provider has answered. *)
Lemma fetchAnimalData_answered (w : World) (animalName : string) (d : AnimalData) :
  Spec.answers w animalName d ->
  let animalProfile := setReach (Z.of_nat (length (distribution d))) d in
  fetchAnimalData w animalName =
    if (isLatinExcluded animalProfile || isKeywordExcluded animalProfile)%bool
    then Err (ErrorObj (rejectionMessage animalName))
    else Ok (withImageUrl
               match generateImage w animalName with
               | Ok parts => firstInlineImage parts
               | Err _ => None
               end animalProfile).
Proof.
  intros (text & Hgen & Htruthy & Hparse); simpl.
  unfold fetchAnimalData.
  rewrite Hgen; simpl; rewrite Htruthy; simpl.
  rewrite Hparse; reflexivity.
Qed.

(** Every accepted subject comes from an answered draft. *)
Lemma fetchAnimalData_accepted (w : World) (animalName : string) (subject : AnimalData) :
  fetchAnimalData w animalName = Ok subject ->
  exists d img,
    Spec.answers w animalName d /\
    subject = withImageUrl img (setReach (Z.of_nat (length (distribution d))) d).
Proof.
  unfold fetchAnimalData; intros H.
  destruct (generateProfile w animalName) as [text|] eqn:Hgen; [|discriminate].
  destruct text as [text|]; simpl in H; [|discriminate].
  destruct (JS.truthyString text) eqn:Htruthy; simpl in H; [|discriminate].
  destruct (parseAnimalData w text) as [d|] eqn:Hparse; [|discriminate].
  destruct (_ || _)%bool; [discriminate|].
  injection H as <-.
  eexists d, _; split; [exists text; auto | reflexivity].
Qed.

Lemma rejection_is_domainRejected (animalName : string) :
  Spec.domainRejected (Err (ErrorObj (rejectionMessage animalName))).
Proof.
  eexists; split; [reflexivity|].
  unfold rejectionMessage; apply includes_prefixed.
Qed.

Lemma latin_match_excludes (d : AnimalData) (term field : string) :
  In term invertebrateLatinTerms ->
  In field [phylum d; class d] ->
  Spec.containsCI field term ->
  isLatinExcluded d = true.
Proof.
  intros Hterm Hfield Hci.
  assert (Hlow : JS.toLowerCase term = term).
  { apply listed_terms_lower, in_or_app; left; exact Hterm. }
  apply (includes_lower_iff field Hlow) in Hci.
  unfold isLatinExcluded, JS.some.
  apply existsb_exists; exists term; split; [exact Hterm|].
  destruct Hfield as [<- | [<- | []]]; rewrite Hci;
    auto using orb_true_r.
Qed.

Lemma keyword_match_excludes (d : AnimalData) (term field : string) :
  In term invertebrateCommonKeywords ->
  In field (Spec.taxonFields d) ->
  Spec.containsCI field term ->
  isKeywordExcluded d = true.
Proof.
  intros Hterm Hfield Hci.
  assert (Hlow : JS.toLowerCase term = term).
  { apply listed_terms_lower, in_or_app; right; exact Hterm. }
  apply (includes_lower_iff field Hlow) in Hci.
  unfold isKeywordExcluded, JS.some.
  apply existsb_exists; exists term; split; [exact Hterm|].
  destruct Hfield as [<- | [<- | [<- | []]]]; rewrite Hci;
    rewrite ?orb_true_r; reflexivity.
Qed.

(** C3. Every subject a successful lookup returns has
    [stats.reach] equal to the length of its [distribution] list,
    whatever that length; the list is the one of the provider's draft,
    and the draft's own [reach] plays no part. *)
Theorem accepted_reach_is_distribution_length
    (w : World) (animalName : string) (subject : AnimalData) :
  fetchAnimalData w animalName = Ok subject ->
  reach (stats subject) = Z.of_nat (length (distribution subject)) /\
  exists d, Spec.answers w animalName d /\ distribution subject = distribution d.
Proof.
  intros H.
  apply fetchAnimalData_accepted in H as (d & img & Hans & ->).
  split; [reflexivity|].
  exists d; split; [exact Hans | reflexivity].
Qed.

Lemma accepted_reach_is_distribution_length_witness :
  fetchAnimalData Samples.world "Lion" = Ok (Samples.accepted Samples.lion) /\
  reach (stats (Samples.accepted Samples.lion)) = 2 /\
  reach (stats Samples.lion) = 99 /\
  reach (stats (Samples.accepted Samples.dodo)) = 0.
Proof.
  split; [reflexivity|].
  split; [|split; [reflexivity|]].
  - exact (proj1 (accepted_reach_is_distribution_length
                    Samples.world "Lion" (subject := Samples.accepted Samples.lion)
                    eq_refl)).
  - exact (proj1 (accepted_reach_is_distribution_length
                    Samples.world "Dodo" (subject := Samples.accepted Samples.dodo)
                    eq_refl)).
Defined.

(** C4, as the code has it. A lookup whose draft holds, letter case
    aside, a Latin term of the exclusion list in its [phylum] or [class],
    or a colloquial keyword of the list in its [phylum], [class] or
    [classification], ends in the domain rejection and returns no
    subject, whatever the other fields are. *)
Theorem excluded_terms_reject
    (w : World) (animalName : string) (d : AnimalData) (term field : string) :
  Spec.answers w animalName d ->
  (In term invertebrateLatinTerms /\ In field [phylum d; class d]) \/
  (In term invertebrateCommonKeywords /\ In field (Spec.taxonFields d)) ->
  Spec.containsCI field term ->
  fetchAnimalData w animalName = Err (ErrorObj (rejectionMessage animalName)) /\
  Spec.domainRejected (fetchAnimalData w animalName).
Proof.
  intros Hans Hlisted Hci.
  assert (Hfetch : fetchAnimalData w animalName
                   = Err (ErrorObj (rejectionMessage animalName))).
  { rewrite (fetchAnimalData_answered Hans).
    set (p := setReach _ d).
    destruct Hlisted as [[Hterm Hfield] | [Hterm Hfield]].
    - rewrite (@latin_match_excludes p term field Hterm Hfield Hci); reflexivity.
    - rewrite (@keyword_match_excludes p term field Hterm Hfield Hci).
      rewrite orb_true_r; reflexivity. }
  split; [exact Hfetch|].
  rewrite Hfetch; apply rejection_is_domainRejected.
Qed.

Lemma excluded_terms_reject_witness :
  fetchAnimalData Samples.world "Honeybee"
    = Err (ErrorObj (rejectionMessage "Honeybee")) /\
  Spec.domainRejected (fetchAnimalData Samples.world "Honeybee").
Proof.
  apply (@excluded_terms_reject Samples.world "Honeybee" Samples.honeybee
           "insecta" "Insecta").
  - exists "Honeybee"; repeat split; reflexivity.
  - left; split; simpl; auto.
  - exists "", "Insecta", ""; split; reflexivity.
Defined.

(** C4, counterexample. The draft for "Crab" has the Latin term
    "Crustacea" as its [classification] and no listed term in [phylum] or
    [class]: the lookup accepts it. *)
Lemma latin_term_in_classification_is_accepted :
  ~ Spec.every_listed_term_rejects.
Proof.
  intros H.
  assert (Hrej : Spec.domainRejected (fetchAnimalData Samples.world "Crab")).
  { apply (H Samples.world "Crab" Samples.crab "crustacea" "Crustacea").
    - exists "Crab"; repeat split; reflexivity.
    - unfold Spec.exclusionList; simpl; auto.
    - simpl; auto.
    - exists "", "Crustacea", ""; split; reflexivity. }
  destruct Hrej as (m & Heq & _).
  vm_compute in Heq; discriminate.
Qed.

End LookupProps.

(** ** The search coordinator: [handleSearch] *)

Module SearchProps.

Import GeminiService StringFacts App.

(** The slots and the error after the continuation of a search. *)
Lemma handleSearch_resume_ok (snap st : AppState) (data : AnimalData) :
  let st' := handleSearch_resume snap (Ok data) st in
  error st' = error st /\
  primaryAnimal st' =
    match mode snap, primaryAnimal snap with
    | explore, _ | compare, None => Some data
    | compare, Some _ => primaryAnimal st
    end /\
  comparisonAnimal st' =
    match mode snap, primaryAnimal snap with
    | explore, _ => None
    | compare, None => comparisonAnimal st
    | compare, Some _ => Some data
    end.
Proof.
  unfold handleSearch_resume.
  destruct (mode snap); [|destruct (primaryAnimal snap)]; simpl; auto.
Qed.

Lemma handleSearch_resume_err (snap st : AppState) (err : thrown) :
  let st' := handleSearch_resume snap (Err err) st in
  error st' = Some (searchErrorMessage err) /\
  primaryAnimal st' = primaryAnimal st /\
  comparisonAnimal st' = comparisonAnimal st.
Proof. simpl; auto. Qed.

Lemma handleSearch_begin_frame (st : AppState) :
  let st' := handleSearch_begin st in
  error st' = None /\
  isLoading st' = true /\
  primaryAnimal st' = primaryAnimal st /\
  comparisonAnimal st' = comparisonAnimal st /\
  mode st' = mode st.
Proof. simpl; auto 6. Qed.

(** The placement of a successful search, by the [mode] and
    [primaryAnimal] its callback holds, which for a search issued from
    the current render ([snap] = [st], that is [search]) are those of the
    state: in explore mode the result becomes the primary subject and the
    comparison slot is cleared; in compare mode with no primary it
    becomes the primary; in compare mode with a primary it becomes the
    comparison.  The other slot is left as it was. *)
Lemma search_placement
    (w : World) (snap st : AppState) (term : string) (data : AnimalData) :
  fetchAnimalData w term = Ok data ->
  let st' := handleSearch w snap term st in
  (mode snap = explore ->
   primaryAnimal st' = Some data /\ comparisonAnimal st' = None) /\
  (mode snap = compare -> primaryAnimal snap = None ->
   primaryAnimal st' = Some data /\ comparisonAnimal st' = comparisonAnimal st) /\
  (mode snap = compare -> primaryAnimal snap <> None ->
   comparisonAnimal st' = Some data /\ primaryAnimal st' = primaryAnimal st).
Proof.
  intros Hfetch; unfold handleSearch; rewrite Hfetch.
  unfold handleSearch_resume.
  destruct (mode snap); [|destruct (primaryAnimal snap)]; simpl;
    repeat split; intros; congruence.
Qed.

Lemma search_placement_witness :
  let challenger := search Samples.world "Dodo" Samples.comparing in
  comparisonAnimal challenger = Some (Samples.accepted Samples.dodo) /\
  primaryAnimal challenger = Some (Samples.accepted Samples.lion).
Proof.
  exact (proj2 (proj2 (@search_placement Samples.world Samples.comparing
                         Samples.comparing "Dodo"
                         (Samples.accepted Samples.dodo) eq_refl))
               eq_refl ltac:(discriminate)).
Defined.

(** C1, at the failing input. Two capture sessions from the first render
    on.  The first toggle builds the recognizer; the session hears "Lion"
    and its search fills the primary slot.  The mode is then toggled to
    compare and the microphone toggled again, which keeps the recognizer.
    The second session hears "Tiger", whose lookup succeeds, while the
    mode is compare and the primary slot holds the lion: the placement
    policy asks for the tiger in the comparison slot.  The search that
    [onend] starts runs the [handleSearch] of the first render, with mode
    explore: the tiger replaces the lion as primary and the comparison
    slot is empty.  The same search from the search bar of that state
    puts the tiger in the comparison slot. *)
Theorem voice_search_in_compare_mode_replaces_primary :
  let w := Samples.world in
  let hears text st :=
    syncLatestVoiceSearchText
      (onresult 0 [{| transcript := text; isFinal := true |}] (onstart st)) in
  let built := Voice.toggleVoiceSearch true false initialState None initialState in
  let recognizer := {| Voice.builtIn := initialState |} in
  let s1 := Voice.voiceEndSearch w recognizer (hears "Lion" (fst (fst built))) in
  let s2 := toggleMode s1 s1 in
  let again := Voice.toggleVoiceSearch true false s2 (snd (fst built)) s2 in
  let s3 := hears "Tiger" (fst (fst again)) in
  let viaVoice := Voice.voiceEndSearch w recognizer s3 in
  let viaSearchBar := search w "Tiger" s3 in
  snd (fst built) = Some recognizer /\
  snd (fst again) = Some recognizer /\
  snd (onend s3) = ["Tiger"] /\
  fetchAnimalData w "Tiger" = Ok (Samples.accepted Samples.tiger) /\
  mode s3 = compare /\
  primaryAnimal s3 = Some (Samples.accepted Samples.lion) /\
  comparisonAnimal s3 = None /\
  mode viaVoice = compare /\
  primaryAnimal viaVoice = Some (Samples.accepted Samples.tiger) /\
  comparisonAnimal viaVoice = None /\
  primaryAnimal viaSearchBar = Some (Samples.accepted Samples.lion) /\
  comparisonAnimal viaSearchBar = Some (Samples.accepted Samples.tiger).
Proof.
  cbv zeta.
  repeat (split; [vm_compute; reflexivity|]).
  vm_compute; reflexivity.
Qed.

Lemma searchErrorMessage_domainRejected (m : string) :
  JS.includes m focusPhrase = true ->
  searchErrorMessage (ErrorObj m) = m.
Proof.
  intros H; unfold searchErrorMessage; simpl; rewrite H; reflexivity.
Qed.

(** C2. A search whose lookup fails leaves the primary and comparison
    slots as they were before the call and stores the classified error
    as the fetch error: for a failure whose message carries the phrase of
    the domain rejection, that message itself; otherwise, for a message
    with the transport signature, the network message; for every other
    failure, with or without a message, the generic not-found message.
    The rejection of an excluded subject is of the first kind. *)
Theorem failed_search_keeps_slots
    (w : World) (snap st : AppState) (term : string) (err : thrown) :
  fetchAnimalData w term = Err err ->
  let st' := handleSearch w snap term st in
  primaryAnimal st' = primaryAnimal st /\
  comparisonAnimal st' = comparisonAnimal st /\
  (forall m, messageOf err = Some m ->
             JS.includes m focusPhrase = true ->
             error st' = Some m) /\
  (forall m, messageOf err = Some m ->
             JS.includes m focusPhrase = false ->
             JS.includes m networkPhrase = true ->
             error st' = Some networkMessage) /\
  ((forall m, messageOf err = Some m ->
              JS.includes m focusPhrase = false /\
              JS.includes m networkPhrase = false) ->
   error st' = Some notFoundMessage) /\
  (Spec.domainRejected (Err err) -> error st' = messageOf err) /\
  (err = ErrorObj (rejectionMessage term) ->
   error st' = Some (rejectionMessage term)).
Proof.
  intros Hfetch; unfold handleSearch; rewrite Hfetch.
  destruct (handleSearch_resume_err snap (handleSearch_begin st) err)
    as (Herr & Hp & Hc).
  destruct (handleSearch_begin_frame st) as (_ & _ & Hp0 & Hc0 & _).
  cbv zeta in *.
  rewrite Herr, Hp, Hc, Hp0, Hc0.
  split; [reflexivity|]; split; [reflexivity|].
  unfold searchErrorMessage.
  split; [|split; [|split; [|split]]].
  - intros m -> Hfocus; rewrite Hfocus; reflexivity.
  - intros m -> Hfocus Hnet; rewrite Hfocus, Hnet; reflexivity.
  - intros Hneither; destruct (messageOf err) as [m|]; [|reflexivity].
    destruct (Hneither m eq_refl) as [-> ->]; reflexivity.
  - intros (m & Heq & Hinc); injection Heq as ->.
    cbn [messageOf]; rewrite Hinc; reflexivity.
  - intros ->; cbn [messageOf].
    assert (Hfocus : JS.includes (rejectionMessage term) focusPhrase = true)
      by (unfold rejectionMessage; apply includes_prefixed).
    rewrite Hfocus; reflexivity.
Qed.

Lemma failed_search_keeps_slots_witness :
  let rejected := search Samples.world "Honeybee" Samples.comparing in
  let offline :=
    search (MoreSamples.worldWithProfile
              (Err (ErrorObj "Rpc failed due to xhr error. status: 0")))
           "Lion" Samples.comparing in
  let garbled := search Samples.world "Zebra" Samples.comparing in
  (error rejected = Some (rejectionMessage "Honeybee") /\
   primaryAnimal rejected = primaryAnimal Samples.comparing /\
   comparisonAnimal rejected = comparisonAnimal Samples.comparing) /\
  (error offline = Some networkMessage /\
   primaryAnimal offline = primaryAnimal Samples.comparing /\
   comparisonAnimal offline = comparisonAnimal Samples.comparing) /\
  (error garbled = Some notFoundMessage /\
   primaryAnimal garbled = primaryAnimal Samples.comparing /\
   comparisonAnimal garbled = comparisonAnimal Samples.comparing).
Proof.
  cbv zeta; split; [|split].
  - destruct (@failed_search_keeps_slots Samples.world Samples.comparing
                Samples.comparing "Honeybee"
                (ErrorObj (rejectionMessage "Honeybee")) eq_refl)
      as (Hp & Hc & _ & _ & _ & _ & He).
    exact (conj (He eq_refl) (conj Hp Hc)).
  - destruct (@failed_search_keeps_slots
                (MoreSamples.worldWithProfile
                   (Err (ErrorObj "Rpc failed due to xhr error. status: 0")))
                Samples.comparing Samples.comparing "Lion"
                (ErrorObj "Rpc failed due to xhr error. status: 0") eq_refl)
      as (Hp & Hc & _ & He & _).
    exact (conj (He _ eq_refl eq_refl eq_refl) (conj Hp Hc)).
  - destruct (@failed_search_keeps_slots Samples.world Samples.comparing
                Samples.comparing "Zebra"
                (ErrorObj "Unexpected token in JSON at position 0") eq_refl)
      as (Hp & Hc & _ & _ & He & _).
    refine (conj (He _) (conj Hp Hc)).
    intros m [= <-]; split; reflexivity.
Defined.

(** C10. Every search clears the stored fetch error in its synchronous
    prefix, which ends where the lookup is awaited; after a successful
    search the fetch error is therefore null, whatever it was before. *)
Theorem search_clears_fetchError
    (w : World) (snap st : AppState) (term : string) :
  error (handleSearch_begin st) = None /\
  handleSearch w snap term st
    = handleSearch_resume snap (fetchAnimalData w term) (handleSearch_begin st) /\
  (forall data, fetchAnimalData w term = Ok data ->
                error (handleSearch w snap term st) = None).
Proof.
  destruct (handleSearch_begin_frame st) as (Hcleared & _).
  split; [exact Hcleared|]; split; [reflexivity|].
  intros data Hfetch; unfold handleSearch; rewrite Hfetch.
  destruct (handleSearch_resume_ok snap (handleSearch_begin st) data) as (Hkept & _).
  cbv zeta in Hkept; rewrite Hkept; exact Hcleared.
Qed.

Lemma search_clears_fetchError_witness :
  let failed := search Samples.world "Honeybee" initialState in
  error failed = Some (rejectionMessage "Honeybee") /\
  error (search Samples.world "Lion" failed) = None.
Proof.
  split; [reflexivity|].
  exact (proj2 (proj2 (search_clears_fetchError Samples.world
                         (search Samples.world "Honeybee" initialState)
                         (search Samples.world "Honeybee" initialState) "Lion"))
               (Samples.accepted Samples.lion) eq_refl).
Defined.

End SearchProps.

(** ** The media generation job controller: [handleGenerateVideo] *)

Module VideoProps.

Import GeminiService App.

(** C5. [generate()] invoked while the loading flag is up is a no-op:
    the whole state is returned as it was and no call reaches a provider
    or a host capability, so no second submission is made. *)
Theorem generate_while_loading_is_noop (w : World) (fuel : nat) (st : AppState) :
  isVideoLoading st = true ->
  generate w fuel st = Some (st, []).
Proof.
  intros Hloading; unfold generate, handleGenerateVideo.
  destruct (primaryAnimal st); [rewrite Hloading|]; reflexivity.
Qed.

Lemma generate_while_loading_is_noop_witness :
  isVideoLoading Samples.generating = true /\
  generate Samples.world 10 Samples.generating = Some (Samples.generating, []).
Proof.
  split; [reflexivity|].
  apply (generate_while_loading_is_noop Samples.world 10 Samples.generating).
  reflexivity.
Defined.

(** *** The error table *)

(** Closes [~ In code Spec.codeTable] for a literal [code]. *)
Ltac outside_table :=
  unfold Spec.codeTable; simpl;
  let Hin := fresh "Hin" in
  intros Hin; repeat (destruct Hin as [Hin | Hin]; [discriminate|]); exact Hin.

Lemma structured_apiError_is_object (apiError : json) (v : json) :
  Any.getProp apiError "code" = Some (Some v) ->
  Any.truthy (Some apiError) = true.
Proof.
  destruct apiError; simpl; intros H; try discriminate; reflexivity.
Qed.

Lemma videoErrorOf_structured (w : World) (raw : string) (code : Z) (message : jsval) :
  Spec.structuredFailure w raw code message ->
  videoErrorOf w (ErrorObj raw) = switchOnCode (Some (JNum code)) message.
Proof.
  intros (errorObj & apiError & Hparse & Herror & Hcode & Hmessage).
  unfold videoErrorOf.
  rewrite Hparse, Herror, (structured_apiError_is_object _ Hcode).
  rewrite Hcode, Hmessage; reflexivity.
Qed.

Lemma switchOnCode_other (code : Z) (message : jsval) :
  ~ In code Spec.codeTable ->
  switchOnCode (Some (JNum code)) message =
    (apiErrorMessage (if Any.truthy message then Any.toString message
                      else "Code " ++ JS.numberToString code),
     false).
Proof.
  intros Hout; unfold switchOnCode, Any.strictEqNum.
  assert (Hne : forall n, In n Spec.codeTable -> Z.eqb code n = false).
  { intros n Hn; apply Z.eqb_neq; intros ->; exact (Hout Hn). }
  unfold Spec.codeTable in Hne.
  rewrite !Hne by (simpl; auto 7).
  reflexivity.
Qed.

(** The state the [catch] and [finally] blocks leave. *)
Lemma handleGenerateVideo_finish_threw (w : World) (err : thrown) (st : AppState) :
  let st' := handleGenerateVideo_finish w (Threw err) st in
  videoError st' = Some (fst (videoErrorOf w err)) /\
  showVideoApiKeyPrompt st' = snd (videoErrorOf w err) /\
  isVideoLoading st' = false.
Proof.
  unfold handleGenerateVideo_finish.
  destruct (videoErrorOf w err) as [errorMessage showKeyPrompt]; simpl; auto.
Qed.

(** C6, as the code has it. For a generation failure whose text parses
    to a payload with a numeric code: 404 gives the billing-required
    error and raises the credential prompt; 400, 403, 429, 500 and 503
    give the bad-request, permission-denied, quota and
    service-unavailable errors without the prompt; any other code gives
    the provider error that embeds the payload's own message when that
    is truthy and the text "Code <code>" otherwise, without the prompt.
    A failure text that does not parse gives the generic message with
    the raw text appended.  The pair is what the handler stores as
    [videoError] and [showVideoApiKeyPrompt]. *)
Theorem video_error_table (w : World) (raw : string) :
  (forall code message,
      Spec.structuredFailure w raw code message ->
      let out := videoErrorOf w (ErrorObj raw) in
      (code = 404 -> out = (billingRequiredMessage, true)) /\
      (code = 400 -> out = (badRequestMessage (Any.toString message), false)) /\
      (code = 403 -> out = (permissionDeniedMessage (Any.toString message), false)) /\
      (code = 429 -> out = (quotaExceededMessage, false)) /\
      (code = 500 \/ code = 503 -> out = (serviceUnavailableMessage, false)) /\
      (~ In code Spec.codeTable ->
       out = (apiErrorMessage
                (if Any.truthy message then Any.toString message
                 else "Code " ++ JS.numberToString code),
              false))) /\
  (JSON_parse w raw = None ->
   videoErrorOf w (ErrorObj raw) = (fallbackVideoMessage raw, false)) /\
  (forall st,
      let st' := handleGenerateVideo_finish w (Threw (ErrorObj raw)) st in
      videoError st' = Some (fst (videoErrorOf w (ErrorObj raw))) /\
      showVideoApiKeyPrompt st' = snd (videoErrorOf w (ErrorObj raw))).
Proof.
  split; [|split].
  - intros code message Hs out; subst out.
    rewrite (videoErrorOf_structured Hs).
    repeat split.
    + intros ->; reflexivity.
    + intros ->; reflexivity.
    + intros ->; reflexivity.
    + intros ->; reflexivity.
    + intros [-> | ->]; reflexivity.
    + apply switchOnCode_other.
  - intros Hparse; unfold videoErrorOf; rewrite Hparse; reflexivity.
  - intros st.
    destruct (handleGenerateVideo_finish_threw w (ErrorObj raw) st) as (H1 & H2 & _).
    split; assumption.
Qed.

Lemma video_error_table_witness :
  videoErrorOf Samples.world (ErrorObj (Samples.apiFailure "404" "x"))
    = (billingRequiredMessage, true) /\
  videoErrorOf Samples.world (ErrorObj (Samples.apiFailure "429" "x"))
    = (quotaExceededMessage, false) /\
  videoErrorOf Samples.world (ErrorObj (Samples.apiFailure "418" "teapot"))
    = (apiErrorMessage "teapot", false) /\
  videoErrorOf Samples.world (ErrorObj "quota exceeded")
    = (fallbackVideoMessage "quota exceeded", false).
Proof.
  assert (Hs : forall c n m,
             JsonText.parse (Samples.apiFailure c m)
             = Some (JObj [("error", JObj [("code", JNum n); ("message", JStr m)])]) ->
             Spec.structuredFailure Samples.world (Samples.apiFailure c m) n
                                    (Some (JStr m))).
  { intros c n m Hparse; eexists _, _; split; [exact Hparse|].
    repeat split; reflexivity. }
  split; [|split; [|split]].
  - exact (proj1 (proj1 (video_error_table Samples.world _) 404 _
                    (Hs "404" 404 "x" eq_refl)) eq_refl).
  - destruct (proj1 (video_error_table Samples.world _) 429 _
                (Hs "429" 429 "x" eq_refl)) as (_ & _ & _ & H & _).
    exact (H eq_refl).
  - destruct (proj1 (video_error_table Samples.world _) 418 _
                (Hs "418" 418 "teapot" eq_refl)) as (_ & _ & _ & _ & _ & H).
    apply H; outside_table.
  - exact (proj1 (proj2 (video_error_table Samples.world "quota exceeded")) eq_refl).
Defined.

(** C6, counterexample. The failure text [{"error":{"code":418}}] has a
    numeric code outside the table and no message: the error produced is
    "Video generation failed with API error: Code 418.", which embeds
    neither the failure text nor a payload message. *)
Lemma bare_code_embeds_no_message :
  ~ Spec.other_codes_embed_raw_message.
Proof.
  intros H.
  assert (Hs : Spec.structuredFailure Samples.world Samples.bareFailure 418 None).
  { exists (JObj [("error", JObj [("code", JNum 418)])]), (JObj [("code", JNum 418)]).
    repeat split; reflexivity. }
  destruct (H _ _ _ _ Hs) as (_ & _ & _ & _ & _ & Hother).
  destruct Hother as [_ [Hraw | (m & Hm & _)]].
  - outside_table.
  - vm_compute in Hraw; discriminate.
  - discriminate.
Qed.

(** *** The exits of [generate()] *)

Lemma pollLoop_done (w : World) (fuel k : nat) (operation : Operation) :
  done operation = true ->
  pollLoop w fuel k operation = Some (Ok operation, []).
Proof.
  intros Hdone; destruct fuel; simpl; rewrite Hdone; reflexivity.
Qed.

(** The poll loop ends once a poll settles it. *)
Lemma pollLoop_settles (w : World) (k : nat) :
  Spec.pollSettles w k ->
  forall fuel j operation,
    (j <= k)%nat -> (k - j < fuel)%nat ->
    exists r, pollLoop w fuel j operation = Some r.
Proof.
  intros Hsettles fuel.
  induction fuel as [|fuel IH]; intros j operation Hle Hfuel; [lia|].
  simpl.
  destruct (done operation); [eexists; reflexivity|].
  destruct (getVideosOperation w j) as [reply|e] eqn:Hpoll;
    [|eexists; reflexivity].
  destruct (Nat.eq_dec j k) as [-> | Hne].
  - unfold Spec.pollSettles in Hsettles; rewrite Hpoll in Hsettles.
    destruct reply as [next|]; [|contradiction].
    rewrite (pollLoop_done w fuel (S k) next Hsettles).
    eexists; reflexivity.
  - destruct (IH (S j) (match reply with
                        | Some operationResponse => operationResponse
                        | None => operation
                        end)) as [[r evs] Hr]; [lia | lia |].
    rewrite Hr; eexists; reflexivity.
Qed.

Lemma generateAnimalVideo_returns (w : World) (k fuel : nat) (animalName : string) :
  Spec.pollSettles w k -> (k < fuel)%nat ->
  exists r, generateAnimalVideo w fuel animalName = Some r.
Proof.
  intros Hsettles Hfuel; unfold generateAnimalVideo.
  destruct (generateVideos w (videoPrompt animalName)) as [operation|e];
    [|eexists; reflexivity].
  destruct (@pollLoop_settles w k Hsettles fuel 0%nat operation)
    as [[[final|e] evs] Hr]; [lia | lia | |]; rewrite Hr.
  - destruct (materialize w final); eexists; reflexivity.
  - eexists; reflexivity.
Qed.

Lemma tryGenerate_returns (w : World) (k fuel : nat) (subject : string) :
  Spec.pollSettles w k -> (k < fuel)%nat ->
  exists r, tryGenerate w fuel subject = Some r.
Proof.
  intros Hsettles Hfuel; unfold tryGenerate.
  destruct (generateAnimalVideo_returns w subject Hsettles Hfuel)
    as [[[url|e] evs] Hr]; rewrite Hr.
  - destruct (hasSelectedApiKey w) as [[[|]|]|];
      [| destruct (openSelectKey w) as [[|]|] | |]; eexists; reflexivity.
  - destruct (hasSelectedApiKey w) as [[[|]|]|];
      [| destruct (openSelectKey w) as [[|]|] | |]; eexists; reflexivity.
Qed.

Lemma handleGenerateVideo_finish_loading (w : World) (exit : TryExit) (st : AppState) :
  isVideoLoading (handleGenerateVideo_finish w exit st) = false.
Proof.
  unfold handleGenerateVideo_finish.
  destruct exit; [| |destruct (videoErrorOf w err)]; reflexivity.
Qed.

(** What a returned [generate()] leaves, by the side of its guard taken. *)
Lemma generate_exit (w : World) (fuel : nat) (st st' : AppState) (evs : list Event) :
  generate w fuel st = Some (st', evs) ->
  (primaryAnimal st <> None /\ isVideoLoading st = false ->
   isVideoLoading st' = false) /\
  (primaryAnimal st = None \/ isVideoLoading st = true ->
   st' = st /\ evs = []).
Proof.
  unfold generate, handleGenerateVideo; intros H.
  destruct (primaryAnimal st) as [subject|] eqn:Hprimary.
  - destruct (isVideoLoading st) eqn:Hloading.
    + injection H as <- <-.
      split; [intros [_ Hf]; discriminate | auto].
    + destruct (tryGenerate w fuel (name subject)) as [[exit evs']|];
        [|discriminate].
      injection H as <- <-.
      split; [intros _; apply handleGenerateVideo_finish_loading|].
      intros [Hn | Hl]; discriminate.
  - injection H as <- <-.
    split; [intros [Hn _]; contradiction | auto].
Qed.

(** C9, as the code has it. When the polls of the job settle,
    [generate()] returns, and past its guard (a primary subject exists
    and no job is loading) the loading flag is down on every exit:
    success, failure, and the exit taken when no key picker exists.  On
    the precondition-fail exit the call writes nothing, so the flag is
    left as it was: still up when a job was already loading. *)
Theorem generate_loading_after_exit
    (w : World) (k fuel : nat) (st : AppState) :
  Spec.pollSettles w k -> (k < fuel)%nat ->
  exists st' evs,
    generate w fuel st = Some (st', evs) /\
    (primaryAnimal st <> None /\ isVideoLoading st = false ->
     isVideoLoading st' = false) /\
    (primaryAnimal st = None \/ isVideoLoading st = true ->
     st' = st /\ evs = []).
Proof.
  intros Hsettles Hfuel.
  assert (Hret : exists r, generate w fuel st = Some r).
  { unfold generate, handleGenerateVideo.
    destruct (primaryAnimal st) as [subject|]; [|eexists; reflexivity].
    destruct (isVideoLoading st); [eexists; reflexivity|].
    destruct (tryGenerate_returns w (name subject) Hsettles Hfuel) as [[exit evs] Hr].
    rewrite Hr; eexists; reflexivity. }
  destruct Hret as [[st' evs] Hr].
  exists st', evs; split; [exact Hr | exact (generate_exit _ _ _ Hr)].
Qed.

Lemma generate_loading_after_exit_witness :
  let ready := setPrimaryAnimal (Some (Samples.accepted Samples.lion)) initialState in
  exists st' evs,
    generate Samples.world 3 ready = Some (st', evs) /\
    isVideoLoading st' = false /\
    videoUrl st' = Some "blob:1".
Proof.
  intros ready.
  destruct (@generate_loading_after_exit Samples.world 2 3 ready)
    as (st' & evs & Hr & Hclear & _); [exact eq_refl | lia |].
  exists st', evs; split; [exact Hr|].
  split; [apply Hclear; split; [discriminate | reflexivity]|].
  vm_compute in Hr; injection Hr as <- _; reflexivity.
Defined.

(** C9, counterexample. With a subject selected and a job already
    loading, [generate()] returns at its guard and the loading flag is
    still up. *)
Lemma loading_stays_up_at_the_guard :
  ~ Spec.loading_cleared_on_every_exit.
Proof.
  intros H.
  specialize (H Samples.world 0%nat Samples.generating Samples.generating []
                eq_refl).
  discriminate H.
Qed.

End VideoProps.

(** ** The comparison summary reactor: [fetchComparisonSummary] *)

Module SummaryProps.

Import GeminiService App.

(** A reply that does not parse is a failed request. *)
Lemma unparseable_summary_fails (w : World) (p c : AnimalData) (text : string) :
  generateSummary w p c = Ok (Some text) ->
  JS.truthyString text = true ->
  JSON_parse w text = None ->
  exists e, generateComparisonSummary w p c = Err e.
Proof.
  intros Hgen Htruthy Hparse; unfold generateComparisonSummary.
  rewrite Hgen; simpl; rewrite Htruthy; simpl; rewrite Hparse.
  eexists; reflexivity.
Qed.

(** C7, as the code has it. When the summary request of an enabled run
    fails, the summary error holds the generic message and loading is
    cleared; the stored summary value is not written: it is what it was
    before the run, null if it was null and kept if one was stored. *)
Theorem failed_summary_keeps_value
    (w : World) (snap st : AppState) (p c : AnimalData) (e : thrown) :
  summaryEnabled snap = Some (p, c) ->
  generateComparisonSummary w p c = Err e ->
  let st' := fetchComparisonSummary w snap st in
  comparisonSummaryError st' = Some summaryFailedMessage /\
  isComparisonSummaryLoading st' = false /\
  comparisonSummaryData st' = comparisonSummaryData st.
Proof.
  intros Henabled Hfail; unfold fetchComparisonSummary, fetchComparisonSummary_begin.
  rewrite Henabled, Hfail; simpl; auto.
Qed.

Lemma failed_summary_keeps_value_witness :
  let st' := fetchComparisonSummary Samples.worldGarblingSummary
               Samples.comparing Samples.comparing in
  comparisonSummaryError st' = Some summaryFailedMessage /\
  isComparisonSummaryLoading st' = false /\
  comparisonSummaryData st' = Some Samples.sampleSummary.
Proof.
  apply (@failed_summary_keeps_value Samples.worldGarblingSummary
           Samples.comparing Samples.comparing
           (Samples.accepted Samples.lion) (Samples.accepted Samples.tiger)
           (ErrorObj "Failed to parse comparison summary from AI. Please try again."));
    reflexivity.
Defined.

(** C7, counterexample. In compare mode with both slots filled and a
    summary stored, a run whose reply does not parse ends with the stored
    summary still in place. *)
Lemma stored_summary_survives_failure :
  ~ Spec.failed_summary_clears_value.
Proof.
  intros H.
  destruct (H Samples.worldGarblingSummary Samples.comparing Samples.comparing
              (Samples.accepted Samples.lion) (Samples.accepted Samples.tiger)
              (ErrorObj "Failed to parse comparison summary from AI. Please try again.")
              eq_refl eq_refl) as (_ & _ & Hdata).
  discriminate Hdata.
Qed.

(** A reply that parses is stored as it is, whatever its shape: the
    failure path is taken only for a reply that does not parse, an empty
    reply, or a rejected request. *)
Lemma misshapen_summary_is_stored :
  let blank := setComparisonSummaryData None Samples.comparing in
  let st' := fetchComparisonSummary Samples.worldMisshapingSummary blank blank in
  comparisonSummaryData st' = Some (JObj [("foo", JNum 1)]) /\
  comparisonSummaryError st' = None /\
  isComparisonSummaryLoading st' = false.
Proof. repeat split. Qed.

End SummaryProps.

(** ** The voice capture adapter: [onend] *)

Module VoiceProps.

Import App.

Lemma truthyString_iff (s : string) : JS.truthyString s = true <-> s <> "".
Proof.
  destruct s; simpl; split; intros H; try reflexivity; try discriminate.
  contradiction.
Qed.

(** The ref holds the transcript once the effect that copies it has
    run. *)
Lemma latest_after_sync (st : AppState) :
  latestVoiceSearchText (syncLatestVoiceSearchText st) = voiceSearchText st.
Proof. reflexivity. Qed.

(** C8. When a capture session ends, the transcript is read from the
    ref [latestVoiceSearchText]: if it is non-empty after trimming,
    exactly one search is started, with the trimmed transcript, and its
    synchronous prefix has run; if it is empty, no search is started.
    Either way the voice transcript is empty and listening is off right
    after. *)
Theorem onend_triggers_one_search (st : AppState) :
  let spoken := JS.trim (latestVoiceSearchText st) in
  voiceSearchText (fst (onend st)) = "" /\
  isVoiceListening (fst (onend st)) = false /\
  (spoken <> "" ->
   snd (onend st) = [spoken] /\
   fst (onend st)
     = setVoiceSearchText "" (handleSearch_begin (setIsVoiceListening false st))) /\
  (spoken = "" ->
   snd (onend st) = [] /\
   fst (onend st) = setVoiceSearchText "" (setIsVoiceListening false st)).
Proof.
  intros spoken; subst spoken; unfold onend.
  change (latestVoiceSearchText (setIsVoiceListening false st))
    with (latestVoiceSearchText st).
  destruct (JS.truthyString (JS.trim (latestVoiceSearchText st))) eqn:Htruthy;
    cbn [fst snd].
  - split; [reflexivity|]; split; [reflexivity|]; split.
    + intros _; split; reflexivity.
    + intros Hempty; rewrite Hempty in Htruthy; discriminate.
  - split; [reflexivity|]; split; [reflexivity|]; split.
    + intros Hne; apply truthyString_iff in Hne; congruence.
    + intros _; split; reflexivity.
Qed.

Lemma onend_triggers_one_search_witness :
  latestVoiceSearchText Samples.heard = "  Snow Leopard " /\
  snd (onend Samples.heard) = ["Snow Leopard"] /\
  voiceSearchText (fst (onend Samples.heard)) = "".
Proof.
  split; [reflexivity|].
  destruct (onend_triggers_one_search Samples.heard) as (Hclear & _ & Hsome & _).
  split; [|exact Hclear].
  apply Hsome; discriminate.
Defined.

End VoiceProps.

(** ** More on the lookup *)

Module LookupMore.

Import GeminiService StringFacts.

(** The verdict of the filter on an answered draft. *)
Lemma fetchAnimalData_verdict (w : World) (animalName : string) (d : AnimalData) :
  Spec.answers w animalName d ->
  let animalProfile := setReach (Z.of_nat (length (distribution d))) d in
  (exists subject, fetchAnimalData w animalName = Ok subject /\
     (isLatinExcluded animalProfile || isKeywordExcluded animalProfile)%bool = false)
  \/
  (fetchAnimalData w animalName = Err (ErrorObj (rejectionMessage animalName)) /\
     (isLatinExcluded animalProfile || isKeywordExcluded animalProfile)%bool = true).
Proof.
  intros Hans; cbv zeta.
  rewrite (LookupProps.fetchAnimalData_answered Hans); cbv zeta.
  destruct (_ || _)%bool; [right | left; eexists]; split; reflexivity.
Qed.

Lemma answers_functional (w : World) (animalName : string) (d d' : AnimalData) :
  Spec.answers w animalName d -> Spec.answers w animalName d' -> d = d'.
Proof.
  intros (t & Hg & _ & Hp) (t' & Hg' & _ & Hp').
  rewrite Hg in Hg'; injection Hg' as <-.
  rewrite Hp in Hp'; injection Hp' as <-; reflexivity.
Qed.

(** X1. A subject the lookup returns is the provider's draft with only
    [stats.reach] and [imageUrl] written: putting the draft's two values
    back gives the draft, so no other field is defaulted or repaired. *)
Theorem accepted_subject_is_the_draft
    (w : World) (animalName : string) (subject : AnimalData) :
  fetchAnimalData w animalName = Ok subject ->
  exists d,
    Spec.answers w animalName d /\
    withImageUrl (imageUrl d) (setReach (reach (stats d)) subject) = d.
Proof.
  intros H.
  apply LookupProps.fetchAnimalData_accepted in H as (d & img & Hans & ->).
  exists d; split; [exact Hans|].
  destruct d as [? ? ? ? ? ? ? ? ? ? [] ? ? ? ?]; reflexivity.
Qed.

Lemma accepted_subject_is_the_draft_witness :
  exists d,
    Spec.answers Samples.world "Lion" d /\
    withImageUrl (imageUrl d)
      (setReach (reach (stats d)) (Samples.accepted Samples.lion)) = d.
Proof.
  apply (@accepted_subject_is_the_draft Samples.world "Lion"
           (Samples.accepted Samples.lion)).
  reflexivity.
Defined.

(** X2. A subject the lookup returns carries no term of the exclusion
    list: no Latin term in its [phylum] or [class], and no colloquial
    keyword in its [phylum], [class] or [classification], letter case
    aside. *)
Theorem accepted_subject_has_no_listed_term
    (w : World) (animalName : string) (subject : AnimalData) :
  fetchAnimalData w animalName = Ok subject ->
  (forall term field,
      In term invertebrateLatinTerms ->
      In field [phylum subject; class subject] ->
      ~ Spec.containsCI field term) /\
  (forall term field,
      In term invertebrateCommonKeywords ->
      In field (Spec.taxonFields subject) ->
      ~ Spec.containsCI field term).
Proof.
  intros H.
  destruct (LookupProps.fetchAnimalData_accepted _ _ H) as (d & img & Hans & ->).
  destruct (fetchAnimalData_verdict Hans) as [(s & _ & Hclean) | (Hrej & _)];
    [|rewrite Hrej in H; discriminate].
  apply orb_false_iff in Hclean as [Hlatin Hkeyword].
  split; intros term field Hterm Hfield Hci.
  - rewrite (@LookupProps.latin_match_excludes
               (setReach (Z.of_nat (length (distribution d))) d)
               term field Hterm Hfield Hci) in Hlatin; discriminate.
  - rewrite (@LookupProps.keyword_match_excludes
               (setReach (Z.of_nat (length (distribution d))) d)
               term field Hterm Hfield Hci) in Hkeyword; discriminate.
Qed.

Lemma accepted_subject_has_no_listed_term_witness :
  ~ Spec.containsCI (class (Samples.accepted Samples.lion)) "insecta" /\
  ~ Spec.containsCI (classification (Samples.accepted Samples.lion)) "bug".
Proof.
  destruct (@accepted_subject_has_no_listed_term Samples.world "Lion"
              (Samples.accepted Samples.lion) eq_refl) as [Hlatin Hkeyword].
  split.
  - apply Hlatin; simpl; auto.
  - apply Hkeyword; simpl; auto 20.
Defined.

(** X3. The image step never decides a lookup: two worlds that differ
    only in what lies outside the entity-data provider give, for the same
    name, either the same error or two subjects that differ at most in
    [imageUrl]. *)
Theorem lookup_verdict_ignores_image
    (w1 w2 : World) (animalName : string) :
  (forall x, generateProfile w1 x = generateProfile w2 x) ->
  (forall x, parseAnimalData w1 x = parseAnimalData w2 x) ->
  match fetchAnimalData w1 animalName, fetchAnimalData w2 animalName with
  | Ok a, Ok b => withImageUrl None a = withImageUrl None b
  | Err e1, Err e2 => e1 = e2
  | _, _ => False
  end.
Proof.
  intros Hgen Hparse; unfold fetchAnimalData.
  rewrite <- Hgen.
  destruct (generateProfile w1 animalName) as [text|e]; [|reflexivity].
  destruct (negb (JS.truthyOpt text)); [reflexivity|].
  rewrite <- Hparse.
  destruct (parseAnimalData w1 _) as [d|e]; [|reflexivity].
  destruct (_ || _)%bool; reflexivity.
Qed.

Lemma lookup_verdict_ignores_image_witness :
  fetchAnimalData (MoreSamples.worldWithImage (Err (ErrorObj "image quota"))) "Lion"
    = Ok (Samples.accepted Samples.lion) /\
  fetchAnimalData (MoreSamples.worldWithImage (Ok MoreSamples.imageParts)) "Lion"
    = Ok (withImageUrl (Some "data:image/png;base64,iVBOR")
                       (Samples.accepted Samples.lion)) /\
  withImageUrl None (Samples.accepted Samples.lion)
  = withImageUrl None (withImageUrl (Some "data:image/png;base64,iVBOR")
                                    (Samples.accepted Samples.lion)).
Proof.
  assert (Ha : fetchAnimalData
                 (MoreSamples.worldWithImage (Err (ErrorObj "image quota"))) "Lion"
               = Ok (Samples.accepted Samples.lion)) by (vm_compute; reflexivity).
  assert (Hb : fetchAnimalData
                 (MoreSamples.worldWithImage (Ok MoreSamples.imageParts)) "Lion"
               = Ok (withImageUrl (Some "data:image/png;base64,iVBOR")
                                  (Samples.accepted Samples.lion)))
    by (vm_compute; reflexivity).
  split; [exact Ha|]; split; [exact Hb|].
  pose proof (@lookup_verdict_ignores_image
                (MoreSamples.worldWithImage (Err (ErrorObj "image quota")))
                (MoreSamples.worldWithImage (Ok MoreSamples.imageParts)) "Lion"
                (fun _ => eq_refl) (fun _ => eq_refl)) as H.
  rewrite Ha, Hb in H; exact H.
Defined.

(** X4. The image of a reply is the data URL of its first part that has
    both a non-empty [inlineData.data] and a non-empty
    [inlineData.mimeType]; there is no image exactly when no part has
    both. *)
Theorem first_usable_part_gives_image (parts : list Part) :
  match firstInlineImage parts with
  | Some u =>
      exists before part after d bytes mime,
        parts = (before ++ part :: after)%list /\
        firstInlineImage before = None /\
        inlineData part = Some d /\
        data d = Some bytes /\ mimeType d = Some mime /\
        bytes <> "" /\ mime <> "" /\
        u = "data:" ++ mime ++ ";base64," ++ bytes
  | None =>
      forall part d bytes mime,
        In part parts ->
        inlineData part = Some d ->
        data d = Some bytes -> mimeType d = Some mime ->
        bytes = "" \/ mime = ""
  end.
Proof.
  induction parts as [|part rest IH].
  - simpl; intros ? ? ? ? [].
  - assert (Hskip : forall r, firstInlineImage rest = r ->
              (forall d bytes mime,
                  inlineData part = Some d ->
                  data d = Some bytes -> mimeType d = Some mime ->
                  bytes = "" \/ mime = "") ->
              match r with
              | Some u =>
                  exists before part' after d bytes mime,
                    (part :: rest = before ++ part' :: after)%list /\
                    firstInlineImage before = None /\
                    inlineData part' = Some d /\
                    data d = Some bytes /\ mimeType d = Some mime /\
                    bytes <> "" /\ mime <> "" /\
                    u = "data:" ++ mime ++ ";base64," ++ bytes
              | None =>
                  forall part' d bytes mime,
                    In part' (part :: rest) ->
                    inlineData part' = Some d ->
                    data d = Some bytes -> mimeType d = Some mime ->
                    bytes = "" \/ mime = ""
              end).
    { intros r Hr Hpart; rewrite Hr in IH; destruct r as [u|].
      - destruct IH as (before & part' & after & d & bytes & mime & -> & Hb & Hrest).
        exists (part :: before), part', after, d, bytes, mime.
        split; [reflexivity|]; split; [|exact Hrest].
        simpl; destruct (inlineData part) as [d0|]; [|exact Hb].
        destruct (data d0) as [b0|] eqn:Hd0; [|exact Hb].
        destruct (mimeType d0) as [m0|] eqn:Hm0; [|exact Hb].
        destruct (Hpart d0 b0 m0 eq_refl Hd0 Hm0) as [-> | ->]; simpl;
          rewrite ?andb_false_r; exact Hb.
      - intros part' d bytes mime [<- | Hin]; [apply Hpart | apply IH; exact Hin]. }
    simpl.
    destruct (inlineData part) as [d|] eqn:Hd;
      [|apply Hskip; [reflexivity | discriminate]].
    destruct (data d) as [bytes|] eqn:Hbytes;
      [|apply Hskip; [reflexivity|]; intros ? ? ? [= <-]; congruence].
    destruct (mimeType d) as [mime|] eqn:Hmime;
      [|apply Hskip; [reflexivity|]; intros ? ? ? [= <-]; congruence].
    destruct (JS.truthyString bytes) eqn:Hb; simpl.
    + destruct (JS.truthyString mime) eqn:Hm.
      * exists [], part, rest, d, bytes, mime.
        repeat split; try assumption.
        -- intros ->; discriminate.
        -- intros ->; discriminate.
      * apply Hskip; [reflexivity|].
        intros d' b' m' [= <-] Hb' Hm'; right.
        rewrite Hmime in Hm'; injection Hm' as <-.
        destruct mime; [reflexivity | discriminate].
    + apply Hskip; [reflexivity|].
      intros d' b' m' [= <-] Hb' Hm'; left.
      rewrite Hbytes in Hb'; injection Hb' as <-.
      destruct bytes; [reflexivity | discriminate].
Qed.

Lemma first_usable_part_gives_image_witness :
  firstInlineImage MoreSamples.imageParts = Some "data:image/png;base64,iVBOR" /\
  exists before part after,
    MoreSamples.imageParts = (before ++ part :: after)%list /\
    firstInlineImage before = None.
Proof.
  split; [reflexivity|].
  pose proof (first_usable_part_gives_image MoreSamples.imageParts) as H.
  change (firstInlineImage MoreSamples.imageParts)
    with (Some "data:image/png;base64,iVBOR") in H.
  destruct H as (before & part & after & _ & _ & _ & Hparts & Hfirst & _).
  exists before, part, after; split; assumption.
Defined.

(** The lookup passes a failure of the entity-data provider on as it
    is. *)
Lemma fetchAnimalData_provider_failure (w : World) (animalName : string) (e : thrown) :
  generateProfile w animalName = Err e ->
  fetchAnimalData w animalName = Err e.
Proof. intros H; unfold fetchAnimalData; rewrite H; reflexivity. Qed.

Lemma fetchAnimalData_empty_reply (w : World) (animalName : string)
    (reply : option string) :
  generateProfile w animalName = Ok reply ->
  JS.truthyOpt reply = false ->
  fetchAnimalData w animalName = Err (ErrorObj "No textual data returned from Gemini").
Proof.
  intros H Hempty; unfold fetchAnimalData; rewrite H, Hempty; reflexivity.
Qed.

(** X5. What a search shows for a lookup that fails before any draft is
    read: an absent or empty reply gives the not-found message; a
    rejection of the provider whose message carries the transport
    signature, and not the phrase of the domain rejection, gives the
    network message. *)
Theorem failed_lookup_messages
    (w : World) (snap st : App.AppState) (term : string) :
  (forall reply,
      generateProfile w term = Ok reply ->
      JS.truthyOpt reply = false ->
      App.error (App.handleSearch w snap term st) = Some App.notFoundMessage) /\
  (forall e m,
      generateProfile w term = Err e ->
      messageOf e = Some m ->
      JS.includes m focusPhrase = false ->
      JS.includes m App.networkPhrase = true ->
      App.error (App.handleSearch w snap term st) = Some App.networkMessage).
Proof.
  split.
  - intros reply Hgen Hempty; unfold App.handleSearch.
    rewrite (fetchAnimalData_empty_reply _ _ Hgen Hempty); reflexivity.
  - intros e m Hgen Hm Hfocus Hnet; unfold App.handleSearch.
    rewrite (fetchAnimalData_provider_failure _ _ Hgen).
    destruct (SearchProps.handleSearch_resume_err snap (App.handleSearch_begin st) e)
      as (Herr & _).
    cbv zeta in Herr; rewrite Herr; unfold App.searchErrorMessage.
    rewrite Hm, Hfocus, Hnet; reflexivity.
Qed.

Lemma failed_lookup_messages_witness :
  App.error (App.search (MoreSamples.worldWithProfile (Ok (Some ""))) "Lion"
                        App.initialState)
    = Some App.notFoundMessage /\
  App.error (App.search
               (MoreSamples.worldWithProfile
                  (Err (ErrorObj "Rpc failed due to xhr error. status: 0")))
               "Lion" App.initialState)
    = Some App.networkMessage.
Proof.
  split.
  - apply (proj1 (failed_lookup_messages
                    (MoreSamples.worldWithProfile (Ok (Some ""))) App.initialState
                    App.initialState "Lion") (Some "")); reflexivity.
  - apply (proj2 (failed_lookup_messages
                    (MoreSamples.worldWithProfile
                       (Err (ErrorObj "Rpc failed due to xhr error. status: 0")))
                    App.initialState App.initialState "Lion")
                 (ErrorObj "Rpc failed due to xhr error. status: 0")
                 "Rpc failed due to xhr error. status: 0"); reflexivity.
Defined.

End LookupMore.

(** ** More on video generation *)

Module VideoMore.

Import GeminiService App.

Import SpecMore.

(** The calls of the poll loop are consecutive polls. *)
Lemma pollLoop_events (w : World) (fuel k : nat) (operation : Operation)
    (r : result Operation) (evs : list Event) :
  pollLoop w fuel k operation = Some (r, evs) ->
  exists n, evs = polls k n.
Proof.
  revert k operation r evs.
  induction fuel as [|fuel IH]; intros k operation r evs; simpl.
  - destruct (done operation); [|discriminate].
    intros [= <- <-]; exists 0%nat; reflexivity.
  - destruct (done operation).
    + intros [= <- <-]; exists 0%nat; reflexivity.
    + destruct (getVideosOperation w k) as [reply|e].
      * destruct (pollLoop w fuel (S k) _) as [[r' evs']|] eqn:Hrest; [|discriminate].
        intros [= <- <-].
        destruct (IH _ _ _ _ Hrest) as [n ->].
        exists (S n); reflexivity.
      * intros [= <- <-]; exists 1%nat; reflexivity.
Qed.

(** An operation the poll loop returns is done. *)
Lemma pollLoop_ok_done (w : World) (fuel k : nat) (operation final : Operation)
    (evs : list Event) :
  pollLoop w fuel k operation = Some (Ok final, evs) ->
  done final = true.
Proof.
  revert k operation evs.
  induction fuel as [|fuel IH]; intros k operation evs; simpl.
  - destruct (done operation) eqn:Hdone; [|discriminate].
    intros [= <- <-]; exact Hdone.
  - destruct (done operation) eqn:Hdone.
    + intros [= <- <-]; exact Hdone.
    + destruct (getVideosOperation w k) as [reply|e]; [|discriminate].
      destruct (pollLoop w fuel (S k) _) as [[r' evs']|] eqn:Hrest; [|discriminate].
      intros [= -> <-]; exact (IH _ _ _ Hrest).
Qed.

Lemma pollLoop_until (w : World) (k : nat) :
  Spec.pollSettles w k ->
  (forall j, (j < k)%nat -> ~ Spec.pollSettles w j) ->
  forall fuel j operation,
    (j <= k)%nat -> (k - j < fuel)%nat -> done operation = false ->
    exists r,
      pollLoop w fuel j operation = Some (r, polls j (S k - j)) /\
      match getVideosOperation w k with
      | Err e => r = Err e
      | Ok (Some final) => r = Ok final
      | Ok None => False
      end.
Proof.
  intros Hsettles Hfirst fuel.
  induction fuel as [|fuel IH]; intros j operation Hle Hfuel Hdone; [lia|].
  cbn [pollLoop]; rewrite Hdone.
  destruct (Nat.eq_dec j k) as [-> | Hne].
  - replace (S k - k)%nat with 1%nat by lia.
    unfold Spec.pollSettles in Hsettles.
    destruct (getVideosOperation w k) as [[final|]|e]; try contradiction.
    + rewrite (VideoProps.pollLoop_done w fuel (S k) final Hsettles).
      eexists; split; reflexivity.
    + eexists; split; reflexivity.
  - assert (Hj : ~ Spec.pollSettles w j) by (apply Hfirst; lia).
    unfold Spec.pollSettles in Hj.
    replace (S k - j)%nat with (S (S k - S j)) by lia.
    destruct (getVideosOperation w j) as [[next|]|e] eqn:Hpoll.
    + destruct (done next) eqn:Hnext; [contradiction Hj; reflexivity|].
      destruct (IH (S j) next) as (r & Hr & Hlast); [lia | lia | exact Hnext |].
      rewrite Hr; exists r; split; [reflexivity | exact Hlast].
    + destruct (IH (S j) operation) as (r & Hr & Hlast); [lia | lia | exact Hdone |].
      rewrite Hr; exists r; split; [reflexivity | exact Hlast].
    + contradiction Hj; exact I.
Qed.

(** X6. The poll loop of a job that is not done polls until the first
    poll that fails or reports a done job, and no further: a null reply
    and a reply that is not done are followed by the next poll.  Its
    result is that poll's failure or that poll's operation. *)
Theorem poll_loop_stops_at_first_settling_poll
    (w : World) (k fuel : nat) (operation : Operation) :
  done operation = false ->
  Spec.pollSettles w k ->
  (forall j, (j < k)%nat -> ~ Spec.pollSettles w j) ->
  (k < fuel)%nat ->
  exists r,
    pollLoop w fuel 0 operation = Some (r, polls 0 (S k)) /\
    match getVideosOperation w k with
    | Err e => r = Err e
    | Ok (Some final) => r = Ok final
    | Ok None => False
    end.
Proof.
  intros Hdone Hsettles Hfirst Hfuel.
  destruct (@pollLoop_until w k Hsettles Hfirst fuel 0%nat operation)
    as (r & Hr & Hlast); [lia | lia | exact Hdone |].
  replace (S k - 0)%nat with (S k) in Hr by lia.
  exists r; split; assumption.
Qed.

Lemma poll_loop_stops_at_first_settling_poll_witness :
  pollLoop Samples.world 5 0 {| done := false; uri := None |}
  = Some (Ok {| done := true; uri := Some "https://videos.example/1?alt=media" |},
          [EvGetVideosOperation 0; EvGetVideosOperation 1; EvGetVideosOperation 2]).
Proof.
  destruct (@poll_loop_stops_at_first_settling_poll Samples.world 2 5
              {| done := false; uri := None |}) as (r & Hr & Hlast).
  - reflexivity.
  - reflexivity.
  - intros j Hj Hs; destruct j as [|[|j]]; simpl in Hs; [discriminate | exact Hs | lia].
  - lia.
  - simpl in Hlast; rewrite Hr, Hlast; reflexivity.
Defined.

(** What [materialize] calls, and when it succeeds. *)
Lemma materialize_inv (w : World) (operation : Operation)
    (r : result string) (evs : list Event) :
  materialize w operation = (r, evs) ->
  (evs = [] /\ exists e, r = Err e) \/
  (exists link key,
      uri operation = Some link /\ link <> "" /\
      API_KEY w = Some key /\ key <> "" /\
      evs = [EvFetch (link ++ "&key=" ++ key)] /\
      match r with
      | Ok url =>
          exists response,
            fetch w (link ++ "&key=" ++ key) = Ok response /\
            ok response = true /\ url = objectURL response
      | Err _ => True
      end).
Proof.
  unfold materialize.
  destruct (uri operation) as [link|]; simpl;
    [|intros [= <- <-]; left; eauto].
  destruct (JS.truthyString link) eqn:Hlink; simpl;
    [|intros [= <- <-]; left; eauto].
  destruct (API_KEY w) as [key|]; simpl;
    [|intros [= <- <-]; left; eauto].
  destruct (JS.truthyString key) eqn:Hkey; simpl;
    [|intros [= <- <-]; left; eauto].
  assert (Hl : link <> "") by (intros ->; discriminate).
  assert (Hk : key <> "") by (intros ->; discriminate).
  destruct (fetch w _) as [response|e] eqn:Hfetch.
  - destruct (ok response) eqn:Hok; simpl; intros [= <- <-]; right;
      exists link, key; repeat split; auto.
    exists response; auto.
  - intros [= <- <-]; right; exists link, key; repeat split; auto.
Qed.

(** X7. A video generation that succeeds went all the way: the job was
    reported done with a non-empty download link, an API key was set, the
    bytes were fetched from the link with [&key=] and the key appended,
    the reply was ok, and the url returned is the object URL of that
    reply.  Its calls are the submission, the polls in order, then that
    one fetch. *)
Theorem video_success_went_all_the_way
    (w : World) (fuel : nat) (animalName url : string) (evs : list Event) :
  generateAnimalVideo w fuel animalName = Some (Ok url, evs) ->
  exists final n link key response,
    done final = true /\
    uri final = Some link /\ link <> "" /\
    API_KEY w = Some key /\ key <> "" /\
    fetch w (link ++ "&key=" ++ key) = Ok response /\
    ok response = true /\
    url = objectURL response /\
    evs = (EvGenerateVideos (videoPrompt animalName)
           :: polls 0 n ++ [EvFetch (link ++ "&key=" ++ key)])%list.
Proof.
  unfold generateAnimalVideo.
  destruct (generateVideos w _) as [operation|e]; [|discriminate].
  destruct (pollLoop w fuel 0 operation) as [[[final|e] pevs]|] eqn:Hpoll;
    try discriminate.
  destruct (materialize w final) as [r mevs] eqn:Hmat.
  intros [= -> <-].
  destruct (pollLoop_events _ _ _ _ Hpoll) as [n ->].
  destruct (materialize_inv _ _ Hmat)
    as [(_ & e & He) | (link & key & Huri & Hl & Hkey & Hk & -> & response & Hf & Hok & Hu)];
    [discriminate|].
  exists final, n, link, key, response.
  repeat split; auto.
  exact (pollLoop_ok_done _ _ _ _ Hpoll).
Qed.

Lemma video_success_went_all_the_way_witness :
  exists final n link key response,
    done final = true /\
    uri final = Some link /\ link <> "" /\
    API_KEY Samples.world = Some key /\ key <> "" /\
    fetch Samples.world (link ++ "&key=" ++ key) = Ok response /\
    ok response = true /\
    "blob:1" = objectURL response /\
    [EvGenerateVideos (videoPrompt "Lion"); EvGetVideosOperation 0;
     EvGetVideosOperation 1; EvGetVideosOperation 2;
     EvFetch "https://videos.example/1?alt=media&key=key"]
    = (EvGenerateVideos (videoPrompt "Lion")
       :: polls 0 n ++ [EvFetch (link ++ "&key=" ++ key)])%list.
Proof.
  apply (@video_success_went_all_the_way Samples.world 3 "Lion" "blob:1").
  reflexivity.
Defined.

(** X8. Whatever its outcome, a video generation submits exactly once,
    first of all; it then only polls, in order, and ends with at most one
    fetch. *)
Theorem video_calls_shape
    (w : World) (fuel : nat) (animalName : string)
    (r : result string) (evs : list Event) :
  generateAnimalVideo w fuel animalName = Some (r, evs) ->
  exists n tail,
    evs = (EvGenerateVideos (videoPrompt animalName) :: polls 0 n ++ tail)%list /\
    (tail = [] \/ exists url, tail = [EvFetch url]).
Proof.
  unfold generateAnimalVideo.
  destruct (generateVideos w _) as [operation|e].
  - destruct (pollLoop w fuel 0 operation) as [[[final|e] pevs]|] eqn:Hpoll;
      try discriminate.
    + destruct (materialize w final) as [r' mevs] eqn:Hmat.
      intros [= <- <-].
      destruct (pollLoop_events _ _ _ _ Hpoll) as [n ->].
      exists n, mevs; split; [reflexivity|].
      destruct (materialize_inv _ _ Hmat)
        as [(-> & _) | (link & key & _ & _ & _ & _ & -> & _)]; eauto.
    + intros [= <- <-].
      destruct (pollLoop_events _ _ _ _ Hpoll) as [n ->].
      exists n, []; rewrite app_nil_r; auto.
  - intros [= <- <-]; exists 0%nat, []; auto.
Qed.

Lemma video_calls_shape_witness :
  exists n tail,
    [EvGenerateVideos (videoPrompt "Lion")]
    = (EvGenerateVideos (videoPrompt "Lion") :: polls 0 n ++ tail)%list /\
    (tail = [] \/ exists url, tail = [EvFetch url]).
Proof.
  apply (@video_calls_shape (Samples.worldRejectingVideo "quota") 0 "Lion"
           (Err (ErrorObj "quota"))).
  reflexivity.
Defined.

(** [generate()] past its guard. *)
Lemma generate_past_guard (w : World) (fuel : nat) (st : AppState)
    (subject : AnimalData) :
  primaryAnimal st = Some subject -> isVideoLoading st = false ->
  generate w fuel st =
    match tryGenerate w fuel (name subject) with
    | Some (exit, evs) =>
        Some (handleGenerateVideo_finish w exit (handleGenerateVideo_begin st), evs)
    | None => None
    end.
Proof.
  intros Hp Hl; unfold generate, handleGenerateVideo; rewrite Hp, Hl; reflexivity.
Qed.

(** X9. The credential check of [generate()], past its guard.  When the
    host has no key check, the video provider is called without one (fail
    open).  When the check says no key is selected and the host has no
    picker, nothing is submitted: the call ends with the
    configuration error, no url, no prompt and loading down.  When the
    check says no and the picker call returns, the submission follows at
    once: the check is not asked a second time. *)
Theorem credential_check_paths
    (w : World) (fuel : nat) (st : AppState) (subject : AnimalData) :
  primaryAnimal st = Some subject -> isVideoLoading st = false ->
  (hasSelectedApiKey w = None ->
   forall r evs,
     generateAnimalVideo w fuel (name subject) = Some (r, evs) ->
     exists st', generate w fuel st = Some (st', evs)) /\
  (hasSelectedApiKey w = Some (Ok false) -> openSelectKey w = None ->
   exists st',
     generate w fuel st = Some (st', [EvHasSelectedApiKey]) /\
     videoError st' = Some pickerUnavailableMessage /\
     videoUrl st' = None /\
     showVideoApiKeyPrompt st' = false /\
     isVideoLoading st' = false) /\
  (hasSelectedApiKey w = Some (Ok false) ->
   forall u r evs,
     openSelectKey w = Some (Ok u) ->
     generateAnimalVideo w fuel (name subject) = Some (r, evs) ->
     exists st',
       generate w fuel st
       = Some (st', EvHasSelectedApiKey :: EvOpenSelectKey :: evs)).
Proof.
  intros Hp Hl; rewrite (generate_past_guard w fuel st Hp Hl).
  unfold tryGenerate.
  split; [|split].
  - intros Hcheck r evs Hvideo; rewrite Hcheck, Hvideo.
    destruct r; eexists; reflexivity.
  - intros Hcheck Hpicker; rewrite Hcheck, Hpicker.
    eexists; split; [reflexivity|]; repeat split.
  - intros Hcheck u r evs Hpicker Hvideo; rewrite Hcheck, Hpicker, Hvideo.
    destruct r; eexists; reflexivity.
Qed.

Lemma credential_check_paths_witness :
  (exists st',
      generate (MoreSamples.worldWithHost None None) 3 MoreSamples.exploring
      = Some (st', [EvGenerateVideos (videoPrompt "Lion"); EvGetVideosOperation 0;
                    EvGetVideosOperation 1; EvGetVideosOperation 2;
                    EvFetch "https://videos.example/1?alt=media&key=key"])) /\
  (exists st',
      generate (MoreSamples.worldWithHost (Some (Ok false)) None) 3
               MoreSamples.exploring
      = Some (st', [EvHasSelectedApiKey]) /\
      videoError st' = Some pickerUnavailableMessage /\
      videoUrl st' = None /\
      showVideoApiKeyPrompt st' = false /\
      isVideoLoading st' = false).
Proof.
  split.
  - apply (proj1 (@credential_check_paths (MoreSamples.worldWithHost None None) 3
                    MoreSamples.exploring (Samples.accepted Samples.lion)
                    eq_refl eq_refl) eq_refl (Ok "blob:1")).
    reflexivity.
  - apply (proj1 (proj2 (@credential_check_paths
                           (MoreSamples.worldWithHost (Some (Ok false)) None) 3
                           MoreSamples.exploring (Samples.accepted Samples.lion)
                           eq_refl eq_refl)));
      reflexivity.
Defined.

(** X10. [generate()] writes the four video cells and nothing else:
    with these four put back, the state it leaves is the state it
    started from, so subjects, mode, fetch error, loading flag of the
    search, voice and summary cells are as they were. *)
Theorem generate_writes_only_video_cells
    (w : World) (fuel : nat) (st st' : AppState) (evs : list Event) :
  generate w fuel st = Some (st', evs) ->
  withVideoCellsOf st st' = st.
Proof.
  unfold generate, handleGenerateVideo; intros H.
  destruct (primaryAnimal st) as [subject|] eqn:Hp.
  - destruct (isVideoLoading st) eqn:Hl.
    + injection H as <- <-; destruct st; reflexivity.
    + destruct (tryGenerate w fuel (name subject)) as [[exit evs']|]; [|discriminate].
      injection H as <- <-.
      unfold handleGenerateVideo_finish.
      destruct exit as [|url|err]; [| |destruct (videoErrorOf w err)];
        destruct st; reflexivity.
  - injection H as <- <-; destruct st; reflexivity.
Qed.

Lemma generate_writes_only_video_cells_witness :
  exists st' evs,
    generate Samples.world 3 MoreSamples.exploring = Some (st', evs) /\
    videoUrl st' = Some "blob:1" /\
    withVideoCellsOf MoreSamples.exploring st' = MoreSamples.exploring.
Proof.
  destruct (generate Samples.world 3 MoreSamples.exploring) as [[st' evs]|] eqn:H;
    [|vm_compute in H; discriminate].
  exists st', evs; split; [reflexivity|]; split.
  - vm_compute in H; injection H as <- _; reflexivity.
  - exact (generate_writes_only_video_cells _ _ _ H).
Defined.

(** X11. A [generate()] that passed its guard ends with a url or with an
    error, never both and never neither, and raises the credential prompt
    only beside an error. *)
Theorem generate_ends_with_url_or_error
    (w : World) (fuel : nat) (st st' : AppState) (evs : list Event) :
  primaryAnimal st <> None -> isVideoLoading st = false ->
  generate w fuel st = Some (st', evs) ->
  (videoUrl st' = None <-> videoError st' <> None) /\
  (showVideoApiKeyPrompt st' = true -> videoError st' <> None).
Proof.
  intros Hp Hl.
  destruct (primaryAnimal st) as [subject|] eqn:Hsubject; [|contradiction].
  rewrite (generate_past_guard w fuel st Hsubject Hl).
  destruct (tryGenerate w fuel (name subject)) as [[exit evs']|]; [|discriminate].
  intros [= <- <-].
  unfold handleGenerateVideo_finish.
  destruct exit as [|url|err]; [| |destruct (videoErrorOf w err)]; simpl;
    (split; [split|]); intros; try discriminate; try contradiction; auto.
Qed.

Lemma generate_ends_with_url_or_error_witness :
  exists st' evs,
    generate (Samples.worldRejectingVideo (Samples.apiFailure "404" "x")) 0
             MoreSamples.exploring = Some (st', evs) /\
    videoUrl st' = None /\ videoError st' <> None.
Proof.
  destruct (generate (Samples.worldRejectingVideo (Samples.apiFailure "404" "x")) 0
                     MoreSamples.exploring) as [[st' evs]|] eqn:H;
    [|vm_compute in H; discriminate].
  exists st', evs; split; [reflexivity|].
  assert (Hurl : videoUrl st' = None)
    by (vm_compute in H; injection H as <- _; reflexivity).
  split; [exact Hurl|].
  apply (proj1 (@generate_ends_with_url_or_error _ 0 MoreSamples.exploring st' evs
                  ltac:(discriminate) eq_refl H)).
  exact Hurl.
Defined.

(** X12. The credential prompt is raised by one failure only: an
    [Error] whose text parses to a payload whose [error] member has the
    numeric code 404. *)
Theorem prompt_only_for_404 (w : World) (err : thrown) :
  snd (videoErrorOf w err) = true ->
  exists raw message,
    err = ErrorObj raw /\ Spec.structuredFailure w raw 404 message.
Proof.
  unfold videoErrorOf.
  destruct err as [raw|m]; [|discriminate].
  destruct (JSON_parse w raw) as [errorObj|] eqn:Hparse; [|discriminate].
  destruct (Any.getProp errorObj "error") as [apiError|] eqn:Herror; [|discriminate].
  destruct (Any.truthy apiError); [|discriminate].
  destruct apiError as [e|]; [|discriminate].
  destruct (Any.getProp e "code") as [code|] eqn:Hcode; [|discriminate].
  destruct (Any.getProp e "message") as [message|] eqn:Hmessage; [|discriminate].
  unfold switchOnCode.
  destruct (Any.strictEqNum code 404) eqn:H404.
  - intros _; exists raw, message; split; [reflexivity|].
    exists errorObj, e; repeat split; auto.
    destruct code as [[| |n| | |]|]; try discriminate.
    simpl in H404; apply Z.eqb_eq in H404; subst n; exact Hcode.
  - destruct (Any.strictEqNum code 400); [discriminate|].
    destruct (Any.strictEqNum code 403); [discriminate|].
    destruct (Any.strictEqNum code 429); [discriminate|].
    destruct (_ || _)%bool; discriminate.
Qed.

Lemma prompt_only_for_404_witness :
  exists raw message,
    ErrorObj (Samples.apiFailure "404" "x") = ErrorObj raw /\
    Spec.structuredFailure Samples.world raw 404 message.
Proof.
  apply (@prompt_only_for_404 Samples.world (ErrorObj (Samples.apiFailure "404" "x"))).
  reflexivity.
Defined.

(** X13. Failures that are no structured payload: a thrown value that is
    not an [Error] gives the unknown-error message; an [Error] whose text
    parses to [null], or to a value whose [error] member is missing or
    falsy, gives the generic message with the raw text appended, like a
    text that does not parse.  None of them raises the prompt. *)
Theorem unstructured_failures_fall_back (w : World) :
  (forall m, videoErrorOf w (NonError m) = (unknownVideoError, false)) /\
  (forall raw errorObj,
      JSON_parse w raw = Some errorObj ->
      match Any.getProp errorObj "error" with
      | None => True
      | Some apiError => Any.truthy apiError = false
      end ->
      videoErrorOf w (ErrorObj raw) = (fallbackVideoMessage raw, false)).
Proof.
  split; [reflexivity|].
  intros raw errorObj Hparse Herror; unfold videoErrorOf; rewrite Hparse.
  destruct (Any.getProp errorObj "error") as [apiError|]; [|reflexivity].
  rewrite Herror; reflexivity.
Qed.

Lemma unstructured_failures_fall_back_witness :
  videoErrorOf Samples.world (ErrorObj "null") = (fallbackVideoMessage "null", false) /\
  videoErrorOf Samples.world (ErrorObj "[404]") = (fallbackVideoMessage "[404]", false).
Proof.
  split.
  - apply (proj2 (unstructured_failures_fall_back Samples.world) "null" JNull);
      reflexivity.
  - apply (proj2 (unstructured_failures_fall_back Samples.world) "[404]"
                 (JArr [JNum 404])); reflexivity.
Defined.

End VideoMore.

(** ** Sessions *)

Module SessionProps.

Import GeminiService App Session SpecMore.

(** *** Where the slots of a state come from *)

Lemma resume_slots (snap live : AppState) (outcome : result AnimalData)
    (x : AnimalData) :
  stored (handleSearch_resume snap outcome live) x ->
  stored live x \/ outcome = Ok x.
Proof.
  unfold stored, handleSearch_resume.
  destruct outcome as [data|err];
    [destruct (mode snap); [|destruct (primaryAnimal snap)]|];
    simpl; intros [H | H]; auto; try discriminate;
    injection H as ->; auto.
Qed.

Lemma search_slots (w : World) (snap st : AppState) (term : string) (x : AnimalData) :
  stored (handleSearch w snap term st) x ->
  stored st x \/ fetchAnimalData w term = Ok x.
Proof.
  unfold handleSearch; intros H.
  apply resume_slots in H as [H | H]; [left; exact H | right; exact H].
Qed.

Lemma generate_frame (w : World) (fuel : nat) (st st' : AppState) (evs : list Event) :
  generate w fuel st = Some (st', evs) ->
  withVideoCellsOf st st' = st.
Proof.
  unfold generate, handleGenerateVideo; intros H.
  destruct (primaryAnimal st) as [subject|] eqn:Hp.
  - destruct (isVideoLoading st) eqn:Hl.
    + injection H as <- <-; destruct st; reflexivity.
    + destruct (tryGenerate w fuel (name subject)) as [[exit evs']|]; [|discriminate].
      injection H as <- <-.
      unfold handleGenerateVideo_finish.
      destruct exit as [|url|err]; [| |destruct (videoErrorOf w err)];
        destruct st; reflexivity.
  - injection H as <- <-; destruct st; reflexivity.
Qed.

Lemma generate_slots (w : World) (fuel : nat) (st st' : AppState) (evs : list Event) :
  generate w fuel st = Some (st', evs) ->
  primaryAnimal st' = primaryAnimal st /\
  comparisonAnimal st' = comparisonAnimal st /\
  mode st' = mode st.
Proof.
  intros H; apply generate_frame in H.
  split; [|split];
    [ change (primaryAnimal (withVideoCellsOf st st') = primaryAnimal st)
    | change (comparisonAnimal (withVideoCellsOf st st') = comparisonAnimal st)
    | change (mode (withVideoCellsOf st st') = mode st) ];
    rewrite H; reflexivity.
Qed.

Lemma summary_slots (w : World) (snap st : AppState) :
  let st' := fetchComparisonSummary w snap st in
  primaryAnimal st' = primaryAnimal st /\
  comparisonAnimal st' = comparisonAnimal st /\
  mode st' = mode st.
Proof.
  unfold fetchComparisonSummary, fetchComparisonSummary_begin,
    fetchComparisonSummary_resume.
  destruct (summaryEnabled snap) as [[p c]|]; [|repeat split].
  destruct (generateComparisonSummary w p c); repeat split.
Qed.

Lemma onend_slots (st : AppState) :
  let st' := fst (onend st) in
  primaryAnimal st' = primaryAnimal st /\
  comparisonAnimal st' = comparisonAnimal st /\
  mode st' = mode st.
Proof.
  unfold onend.
  destruct (JS.truthyString _); repeat split.
Qed.

Lemma toggleVoiceSearch_slots (supported startThrows : bool)
    (snap st : AppState) (ref : option Voice.Recognition) :
  let st' := fst (fst (Voice.toggleVoiceSearch supported startThrows snap ref st)) in
  primaryAnimal st' = primaryAnimal st /\
  comparisonAnimal st' = comparisonAnimal st /\
  mode st' = mode st.
Proof.
  unfold Voice.toggleVoiceSearch.
  destruct supported, (isVoiceListening snap), startThrows; repeat split.
Qed.

(** A capture session's end: no search, or one search with the trimmed
    transcript, resumed by the recognizer's callback. *)
Lemma voiceEndSearch_cases (w : World) (r : Voice.Recognition) (st : AppState) :
  (JS.trim (latestVoiceSearchText st) = "" /\
   Voice.voiceEndSearch w r st = fst (onend st)) \/
  (JS.trim (latestVoiceSearchText st) <> "" /\
   Voice.voiceEndSearch w r st
   = handleSearch_resume (Voice.builtIn r)
       (fetchAnimalData w (JS.trim (latestVoiceSearchText st)))
       (fst (onend st))).
Proof.
  unfold Voice.voiceEndSearch, onend.
  change (latestVoiceSearchText (setIsVoiceListening false st))
    with (latestVoiceSearchText st).
  destruct (JS.trim (latestVoiceSearchText st)) as [|c s] eqn:Hspoken; simpl.
  - left; split; reflexivity.
  - right; split; [discriminate | reflexivity].
Qed.

(** A slot after a step holds what it held before or the result of a
    lookup. *)
Lemma step_slots (w : World) (a : Action) (st st' : AppState) (x : AnimalData) :
  step w a st = Some st' ->
  stored st' x ->
  stored st x \/ exists term, fetchAnimalData w term = Ok x.
Proof.
  destruct a; cbn [step]; intros Hstep Hx.
  - injection Hstep as <-.
    unfold SearchBar.handleSubmit in Hx.
    destruct (JS.truthyString (JS.trim term));
      cbn [fst runSearches fold_left] in Hx; [|auto].
    apply search_slots in Hx as [H | H]; eauto.
  - destruct (nth_error suggestedAnimals i) as [animal|]; [|discriminate].
    injection Hstep as <-.
    apply search_slots in Hx as [H | H]; eauto.
  - injection Hstep as <-; left.
    unfold stored, toggleMode in *; destruct (mode st); simpl in Hx;
      destruct Hx as [H | H]; auto; discriminate.
  - injection Hstep as <-; unfold stored in Hx; simpl in Hx.
    destruct Hx; discriminate.
  - injection Hstep as <-; left; unfold stored in *; simpl in Hx.
    destruct Hx as [H | H]; auto; discriminate.
  - injection Hstep as <-; auto.
  - injection Hstep as <-; auto.
  - destruct (generate w fuel st) as [[st0 evs]|] eqn:Hgen; [|discriminate].
    injection Hstep as <-.
    destruct (generate_slots _ _ _ Hgen) as (Hp & Hc & _).
    unfold stored in *; rewrite Hp, Hc in Hx; auto.
  - injection Hstep as <-.
    destruct (summary_slots w st st) as (Hp & Hc & _).
    unfold stored in *; cbv zeta in Hp, Hc; rewrite Hp, Hc in Hx; auto.
  - injection Hstep as <-.
    destruct (toggleVoiceSearch_slots supported startThrows st st None) as (Hp & Hc & _).
    unfold stored in *; cbv zeta in Hp, Hc; rewrite Hp, Hc in Hx; auto.
  - injection Hstep as <-; auto.
  - injection Hstep as <-; left; unfold stored, onresult in *.
    destruct (accumulate _ _ _); exact Hx.
  - injection Hstep as <-; auto.
  - injection Hstep as <-.
    destruct (onend_slots st) as (Hp & Hc & _); cbv zeta in Hp, Hc.
    destruct (voiceEndSearch_cases w r st) as [[_ Heq] | [_ Heq]]; rewrite Heq in Hx.
    + unfold stored in *; rewrite Hp, Hc in Hx; auto.
    + apply resume_slots in Hx as [H | H];
        [unfold stored in *; rewrite Hp, Hc in H|]; eauto.
  - injection Hstep as <-; auto.
Qed.

(** X14. Whatever the order of gestures, effects and recognizer events,
    and whichever render a recognizer's callback is from, a subject held
    in the primary or the comparison slot is the result of a successful
    lookup, and so has its [reach] equal to the length of its
    [distribution]. *)
Theorem stored_subjects_come_from_lookups
    (w : World) (st : AppState) (x : AnimalData) :
  Reachable w st ->
  primaryAnimal st = Some x \/ comparisonAnimal st = Some x ->
  (exists term, fetchAnimalData w term = Ok x) /\ reachComputed x.
Proof.
  intros Hreach Hx.
  assert (Hlookup : exists term, fetchAnimalData w term = Ok x).
  { induction Hreach as [|a st st' Hreach IH Hstep].
    - destruct Hx; discriminate.
    - destruct (step_slots _ _ _ Hstep Hx) as [H | H]; auto. }
  split; [exact Hlookup|].
  destruct Hlookup as [term Hterm].
  apply LookupProps.fetchAnimalData_accepted in Hterm as (d & img & _ & ->).
  reflexivity.
Qed.

Lemma stored_subjects_come_from_lookups_witness :
  exists st,
    Reachable Samples.world st /\
    comparisonAnimal st = Some (Samples.accepted Samples.tiger) /\
    reachComputed (Samples.accepted Samples.tiger).
Proof.
  assert (H : Reachable Samples.world
                (search Samples.world "Tiger"
                   (toggleMode (search Samples.world "Lion" initialState)
                               (search Samples.world "Lion" initialState)))).
  { apply (@ReachStep _ (Submit "Tiger")
             (toggleMode (search Samples.world "Lion" initialState)
                         (search Samples.world "Lion" initialState))).
    - apply (@ReachStep _ ToggleMode (search Samples.world "Lion" initialState)).
      + apply (@ReachStep _ (Submit "Lion") initialState);
          [apply ReachInitial | reflexivity].
      + reflexivity.
    - reflexivity. }
  eexists; split; [exact H|]; split; [reflexivity|].
  apply (@stored_subjects_come_from_lookups Samples.world _
           (Samples.accepted Samples.tiger) H).
  right; reflexivity.
Defined.

(** *** Mode and slots *)

Lemma consistent_same_slots (st st' : AppState) :
  primaryAnimal st' = primaryAnimal st ->
  comparisonAnimal st' = comparisonAnimal st ->
  mode st' = mode st ->
  slotsConsistent st -> slotsConsistent st'.
Proof.
  unfold slotsConsistent; intros -> -> ->; auto.
Qed.

Lemma resume_consistent (snap live : AppState) (outcome : result AnimalData) :
  mode snap = mode live ->
  primaryAnimal snap = primaryAnimal live ->
  slotsConsistent live ->
  slotsConsistent (handleSearch_resume snap outcome live).
Proof.
  unfold slotsConsistent, handleSearch_resume; intros Hm Hp [Hexplore Hbeside].
  destruct outcome as [data|err]; [|simpl; auto].
  destruct (mode snap) eqn:Hmode.
  - simpl; split; [reflexivity | intros H; contradiction].
  - destruct (primaryAnimal snap) eqn:Hprimary; simpl.
    + split; [intros H; congruence | intros _; congruence].
    + split; [intros H; congruence | intros _; discriminate].
Qed.

Lemma search_consistent (w : World) (term : string) (st : AppState) :
  slotsConsistent st -> slotsConsistent (search w term st).
Proof.
  intros H; unfold search, handleSearch.
  apply resume_consistent; try reflexivity.
  revert H; apply consistent_same_slots; reflexivity.
Qed.

(** A step taken with current callbacks keeps mode and slots
    consistent. *)
Lemma step_consistent (w : World) (a : Action) (st st' : AppState) :
  slotsConsistent st -> current a st -> step w a st = Some st' ->
  slotsConsistent st'.
Proof.
  intros Hst Hcur; destruct a; cbn [step]; intros Hstep.
  - injection Hstep as <-.
    unfold SearchBar.handleSubmit.
    destruct (JS.truthyString (JS.trim term)); cbn [fst runSearches fold_left];
      [apply search_consistent|]; exact Hst.
  - destruct (nth_error suggestedAnimals i) as [animal|]; [|discriminate].
    injection Hstep as <-; apply search_consistent; exact Hst.
  - injection Hstep as <-.
    destruct Hst as [Hexplore Hbeside].
    unfold slotsConsistent, toggleMode; destruct (mode st); simpl.
    + split; [discriminate | exact Hbeside].
    + split; [reflexivity | intros H; contradiction].
  - injection Hstep as <-; split; simpl; [reflexivity | intros H; contradiction].
  - injection Hstep as <-; split; simpl; [reflexivity | intros H; contradiction].
  - injection Hstep as <-; revert Hst; apply consistent_same_slots; reflexivity.
  - injection Hstep as <-; revert Hst; apply consistent_same_slots; reflexivity.
  - destruct (generate w fuel st) as [[st0 evs]|] eqn:Hgen; [|discriminate].
    injection Hstep as <-.
    destruct (generate_slots _ _ _ Hgen) as (Hp & Hc & Hm).
    revert Hst; apply consistent_same_slots; assumption.
  - injection Hstep as <-.
    destruct (summary_slots w st st) as (Hp & Hc & Hm).
    revert Hst; apply consistent_same_slots; assumption.
  - injection Hstep as <-.
    destruct (toggleVoiceSearch_slots supported startThrows st st None)
      as (Hp & Hc & Hm).
    revert Hst; apply consistent_same_slots; assumption.
  - injection Hstep as <-; revert Hst; apply consistent_same_slots; reflexivity.
  - injection Hstep as <-; revert Hst; apply consistent_same_slots;
      unfold onresult; destruct (accumulate _ _ _); reflexivity.
  - injection Hstep as <-; revert Hst; apply consistent_same_slots; reflexivity.
  - injection Hstep as <-.
    destruct (onend_slots st) as (Hp & Hc & Hm); cbv zeta in Hp, Hc, Hm.
    assert (Hend : slotsConsistent (fst (onend st)))
      by (revert Hst; apply consistent_same_slots; assumption).
    destruct Hcur as [Hmode Hprimary].
    destruct (voiceEndSearch_cases w r st) as [[_ ->] | [_ ->]]; [exact Hend|].
    apply resume_consistent; [congruence | congruence | exact Hend].
  - injection Hstep as <-; revert Hst; apply consistent_same_slots; reflexivity.
Qed.

(** X15. As long as every handler runs to its end before the next one
    starts, and a capture session ends on a recognizer whose callback has
    the present mode and primary subject, the comparison slot is empty
    whenever the mode is explore, and a comparison subject never stands
    without a primary subject. *)
Theorem explore_mode_has_no_comparison (w : World) (st : AppState) :
  ReachableCurrent w st -> slotsConsistent st.
Proof.
  induction 1 as [|a st st' _ IH Hcur Hstep].
  - split; [reflexivity | intros H; contradiction].
  - exact (step_consistent _ _ IH Hcur Hstep).
Qed.

Lemma explore_mode_has_no_comparison_witness :
  exists st,
    ReachableCurrent Samples.world st /\
    mode st = explore /\
    primaryAnimal st = Some (Samples.accepted Samples.lion) /\
    comparisonAnimal st = None.
Proof.
  pose (s1 := search Samples.world "Lion" initialState).
  pose (s2 := toggleMode s1 s1).
  pose (s3 := search Samples.world "Tiger" s2).
  pose (s4 := toggleMode s3 s3).
  assert (H : ReachableCurrent Samples.world s4).
  { apply (@CurrentStep _ ToggleMode s3); [|exact I | reflexivity].
    apply (@CurrentStep _ (Submit "Tiger") s2); [|exact I | reflexivity].
    apply (@CurrentStep _ ToggleMode s1); [|exact I | reflexivity].
    apply (@CurrentStep _ (Submit "Lion") initialState);
      [apply CurrentInitial | exact I | reflexivity]. }
  exists s4; split; [exact H|].
  split; [reflexivity|]; split; [reflexivity|].
  exact (proj1 (explore_mode_has_no_comparison H) eq_refl).
Defined.

(** X16. The same does not survive a handler that starts while a search
    is awaiting its lookup: a search begun in compare mode with a primary
    subject, followed by the mode toggle before the lookup settles, ends
    with its result in the comparison slot although the mode is
    explore. *)
Theorem toggle_during_search_leaves_comparison_in_explore
    (w : World) (snap : AppState) (term : string) (data : AnimalData) :
  mode snap = compare -> primaryAnimal snap <> None ->
  fetchAnimalData w term = Ok data ->
  let pending := handleSearch_begin snap in
  let toggled := toggleMode pending pending in
  let st' := handleSearch_resume snap (fetchAnimalData w term) toggled in
  mode st' = explore /\ comparisonAnimal st' = Some data.
Proof.
  intros Hmode Hprimary Hfetch; cbv zeta.
  generalize (fetchAnimalData w term) Hfetch; intros outcome ->.
  destruct snap as [primary ? ? ? snapMode ? ? ? ? ? ? ? ? ? ? ? ?].
  cbn [mode primaryAnimal] in Hmode, Hprimary; subst snapMode.
  destruct primary; [|contradiction].
  split; reflexivity.
Qed.

Lemma toggle_during_search_leaves_comparison_in_explore_witness :
  let pending := handleSearch_begin MoreSamples.awaitingChallenger in
  let toggled := toggleMode pending pending in
  let st' := handleSearch_resume MoreSamples.awaitingChallenger
               (fetchAnimalData Samples.world "Tiger") toggled in
  mode st' = explore /\ comparisonAnimal st' = Some (Samples.accepted Samples.tiger).
Proof.
  apply (@toggle_during_search_leaves_comparison_in_explore Samples.world
           MoreSamples.awaitingChallenger "Tiger" (Samples.accepted Samples.tiger));
    [reflexivity | discriminate | reflexivity].
Defined.

(** X17. The search a capture session starts places its result by the
    mode and primary subject of the render in which the recognizer was
    built, not by those of the state at the time: with a recognizer from
    an explore-mode render the result becomes the primary subject and the
    comparison slot is cleared, whatever the mode is by then. *)
Theorem voice_search_places_by_recognizer_render
    (w : World) (r : Voice.Recognition) (st : AppState) (data : AnimalData) :
  JS.trim (latestVoiceSearchText st) <> "" ->
  fetchAnimalData w (JS.trim (latestVoiceSearchText st)) = Ok data ->
  let st' := Voice.voiceEndSearch w r st in
  (mode (Voice.builtIn r) = explore ->
   primaryAnimal st' = Some data /\ comparisonAnimal st' = None) /\
  (mode (Voice.builtIn r) = compare -> primaryAnimal (Voice.builtIn r) = None ->
   primaryAnimal st' = Some data /\ comparisonAnimal st' = comparisonAnimal st) /\
  (mode (Voice.builtIn r) = compare -> primaryAnimal (Voice.builtIn r) <> None ->
   comparisonAnimal st' = Some data /\ primaryAnimal st' = primaryAnimal st).
Proof.
  intros Hspoken Hfetch; cbv zeta.
  destruct (voiceEndSearch_cases w r st) as [[He _] | [_ ->]]; [contradiction|].
  destruct (onend_slots st) as (Hp & Hc & _); cbv zeta in Hp, Hc.
  rewrite Hfetch; unfold handleSearch_resume.
  destruct (mode (Voice.builtIn r));
    [|destruct (primaryAnimal (Voice.builtIn r))];
    cbn [primaryAnimal comparisonAnimal setPrimaryAnimal setComparisonAnimal
         setIsLoading];
    rewrite ?Hp, ?Hc; repeat split; intros; congruence.
Qed.

Lemma voice_search_places_by_recognizer_render_witness :
  let st' := Voice.voiceEndSearch Samples.world MoreSamples.firstRecognizer
               MoreSamples.heardChallenger in
  mode MoreSamples.heardChallenger = compare /\
  primaryAnimal MoreSamples.heardChallenger = Some (Samples.accepted Samples.lion) /\
  primaryAnimal st' = Some (Samples.accepted Samples.tiger) /\
  comparisonAnimal st' = None.
Proof.
  split; [reflexivity|]; split; [reflexivity|].
  apply (proj1 (@voice_search_places_by_recognizer_render Samples.world
                  MoreSamples.firstRecognizer MoreSamples.heardChallenger
                  (Samples.accepted Samples.tiger)
                  ltac:(discriminate) eq_refl)).
  reflexivity.
Defined.

(** X18. A search writes its eight cells and nothing else: the two
    slots, its loading flag, the fetch error, the video url, error and
    prompt, and the voice error.  With these put back the state is the
    one it started from, so a search changes neither the mode nor the
    loading flag of a video job nor the summary nor the transcript.
    After it, success or failure, its loading flag is down and the video
    url, video error, prompt and voice error are cleared. *)
Theorem search_writes_only_its_cells
    (w : World) (snap st : AppState) (term : string) :
  let st' := handleSearch w snap term st in
  withSearchCellsOf st st' = st /\
  isLoading st' = false /\
  videoUrl st' = None /\ videoError st' = None /\
  showVideoApiKeyPrompt st' = false /\
  voiceSearchError st' = None.
Proof.
  unfold handleSearch, handleSearch_resume.
  destruct (fetchAnimalData w term) as [data|err];
    [destruct (mode snap); [|destruct (primaryAnimal snap)]|];
    destruct st; repeat split.
Qed.

(** X19. Toggling the mode twice gives back the mode and the primary
    subject but not the rest: the comparison slot is empty, whichever
    mode one started from, and the video and summary cells are reset. *)
Theorem toggling_twice_drops_the_challenger (st : AppState) :
  let once := toggleMode st st in
  let twice := toggleMode once once in
  mode twice = mode st /\
  primaryAnimal twice = primaryAnimal st /\
  comparisonAnimal twice = None /\
  videoUrl twice = None /\ isVideoLoading twice = false /\
  videoError twice = None /\ showVideoApiKeyPrompt twice = false /\
  comparisonSummaryData twice = None /\
  isComparisonSummaryLoading twice = false /\
  comparisonSummaryError twice = None.
Proof.
  destruct st as [? ? ? ? m ? ? ? ? ? ? ? ? ? ? ? ?]; destruct m; repeat split.
Qed.

(** X20. [reset] gives the state of the first render except for three
    cells it does not write: the loading flag of a search, the chat
    panel's visibility and the transcript ref.  It cancels nothing: a
    search that was awaiting its lookup still stores its result and an
    error after the reset. *)
Theorem reset_is_first_render_but_cancels_nothing (st : AppState) :
  reset st
  = (initialState |> setIsLoading (isLoading st)
                  |> setShowChatbot (showChatbot st)
                  |> setLatestVoiceSearchText (latestVoiceSearchText st)) /\
  (forall snap data,
      stored (handleSearch_resume snap (Ok data) (reset st)) data) /\
  (forall snap err,
      error (handleSearch_resume snap (Err err) (reset st))
      = Some (searchErrorMessage err)).
Proof.
  split; [destruct st; reflexivity|]; split.
  - intros snap data; unfold stored, handleSearch_resume.
    destruct (mode snap); [|destruct (primaryAnimal snap)]; simpl; auto.
  - intros snap err; reflexivity.
Qed.

(** X21. The summary effect writes its three cells and nothing else.
    When its guard fails (the mode is not compare, or a slot is empty) it
    clears all three.  When the guard holds and the provider's reply is a
    non-empty text that parses, the parsed value is stored, loading is
    down and no error is set. *)
Theorem summary_effect_outcomes (w : World) (snap st : AppState) :
  let st' := fetchComparisonSummary w snap st in
  withSummaryCellsOf st st' = st /\
  (mode snap = explore \/ primaryAnimal snap = None \/ comparisonAnimal snap = None ->
   comparisonSummaryData st' = None /\
   isComparisonSummaryLoading st' = false /\
   comparisonSummaryError st' = None) /\
  (forall p c text v,
      mode snap = compare ->
      primaryAnimal snap = Some p -> comparisonAnimal snap = Some c ->
      generateSummary w p c = Ok (Some text) -> text <> "" ->
      JSON_parse w text = Some v ->
      comparisonSummaryData st' = Some v /\
      isComparisonSummaryLoading st' = false /\
      comparisonSummaryError st' = None).
Proof.
  cbv zeta; split; [|split].
  - unfold fetchComparisonSummary, fetchComparisonSummary_begin,
      fetchComparisonSummary_resume.
    destruct (summaryEnabled snap) as [[p c]|]; [|destruct st; reflexivity].
    destruct (generateComparisonSummary w p c); destruct st; reflexivity.
  - intros Hguard.
    assert (Hoff : summaryEnabled snap = None).
    { unfold summaryEnabled.
      destruct Hguard as [-> | [-> | ->]]; [reflexivity | |];
        destruct (mode snap); try reflexivity;
        destruct (primaryAnimal snap); reflexivity. }
    unfold fetchComparisonSummary, fetchComparisonSummary_begin; rewrite Hoff.
    repeat split.
  - intros p c text v Hm Hp Hc Hgen Htext Hparse.
    assert (Hon : summaryEnabled snap = Some (p, c))
      by (unfold summaryEnabled; rewrite Hm, Hp, Hc; reflexivity).
    assert (Hok : generateComparisonSummary w p c = Ok v).
    { unfold generateComparisonSummary; rewrite Hgen; simpl.
      destruct text; [contradiction|]; simpl.
      simpl in Hparse; rewrite Hparse; reflexivity. }
    unfold fetchComparisonSummary, fetchComparisonSummary_begin.
    rewrite Hon, Hok; repeat split.
Qed.

Lemma summary_effect_outcomes_witness :
  let blank := setComparisonSummaryData None Samples.comparing in
  comparisonSummaryData (fetchComparisonSummary Samples.world blank blank)
    = Some Samples.sampleSummary /\
  comparisonSummaryData
    (fetchComparisonSummary Samples.world MoreSamples.exploring Samples.comparing)
    = None.
Proof.
  split.
  - apply (proj2 (proj2 (summary_effect_outcomes Samples.world
                           (setComparisonSummaryData None Samples.comparing)
                           (setComparisonSummaryData None Samples.comparing)))
                 (Samples.accepted Samples.lion) (Samples.accepted Samples.tiger)
                 Samples.sampleSummaryText Samples.sampleSummary);
      try reflexivity.
    discriminate.
  - apply (proj1 (proj2 (summary_effect_outcomes Samples.world
                           MoreSamples.exploring Samples.comparing))).
    left; reflexivity.
Defined.

(** *** The terms handed to [handleSearch] *)

Lemma trimEnd_cons (c : ascii) (s : string) :
  JS.trimEnd (String c s) =
    match JS.trimEnd s with
    | EmptyString =>
        if JS.isWhiteSpace c then EmptyString else String c EmptyString
    | r => String c r
    end.
Proof. reflexivity. Qed.

Lemma trimEnd_idempotent (s : string) : JS.trimEnd (JS.trimEnd s) = JS.trimEnd s.
Proof.
  induction s as [|c s IH]; [reflexivity|].
  rewrite trimEnd_cons.
  destruct (JS.trimEnd s) as [|d r] eqn:Hs.
  - destruct (JS.isWhiteSpace c) eqn:Hc; [reflexivity|].
    rewrite trimEnd_cons, Hc; reflexivity.
  - rewrite trimEnd_cons, IH; reflexivity.
Qed.

(** What [trimStart] returns is empty or starts with a character that is
    not white space, and [trimEnd] keeps such a start. *)
Lemma trimStart_head (s : string) :
  match JS.trimStart s with
  | EmptyString => True
  | String c _ => JS.isWhiteSpace c = false
  end.
Proof.
  induction s as [|c s IH]; [exact I|].
  cbn [JS.trimStart]; destruct (JS.isWhiteSpace c) eqn:Hc; [exact IH | exact Hc].
Qed.

Lemma trimEnd_keeps_head (c : ascii) (s : string) :
  JS.isWhiteSpace c = false ->
  exists r, JS.trimEnd (String c s) = String c r.
Proof.
  intros Hc; cbn [JS.trimEnd].
  destruct (JS.trimEnd s); [rewrite Hc|]; eexists; reflexivity.
Qed.

Lemma trim_idempotent (s : string) : JS.trim (JS.trim s) = JS.trim s.
Proof.
  unfold JS.trim.
  pose proof (trimStart_head s) as Hhead.
  destruct (JS.trimStart s) as [|c t]; [reflexivity|].
  destruct (trimEnd_keeps_head c t Hhead) as [r Hr].
  rewrite Hr.
  cbn [JS.trimStart]; rewrite Hhead, <- Hr.
  apply trimEnd_idempotent.
Qed.

(** X22. Every term handed to [handleSearch] is non-empty after
    trimming: the search bar submits only such a term (as typed, not
    trimmed), the end of a capture session passes a trimmed, non-empty
    transcript, and the four suggestions are fixed names. *)
Theorem search_terms_are_never_blank (term call : string) (st : AppState) :
  In call (fst (SearchBar.handleSubmit term)) \/
  In call (snd (onend st)) \/
  In call suggestedAnimals ->
  JS.trim call <> "" /\
  (In call (fst (SearchBar.handleSubmit term)) -> call = term) /\
  (In call (snd (onend st)) -> call = JS.trim (latestVoiceSearchText st)).
Proof.
  assert (Hsubmit : In call (fst (SearchBar.handleSubmit term)) ->
                    JS.trim call <> "" /\ call = term).
  { unfold SearchBar.handleSubmit.
    destruct (JS.truthyString (JS.trim term)) eqn:Ht; cbn [fst]; [|intros []].
    intros [<- | []]; split; [|reflexivity].
    intros He; rewrite He in Ht; discriminate. }
  assert (Hend : In call (snd (onend st)) ->
                 JS.trim call <> "" /\ call = JS.trim (latestVoiceSearchText st)).
  { unfold onend.
    change (latestVoiceSearchText (setIsVoiceListening false st))
      with (latestVoiceSearchText st).
    destruct (JS.truthyString (JS.trim (latestVoiceSearchText st))) eqn:Ht;
      cbn [snd]; [|intros []].
    intros [<- | []]; split; [|reflexivity].
    rewrite trim_idempotent; intros He; rewrite He in Ht; discriminate. }
  intros Hcall; split; [|split].
  - destruct Hcall as [H | [H | H]];
      [apply Hsubmit, H | apply Hend, H |].
    unfold suggestedAnimals in H; simpl in H.
    repeat (destruct H as [<- | H]; [discriminate|]); contradiction.
  - intros H; apply Hsubmit, H.
  - intros H; apply Hend, H.
Qed.

Lemma search_terms_are_never_blank_witness :
  JS.trim " Lion " <> "" /\ JS.trim "Snow Leopard" <> "".
Proof.
  split.
  - apply (@search_terms_are_never_blank " Lion " " Lion " initialState).
    left; left; reflexivity.
  - apply (@search_terms_are_never_blank "" "Snow Leopard" Samples.heard).
    right; left; left; reflexivity.
Defined.

End SessionProps.

(** ** More on voice capture *)

Module VoiceMore.

Import App SpecMore.

Lemma append_assoc (a b c : string) : (a ++ b) ++ c = a ++ (b ++ c).
Proof.
  induction a as [|x a IH]; simpl; [reflexivity | now rewrite IH].
Qed.

Lemma append_empty_r (a : string) : a ++ "" = a.
Proof.
  induction a as [|x a IH]; simpl; [reflexivity | now rewrite IH].
Qed.

(** The loop of [onresult] adds the interim transcripts to one
    accumulator and the final ones to the other, in order. *)
Lemma accumulate_transcripts (results : list SpeechResult) (interim final : string) :
  accumulate results interim final
  = (interim ++ transcriptsOf false results, final ++ transcriptsOf true results).
Proof.
  revert interim final; induction results as [|r results IH]; intros interim final.
  - unfold transcriptsOf; simpl; rewrite !append_empty_r; reflexivity.
  - cbn [accumulate]; unfold transcriptsOf in *; cbn [filter].
    destruct (isFinal r); cbn [Bool.eqb map joinTexts];
      rewrite IH, append_assoc; reflexivity.
Qed.

(** X23. A recognition event replaces the transcript: by the final
    transcripts of the event, from [resultIndex] on and in order, when
    their text is non-empty, and by the interim ones otherwise.  The
    transcript held before plays no part. *)
Theorem onresult_shows_final_or_interim
    (resultIndex : nat) (results : list SpeechResult) (st : AppState) :
  let heard := skipn resultIndex results in
  onresult resultIndex results st
  = setVoiceSearchText
      (if JS.truthyString (transcriptsOf true heard)
       then transcriptsOf true heard
       else transcriptsOf false heard) st.
Proof.
  unfold onresult; rewrite accumulate_transcripts; reflexivity.
Qed.

(** X24. A capture session from start to end: the start clears
    transcript and error, the result event shows what was heard, the copy
    effect brings the ref up to date, and the end starts one search for
    the heard text, trimmed, when that is non-empty, and none otherwise;
    after the end the transcript is empty and listening is off. *)
Theorem capture_session_searches_what_was_heard
    (resultIndex : nat) (results : list SpeechResult) (st : AppState) :
  let listening := onstart st in
  let shown := onresult resultIndex results listening in
  let heard := voiceSearchText shown in
  let ended := onend (syncLatestVoiceSearchText shown) in
  isVoiceListening listening = true /\
  voiceSearchText listening = "" /\ voiceSearchError listening = None /\
  snd ended = (if JS.truthyString (JS.trim heard) then [JS.trim heard] else []) /\
  voiceSearchText (fst ended) = "" /\
  isVoiceListening (fst ended) = false.
Proof.
  cbv zeta; split; [reflexivity|]; split; [reflexivity|]; split; [reflexivity|].
  unfold onend.
  change (latestVoiceSearchText
            (setIsVoiceListening false
               (syncLatestVoiceSearchText (onresult resultIndex results (onstart st)))))
    with (voiceSearchText (onresult resultIndex results (onstart st))).
  destruct (JS.truthyString (JS.trim (voiceSearchText _))); repeat split.
Qed.

(** X25. The recognizer is built once.  A toggle in a browser without
    speech recognition only sets the voice error.  Otherwise the first
    toggle builds the recognizer with the callbacks of its render, and
    every later toggle keeps that recognizer, whatever render it is
    called from.  A toggle while listening only stops the recognizer. *)
Theorem recognizer_is_built_once
    (supported startThrows startThrows' : bool)
    (snap snap' st st' : AppState) (ref : option Voice.Recognition) :
  let first := Voice.toggleVoiceSearch true startThrows snap ref st in
  let later := Voice.toggleVoiceSearch supported startThrows' snap'
                 (snd (fst first)) st' in
  Voice.toggleVoiceSearch false startThrows snap ref st
    = (setVoiceSearchError (Some Voice.unsupportedMessage) st, ref, []) /\
  (ref = None -> snd (fst first) = Some {| Voice.builtIn := snap |}) /\
  snd (fst first) <> None /\
  snd (fst later) = snd (fst first) /\
  (isVoiceListening snap = true -> fst (fst first) = st /\ snd first = [Voice.CallStop]).
Proof.
  cbv zeta; unfold Voice.toggleVoiceSearch; split; [reflexivity|].
  destruct ref as [r|], supported, startThrows, startThrows',
    (isVoiceListening snap), (isVoiceListening snap');
    repeat split; intros; try discriminate; try reflexivity.
Qed.

Lemma recognizer_is_built_once_witness :
  let first := Voice.toggleVoiceSearch true false initialState None initialState in
  let later := Voice.toggleVoiceSearch true false MoreSamples.awaitingChallenger
                 (snd (fst first)) MoreSamples.awaitingChallenger in
  snd (fst later) = Some MoreSamples.firstRecognizer.
Proof.
  cbv zeta.
  destruct (recognizer_is_built_once true false false initialState
              MoreSamples.awaitingChallenger initialState
              MoreSamples.awaitingChallenger None)
    as (_ & Hbuilt & _ & Hkept & _).
  rewrite Hkept; exact (Hbuilt eq_refl).
Defined.

End VoiceMore.

(** ** The chat panel *)

Module ChatbotProps.

Import Chatbot.

(** A clock reading never prints as the id of the streaming message. *)
Lemma stamp_not_streaming (now : Z) : stamp now <> streamingId.
Proof.
  unfold stamp, JS.numberToString, streamingId.
  destruct (Z.to_int now) as [d|d]; [destruct d|]; simpl; discriminate.
Qed.

Lemma append_nonempty_r (a b : string) : b <> "" -> a ++ b <> "".
Proof.
  intros Hb H; destruct a; simpl in H; [contradiction | discriminate].
Qed.

Lemma lastMessage_snoc (prev : list ChatMessage) (m : ChatMessage) :
  lastMessage (prev ++ [m]) = Some m.
Proof.
  unfold lastMessage; rewrite map_app; simpl; apply last_last.
Qed.

(** The streaming message with the text received so far, after the
    messages [base]; nothing while no text has been received. *)
Lemma showStreaming_next (base : list ChatMessage) (full next : string) :
  (forall m, In m base -> id m <> streamingId) ->
  next <> "" ->
  showStreaming next
    (base ++ (if JS.truthyString full
              then [{| id := streamingId; role := model; text := full |}]
              else []))
  = (base ++ [{| id := streamingId; role := model; text := next |}])%list.
Proof.
  intros Hbase Hnext; unfold showStreaming.
  destruct (JS.truthyString full).
  - rewrite lastMessage_snoc; simpl.
    rewrite map_app; simpl; f_equal.
    rewrite <- (map_id base) at 2; apply map_ext_in.
    intros m Hm; destruct (String.eqb_spec (id m) streamingId) as [He|]; [|reflexivity].
    contradiction (Hbase m Hm).
  - rewrite app_nil_r.
    assert (Hlast : match lastMessage base with
                    | Some m => (Role_eqb (role m) model
                                 && String.eqb (id m) streamingId)%bool
                    | None => false
                    end = false).
    { destruct base as [|b base'] using rev_ind; [reflexivity|].
      rewrite lastMessage_snoc.
      destruct (String.eqb_spec (id b) streamingId) as [He|];
        [|apply andb_false_r].
      exfalso; apply (Hbase b);
        [apply in_or_app; right; left; reflexivity | exact He]. }
    rewrite Hlast; reflexivity.
Qed.

Lemma truthy_append (full t : string) :
  JS.truthyString t = true -> JS.truthyString (full ++ t) = true.
Proof.
  intros Ht; destruct full; [exact Ht | reflexivity].
Qed.

(** The loop over the chunks keeps one streaming message, whose text is
    all the text received. *)
Lemma consume_streamed (cs : list (option string)) (base : list ChatMessage)
    (full : string) :
  (forall m, In m base -> id m <> streamingId) ->
  consume cs full
    (base ++ (if JS.truthyString full
              then [{| id := streamingId; role := model; text := full |}]
              else []))
  = (full ++ streamedText cs,
     (base ++ (if JS.truthyString (full ++ streamedText cs)
               then [{| id := streamingId; role := model;
                        text := full ++ streamedText cs |}]
               else []))%list).
Proof.
  intros Hbase; revert full.
  induction cs as [|c cs IH]; intros full.
  - simpl; rewrite VoiceMore.append_empty_r; reflexivity.
  - cbn [consume streamedText].
    destruct (JS.truthyOpt c) eqn:Hc.
    + destruct c as [t|]; [|discriminate]; simpl in Hc.
      rewrite showStreaming_next;
        [|exact Hbase | apply append_nonempty_r; intros ->; discriminate].
      pose proof (IH (full ++ t)) as Hnext.
      rewrite (truthy_append full t Hc) in Hnext.
      rewrite Hnext, VoiceMore.append_assoc; reflexivity.
    + simpl; exact (IH full).
Qed.

Lemma finalize_streamed (now : Z) (base : list ChatMessage) (full : string) :
  (forall m, In m base -> id m <> streamingId) ->
  finalize now
    (base ++ (if JS.truthyString full
              then [{| id := streamingId; role := model; text := full |}]
              else []))
  = (base ++ (if JS.truthyString full
              then [{| id := stamp now; role := model; text := full |}]
              else []))%list.
Proof.
  intros Hbase; unfold finalize; rewrite map_app; f_equal.
  - rewrite <- (map_id base) at 2; apply map_ext_in.
    intros m Hm; destruct (String.eqb_spec (id m) streamingId) as [He|]; [|reflexivity].
    contradiction (Hbase m Hm).
  - destruct (JS.truthyString full); reflexivity.
Qed.

(** X26. A send whose reply streams to its end shows, after the
    messages already there, the user's trimmed text and then one reply
    whose text is all the non-empty chunks joined in order, under an id
    taken from the clock; no reply is shown when every chunk was empty.
    The input is cleared, the sending flag is down, and the provider was
    sent the trimmed text once. *)
Theorem streamed_reply_is_the_chunks_joined
    (sentAt doneAt failedAt : Z) (stream : Stream) (st : ChatState) :
  JS.trim (inputMessage st) <> "" ->
  isSending st = false ->
  failure stream = None ->
  (forall m, In m (messages st) -> id m <> streamingId) ->
  send sentAt doneAt failedAt (Ok stream) st
  = ({| messages :=
          (messages st
           ++ [{| id := stamp sentAt; role := user;
                  text := JS.trim (inputMessage st) |}]
           ++ (if JS.truthyString (streamedText (chunks stream))
               then [{| id := stamp doneAt; role := model;
                        text := streamedText (chunks stream) |}]
               else []))%list;
        inputMessage := "";
        isSending := false |},
     [JS.trim (inputMessage st)]).
Proof.
  intros Hinput Hidle Hdone Hids; unfold send, handleSendMessage.
  destruct (JS.truthyString (JS.trim (inputMessage st))) eqn:Ht;
    [|destruct (JS.trim (inputMessage st)); [contradiction | discriminate]].
  rewrite Hidle; cbn [negb orb text].
  set (userMessage := {| id := stamp sentAt; role := user;
                         text := JS.trim (inputMessage st) |}).
  assert (Hbase : forall m, In m (messages st ++ [userMessage])%list ->
                            id m <> streamingId).
  { intros m Hm; apply in_app_or in Hm as [Hm | [<- | []]];
      [exact (Hids m Hm) | apply stamp_not_streaming]. }
  pose proof (consume_streamed (chunks stream) (messages st ++ [userMessage]) ""
                Hbase) as Hconsume.
  cbn [JS.truthyString append] in Hconsume; rewrite app_nil_r in Hconsume.
  rewrite Hconsume, Hdone, (finalize_streamed doneAt _ _ Hbase).
  rewrite <- app_assoc; reflexivity.
Qed.

Lemma streamed_reply_is_the_chunks_joined_witness :
  let st := {| messages := []; inputMessage := "  hi "; isSending := false |} in
  send 1 2 3 (Ok {| chunks := [Some "He"; None; Some ""; Some "llo"];
                    failure := None |}) st
  = ({| messages := [ {| id := "1"; role := user; text := "hi" |};
                      {| id := "2"; role := model; text := "Hello" |} ];
        inputMessage := ""; isSending := false |},
     ["hi"]).
Proof.
  intros st.
  apply (@streamed_reply_is_the_chunks_joined 1 2 3
           {| chunks := [Some "He"; None; Some ""; Some "llo"]; failure := None |} st).
  - discriminate.
  - reflexivity.
  - reflexivity.
  - intros m [].
Defined.



End ChatbotProps.

(** ** The detail card *)

Module DetailCardProps.

Import DetailCard.

Lemma closingGroup_cons (c d : ascii) (s : string) :
  closingGroup (String c (String d s)) =
    if isLineTerminator c then None
    else match closingGroup (String d s) with
         | Some g => Some (String c g)
         | None => None
         end.
Proof. reflexivity. Qed.

Lemma closingGroup_sound (s g : string) :
  closingGroup s = Some g -> s = g ++ ")" /\ noLineTerminator g = true.
Proof.
  revert g; induction s as [|c s IH]; intros g H; [discriminate H|].
  destruct s as [|d s'].
  - cbn [closingGroup] in H.
    destruct (Ascii.eqb c ")") eqn:Hc; [|discriminate H].
    apply Ascii.eqb_eq in Hc; subst c.
    injection H as <-; split; reflexivity.
  - rewrite closingGroup_cons in H.
    destruct (isLineTerminator c) eqn:Hc; [discriminate H|].
    destruct (closingGroup (String d s')) as [g'|]; [|discriminate H].
    injection H as <-; destruct (IH g' eq_refl) as [-> Hg].
    split; [reflexivity | simpl; rewrite Hc, Hg; reflexivity].
Qed.

Lemma closingGroup_complete (g : string) :
  noLineTerminator g = true -> closingGroup (g ++ ")") = Some g.
Proof.
  induction g as [|c g IH]; [reflexivity|].
  simpl; intros H; apply andb_true_iff in H as [Hc Hg].
  apply negb_true_iff in Hc; rewrite Hc, (IH Hg).
  destruct (g ++ ")") eqn:E; [destruct g; discriminate | reflexivity].
Qed.

Lemma tailGroup_sound (s g : string) :
  tailGroup s = Some g ->
  exists ws,
    JS.isWhiteSpace ws = true /\
    s = String ws (String "(" (g ++ ")")) /\
    noLineTerminator g = true.
Proof.
  unfold tailGroup.
  destruct s as [|c [|p body]]; try discriminate.
  destruct (Ascii.eqb_spec p "(") as [->|Hp].
  - destruct (JS.isWhiteSpace c) eqn:Hc; [|discriminate].
    intros H; apply closingGroup_sound in H as [-> Hg].
    exists c; repeat split; assumption.
  - intros H; exfalso; revert H.
    destruct p as [[] [] [] [] [] [] [] []]; try discriminate.
    contradiction Hp; reflexivity.
Qed.

Lemma matchItem_cons (c : ascii) (s : string) :
  matchItem (String c s) =
    if isLineTerminator c
    then match tailGroup (String c s) with
         | Some g2 => Some (EmptyString, g2)
         | None => None
         end
    else match matchItem s with
         | Some (g1, g2) => Some (String c g1, g2)
         | None =>
             match tailGroup (String c s) with
             | Some g2 => Some (EmptyString, g2)
             | None => None
             end
         end.
Proof. reflexivity. Qed.

(** X28. When the pattern of [formatDistributionItem] matches, the item
    is the first group, one white space character, an opening
    parenthesis, the second group and a closing parenthesis, and neither
    group holds a line terminator; so the two spans lose nothing of the
    item but that separator and the parentheses.  An item that does not
    match is rendered as it is. *)
Theorem formatted_item_splits_the_item (item : string) :
  match formatDistributionItem item with
  | Spans region count =>
      exists ws,
        JS.isWhiteSpace ws = true /\
        item = region ++ String ws (String "(" (count ++ ")")) /\
        noLineTerminator region = true /\
        noLineTerminator count = true
  | Plain shown => shown = item
  end.
Proof.
  unfold formatDistributionItem.
  destruct (matchItem item) as [[region count]|] eqn:Hmatch; [|reflexivity].
  revert region count Hmatch.
  induction item as [|c item IH]; intros region count.
  - simpl; discriminate.
  - assert (Hhere : match tailGroup (String c item) with
                    | Some g2 => Some (EmptyString, g2)
                    | None => None
                    end = Some (region, count) ->
                    exists ws,
                      JS.isWhiteSpace ws = true /\
                      String c item = region ++ String ws (String "(" (count ++ ")")) /\
                      noLineTerminator region = true /\
                      noLineTerminator count = true).
    { destruct (tailGroup (String c item)) as [g2|] eqn:Htail; [|discriminate].
      intros [= <- <-].
      destruct (tailGroup_sound _ Htail) as (ws & Hws & Heq & Hg).
      exists ws; repeat split; assumption. }
    rewrite matchItem_cons.
    destruct (isLineTerminator c) eqn:Hc; [exact Hhere|].
    destruct (matchItem item) as [[g1 g2]|]; [|exact Hhere].
    intros [= <- <-].
    destruct (IH g1 g2 eq_refl) as (ws & Hws & -> & Hg1 & Hg2).
    exists ws; repeat split; try assumption.
    simpl; rewrite Hc, Hg1; reflexivity.
Qed.

Lemma matchItem_no_paren (s : string) :
  hasChar "(" s = false -> matchItem s = None.
Proof.
  induction s as [|c s IH]; [reflexivity|].
  cbn [hasChar]; intros H; apply orb_false_iff in H as [Hc Hs].
  rewrite matchItem_cons, (IH Hs).
  assert (Htail : tailGroup (String c s) = None).
  { unfold tailGroup; destruct s as [|p body]; [reflexivity|].
    cbn [hasChar] in Hs; apply orb_false_iff in Hs as [Hp _].
    destruct p as [[] [] [] [] [] [] [] []]; try reflexivity; discriminate Hp. }
  rewrite Htail; destruct (isLineTerminator c); reflexivity.
Qed.

Lemma hasChar_app (x : ascii) (a b : string) :
  hasChar x (a ++ b) = (hasChar x a || hasChar x b)%bool.
Proof.
  induction a as [|c a IH]; simpl; [reflexivity | rewrite IH; apply orb_assoc].
Qed.

(** X29. An entry written as the lookup asks for it, a region, a space
    and a count in parentheses, is split at that last space: when
    neither part holds a line terminator and the count holds no opening
    parenthesis, the spans are exactly the region and the count, also
    when the region itself has parentheses in it. *)
Theorem region_and_count_are_split
    (region count : string) (ws : ascii) :
  JS.isWhiteSpace ws = true ->
  noLineTerminator region = true ->
  noLineTerminator count = true ->
  hasChar "(" count = false ->
  formatDistributionItem (region ++ String ws (String "(" (count ++ ")")))
  = Spans region count.
Proof.
  intros Hws Hregion Hcount Hparen; unfold formatDistributionItem.
  assert (Hrest : matchItem (String "(" (count ++ ")")) = None).
  { rewrite matchItem_cons.
    rewrite (matchItem_no_paren (count ++ ")"))
      by (rewrite hasChar_app, Hparen; reflexivity).
    change (isLineTerminator "(") with false; cbv iota.
    unfold tailGroup; destruct (count ++ ")") as [|p body]; [reflexivity|].
    destruct p as [[] [] [] [] [] [] [] []]; reflexivity. }
  assert (Hmatch : matchItem (region ++ String ws (String "(" (count ++ ")")))
                   = Some (region, count)).
  { induction region as [|c region IH].
    - change (matchItem (String ws (String "(" (count ++ ")"))) = Some ("", count)).
      rewrite matchItem_cons, Hrest.
      unfold tailGroup; rewrite Hws, (closingGroup_complete _ Hcount).
      destruct (isLineTerminator ws); reflexivity.
    - simpl in Hregion; apply andb_true_iff in Hregion as [Hc Hr].
      apply negb_true_iff in Hc.
      change (matchItem (String c (region ++ String ws (String "(" (count ++ ")"))))
              = Some (String c region, count)).
      rewrite matchItem_cons, Hc, (IH Hr); reflexivity. }
  rewrite Hmatch; reflexivity.
Qed.

Lemma region_and_count_are_split_witness :
  formatDistributionItem "India (~3,000)" = Spans "India" "~3,000" /\
  formatDistributionItem "Congo (DRC) (~5)" = Spans "Congo (DRC)" "~5".
Proof.
  split.
  - apply (@region_and_count_are_split "India" "~3,000" " "); reflexivity.
  - apply (@region_and_count_are_split "Congo (DRC)" "~5" " "); reflexivity.
Defined.

End DetailCardProps.

(** ** The radar chart *)

Module RadarStatsProps.

Import RadarStats.

(** X30. For a subject the lookup returned, the value the chart plots
    under "Reach" is the number of distribution entries its tooltip
    lists; and without a second subject the second series is 0 on each of
    the nine axes and has no entries to list. *)
Theorem reach_axis_counts_the_listed_regions
    (w : World) (animalName : string) (animal1 : AnimalData) :
  GeminiService.fetchAnimalData w animalName = Ok animal1 ->
  (forall animal2 r,
      In r (data animal1 animal2) -> subject r = "Reach" ->
      detailsA r = Some (distribution animal1) /\
      A r = Z.of_nat (length (distribution animal1))) /\
  (forall r, In r (data animal1 None) -> B r = 0 /\ detailsB r = None) /\
  length (data animal1 None) = 9%nat.
Proof.
  intros H.
  apply LookupProps.fetchAnimalData_accepted in H as (d & img & _ & ->).
  split; [|split; [|reflexivity]].
  - intros animal2 r Hr Hlabel; unfold data in Hr; simpl in Hr.
    repeat (destruct Hr as [<- | Hr]; [try discriminate Hlabel|]);
      [split; reflexivity | contradiction].
  - intros r Hr; unfold data in Hr; simpl in Hr.
    repeat (destruct Hr as [<- | Hr]; [split; reflexivity|]); contradiction.
Qed.

Lemma reach_axis_counts_the_listed_regions_witness :
  let rows := data (Samples.accepted Samples.lion)
                   (Some (Samples.accepted Samples.tiger)) in
  let r := nth 8 rows (row "" reach Samples.lion None) in
  subject r = "Reach" /\
  detailsA r = Some ["Africa (~20000)"; "India (~650)"] /\ A r = 2.
Proof.
  cbv zeta; split; [reflexivity|].
  apply (proj1 (@reach_axis_counts_the_listed_regions Samples.world "Lion"
                  (Samples.accepted Samples.lion) eq_refl)
               (Some (Samples.accepted Samples.tiger))).
  - simpl; auto 10.
  - reflexivity.
Defined.

End RadarStatsProps.
